(** * Per-user train/test splitting of an interaction log

    A shallow embedding of [replay/splitters/user_log_splitter.py]
    (class [UserSplitter], function [k_folds]) and of the older
    three-output variant in
    [sponge_bob_magic/validation_schemes/user_log_splitter.py]
    (class [UserLogSplitter] and its two subclasses).

    Modelling conventions.
    - A Spark DataFrame is the list of its rows.  Column additions are
      maps over that list, [filter] is [List.filter] on the SQL condition
      evaluated in three-valued logic, and a window function returns its
      rows partition after partition, each partition in window order (the
      order the doctests of the source show).
    - Python numbers are [PyInt] (type [int]) or [PyFloat] (type [float]);
      a float is the rational it denotes.  Comparisons are exact, as they
      are on doubles.  Module [UserSplitter] idealises the two arithmetic
      operations of the class, the division [row_num / count] and the
      product [user_count * user_test_size], as exact; module [Rounded]
      has the same methods with each operation rounded, and module
      [Double] gives the rounding of IEEE 754 binary64 (to nearest, ties
      to even).  Statements on how many rows or users a fraction selects
      are made on [Rounded] at [Double.round]; infinities and overflow are
      left out, and NaN is modelled where a statement depends on it (the
      older splitter's [test_size]).
    - What Spark leaves open is taken from an [Engine]: the pseudo-random
      column produced by [rand(seed)] and the order of rows whose sort keys
      are equal.  What Python draws anew at each call (the seed used when
      [seed] is [None]) is taken from [Entropy]. *)

From Stdlib Require Import ZArith QArith Qround Qpower Qreduction.
From Stdlib Require Import List Bool Lia Lqa Permutation.
From Stdlib Require String.
Import String.StringSyntax.
Delimit Scope string_scope with string.
From Stdlib Require Import Sorting.Sorted.
Import ListNotations.

Local Open Scope Z_scope.

(** ** Python values *)

Module Py.

Inductive PyNum : Type :=
| PyInt (z : Z)
| PyFloat (q : Q).

Definition num_val (x : PyNum) : Q :=
  match x with
  | PyInt z => inject_Z z
  | PyFloat q => q
  end.

(** [isinstance(x, int)] *)
Definition isinstance_int (x : PyNum) : bool :=
  match x with
  | PyInt _ => true
  | PyFloat _ => false
  end.

(** [a <= b] and [a < b] on Python numbers *)
Definition le (a b : PyNum) : bool := Qle_bool (num_val a) (num_val b).
Definition lt (a b : PyNum) : bool := negb (Qle_bool (num_val b) (num_val a)).

(** The parameter an invalid-value message is about. *)
Inductive Param : Type :=
| item_test_size_param
| user_test_size_param
| test_size_param.

Inductive Exn : Type :=
| ValueError (p : Param) (v : PyNum)
| TypeError_unpack_method
| ValueError_unpack_arity.

Inductive result (A : Type) : Type :=
| Ok (a : A)
| Raise (e : Exn).

Arguments Ok {A} a.
Arguments Raise {A} e.

Definition bind {A B} (m : result A) (k : A -> result B) : result B :=
  match m with
  | Ok a => k a
  | Raise e => Raise e
  end.

End Py.

Import Py.

Notation "x <- m ;; k" := (Py.bind m (fun x => k))
  (at level 61, m at next level, right associativity).

(** ** The log *)

Record Row : Type := mkRow {
  user_id : Z;
  item_id : Z;
  relevance : Z;
  timestamp : Z
}.

Definition Log : Type := list Row.

(** ** The dataframe engine *)

Record Engine : Type := mkEngine {
  (** value of the column [rand(seed)] at a row position *)
  rand_at : Z -> nat -> Q;
  (** how a sort orders rows with equal keys, by row position; rows this
      does not separate keep their input order *)
  tie_break : nat -> Z
}.

Record Entropy : Type := mkEntropy {
  (** the seed [rand(None)] picks in [_get_test_users] *)
  users_seed : Z;
  (** the seed [rand(None)] picks in [_add_random_partition] *)
  rows_seed : Z
}.

Module Sql.

(** Three-valued conditions: [None] is SQL's NULL. *)
Definition cond : Type := option bool.

Definition or3 (a b : cond) : cond :=
  match a, b with
  | Some true, _ => Some true
  | _, Some true => Some true
  | Some false, Some false => Some false
  | _, _ => None
  end.

Definition and3 (a b : cond) : cond :=
  match a, b with
  | Some false, _ => Some false
  | _, Some false => Some false
  | Some true, Some true => Some true
  | _, _ => None
  end.

Definition is_null {A} (x : option A) : cond :=
  match x with None => Some true | Some _ => Some false end.

Definition is_not_null {A} (x : option A) : cond :=
  match x with None => Some false | Some _ => Some true end.

Definition gt (x : option Q) (y : Q) : cond :=
  option_map (fun a => negb (Qle_bool a y)) x.

Definition le (x : option Q) (y : Q) : cond :=
  option_map (fun a => Qle_bool a y) x.

(** A row passes a filter when its condition is TRUE. *)
Definition holds (c : cond) : bool :=
  match c with Some true => true | _ => false end.

Definition where_ {A} (c : A -> cond) (df : list A) : list A :=
  filter (fun r => holds (c r)) df.

(** [a / b]: NULL when an operand is NULL or the divisor is zero. *)
Definition div (a : Z) (b : option Z) : option Q :=
  match b with
  | Some d => if d =? 0 then None else Some (inject_Z a / inject_Z d)%Q
  | None => None
  end.

Definition distinct (l : list Z) : list Z := nodup Z.eq_dec l.

(** [l.join(r, how="left", on=key)] *)
Definition left_join {A B} (ka : A -> Z) (kb : B -> Z)
    (l : list A) (r : list B) : list (A * option B) :=
  flat_map
    (fun a =>
       match filter (fun b => kb b =? ka a) r with
       | [] => [(a, None)]
       | ms => map (fun b => (a, Some b)) ms
       end) l.

(** [df.groupBy(key).count()] *)
Definition group_count {A} (key : A -> Z) (df : list A) : list (Z * Z) :=
  map (fun u => (u, Z.of_nat (length (filter (fun a => key a =? u) df))))
      (distinct (map key df)).

Definition indexed {A} (df : list A) : list (nat * A) :=
  combine (seq 0 (length df)) df.

Fixpoint insert {A} (leb : A -> A -> bool) (a : A) (l : list A) : list A :=
  match l with
  | [] => [a]
  | b :: t => if leb a b then a :: b :: t else b :: insert leb a t
  end.

Fixpoint sort {A} (leb : A -> A -> bool) (l : list A) : list A :=
  match l with
  | [] => []
  | a :: t => insert leb a (sort leb t)
  end.

Fixpoint number_from {A} (n : Z) (l : list A) : list (A * Z) :=
  match l with
  | [] => []
  | a :: t => (a, n) :: number_from (n + 1) t
  end.

(** The order a window sorts by: the [orderBy] key, then the engine's
    choice among equal keys. *)
Definition window_leb {A} (eng : Engine) (leb : A -> A -> bool)
    (x y : nat * A) : bool :=
  leb (snd x) (snd y)
  && (negb (leb (snd y) (snd x))
      || (tie_break eng (fst x) <=? tie_break eng (fst y))).

Definition partition_rows {A} (eng : Engine) (part : A -> Z)
    (leb : A -> A -> bool) (df : list A) (u : Z) : list A :=
  map snd (sort (window_leb eng leb)
             (filter (fun x => part (snd x) =? u) (indexed df))).

(** [row_number().over(Window.partitionBy(part).orderBy(leb))] added as a
    last column. *)
Definition row_number {A} (eng : Engine) (part : A -> Z)
    (leb : A -> A -> bool) (df : list A) : list (A * Z) :=
  flat_map (fun u => number_from 1 (partition_rows eng part leb df u))
           (distinct (map part df)).

End Sql.

(** ** [replay.splitters.user_log_splitter.UserSplitter] *)

Module UserSplitter.

Record t : Type := mk {
  item_test_size : PyNum;
  user_test_size : option PyNum;
  shuffle : bool;
  drop_cold_items : bool;
  drop_cold_users : bool;
  seed : option Z
}.

(** The log joined with the test users: column [test_user] is 1 or NULL. *)
Record Joined : Type := mkJoined {
  j_base : Row;
  j_test_user : option Z
}.

(** The frame [res]: the joined log with [rand] (absent in the time
    split) and [row_num]. *)
Record Res : Type := mkRes {
  base : Row;
  test_user : option Z;
  rand : option Q;
  row_num : Z
}.

(** [res] with the columns [count] and [frac] of [_split_proportion]. *)
Record ResFrac : Type := mkResFrac {
  res : Res;
  count : option Z;
  frac : option Q
}.

(** The number of test users [_get_test_users] computes, or [None] where
    it sets [value_error]. *)
Definition test_user_count (uts : PyNum) (user_count : Z) : option PyNum :=
  match uts with
  | PyInt n =>
      if (1 <=? n) && (n <? user_count) then Some (PyInt n) else None
  | PyFloat q =>
      if Py.lt uts (PyInt 1) && Py.lt (PyInt 0) uts
      then Some (PyFloat (inject_Z user_count * q))
      else None
  end.

Definition _get_test_users (eng : Engine) (ent : Entropy) (self : t)
    (log : Log) : result (list Z) :=
  let all_users := Sql.distinct (map user_id log) in
  let user_count := Z.of_nat (length all_users) in
  match user_test_size self with
  | Some uts =>
      match test_user_count uts user_count with
      | None => Raise (ValueError user_test_size_param uts)
      | Some n =>
          let s := match seed self with Some s => s | None => users_seed ent end in
          let with_rand :=
            map (fun x => (snd x, rand_at eng s (fst x))) (Sql.indexed all_users) in
          let numbered :=
            Sql.row_number eng (fun _ => 0)
              (fun x y => Qle_bool (snd x) (snd y)) with_rand in
          Ok (map (fun x => fst (fst x))
                (filter (fun x => Qle_bool (inject_Z (snd x)) (num_val n))
                        numbered))
      end
  | None => Ok all_users
  end.

(** [log.join(test_users.withColumn("test_user", lit(1)), how="left",
    on="user_id")] *)
Definition join_test_users (log : Log) (test_users : list Z) : list Joined :=
  map (fun x => mkJoined (fst x) (option_map snd (snd x)))
      (Sql.left_join user_id fst log (map (fun u => (u, 1)) test_users)).

Definition _add_random_partition (eng : Engine) (ent : Entropy) (self : t)
    (dataframe : list Joined) : list Res :=
  let s := match seed self with Some s => s | None => rows_seed ent end in
  let with_rand :=
    map (fun x => (snd x, rand_at eng s (fst x))) (Sql.indexed dataframe) in
  map (fun x => mkRes (j_base (fst (fst x))) (j_test_user (fst (fst x)))
                      (Some (snd (fst x))) (snd x))
      (Sql.row_number eng (fun x => user_id (j_base (fst x)))
         (fun x y => Qle_bool (snd x) (snd y)) with_rand).

(** [timestamp] descending *)
Definition time_desc (x y : Joined) : bool :=
  timestamp (j_base y) <=? timestamp (j_base x).

Definition _add_time_partition (eng : Engine) (dataframe : list Joined)
    : list Res :=
  map (fun x => mkRes (j_base (fst x)) (j_test_user (fst x)) None (snd x))
      (Sql.row_number eng (fun x => user_id (j_base x)) time_desc dataframe).

Definition ranked (eng : Engine) (ent : Entropy) (self : t)
    (log : Log) (test_users : list Z) : list Res :=
  if shuffle self
  then _add_random_partition eng ent self (join_test_users log test_users)
  else _add_time_partition eng (join_test_users log test_users).

(** [res.join(counts, on="user_id", how="left")] with the column [frac] *)
Definition with_frac (log : Log) (rs : list Res) : list ResFrac :=
  map (fun x =>
         let c := option_map snd (snd x) in
         mkResFrac (fst x) c (Sql.div (row_num (fst x)) c))
      (Sql.left_join (fun r => user_id (base r)) fst rs
         (Sql.group_count user_id log)).

Definition proportion_train (f : Q) (r : ResFrac) : Sql.cond :=
  Sql.or3 (Sql.gt (frac r) f) (Sql.is_null (test_user (res r))).

Definition proportion_test (f : Q) (r : ResFrac) : Sql.cond :=
  Sql.and3 (Sql.le (frac r) f) (Sql.is_not_null (test_user (res r))).

Definition _split_proportion (eng : Engine) (ent : Entropy) (self : t)
    (log : Log) : result (Log * Log) :=
  test_users <- _get_test_users eng ent self log ;;
  let res := with_frac log (ranked eng ent self log test_users) in
  let f := num_val (item_test_size self) in
  let train := map (fun r => base (UserSplitter.res r))
                   (Sql.where_ (proportion_train f) res) in
  let test := map (fun r => base (UserSplitter.res r))
                  (Sql.where_ (proportion_test f) res) in
  Ok (train, test).

Definition quantity_train (n : Q) (r : Res) : Sql.cond :=
  Sql.or3 (Sql.gt (Some (inject_Z (row_num r))) n) (Sql.is_null (test_user r)).

Definition quantity_test (n : Q) (r : Res) : Sql.cond :=
  Sql.and3 (Sql.le (Some (inject_Z (row_num r))) n)
           (Sql.is_not_null (test_user r)).

Definition _split_quantity (eng : Engine) (ent : Entropy) (self : t)
    (log : Log) : result (Log * Log) :=
  test_users <- _get_test_users eng ent self log ;;
  let res := ranked eng ent self log test_users in
  let n := num_val (item_test_size self) in
  let train := map base (Sql.where_ (quantity_train n) res) in
  let test := map base (Sql.where_ (quantity_test n) res) in
  Ok (train, test).

Definition _core_split (eng : Engine) (ent : Entropy) (self : t)
    (log : Log) : result (Log * Log) :=
  if Py.le (PyInt 0) (item_test_size self)
     && Py.lt (item_test_size self) (PyFloat 1)
  then _split_proportion eng ent self log
  else if Py.le (PyInt 1) (item_test_size self)
          && isinstance_int (item_test_size self)
  then _split_quantity eng ent self log
  else Raise (ValueError item_test_size_param (item_test_size self)).

End UserSplitter.

(** ** Double precision *)

Module Double.

Definition pow2 (e : Z) : Q := Qpower 2 e.

(** The [e] with [2^e <= x < 2^(e+1)], for [x > 0]. *)
Definition exponent (x : Q) : Z :=
  let e0 := Z.log2 (Qnum x) - Z.log2 (Zpos (Qden x)) in
  if Qle_bool (pow2 e0) x then e0 else e0 - 1.

(** The nearest integer, the even one of two that are equally near. *)
Definition rne (q : Q) : Z :=
  let n := Qfloor q in
  match Qcompare (q - inject_Z n) (1 # 2) with
  | Lt => n
  | Gt => n + 1
  | Eq => if Z.even n then n else n + 1
  end.

(** The spacing of the doubles around [x > 0]: 53 significant bits, and
    the spacing of the subnormals below [2^-1022]. *)
Definition ulp (x : Q) : Q := pow2 (Z.max (exponent x) (-1022) - 52).

Definition round_pos (x : Q) : Q := (inject_Z (rne (x / ulp x)) * ulp x)%Q.

(** The double nearest to [x]. *)
Definition round (x : Q) : Q :=
  Qred match Qcompare x 0 with
       | Eq => 0
       | Gt => round_pos x
       | Lt => - round_pos (- x)
       end.

End Double.

(** ** [UserSplitter] with rounded arithmetic *)

Module Rounded.

Section Arithmetic.

(** The rounding of the result of an operation, and of an integer turned
    into a double. *)
Variable fl : Q -> Q.

(** [a / b] on integer columns: Spark casts both to double and divides
    there; NULL when an operand is NULL or the divisor is zero. *)
Definition div (a : Z) (b : option Z) : option Q :=
  match b with
  | Some d =>
      let y := fl (inject_Z d) in
      if Qeq_bool y 0 then None else Some (fl (fl (inject_Z a) / y))
  | None => None
  end.

(** [all_users.count() * self.user_test_size] is an [int] times a
    [float]: Python turns the [int] into a float and multiplies there. *)
Definition test_user_count (uts : PyNum) (user_count : Z) : option PyNum :=
  match uts with
  | PyInt n =>
      if (1 <=? n) && (n <? user_count) then Some (PyInt n) else None
  | PyFloat q =>
      if Py.lt uts (PyInt 1) && Py.lt (PyInt 0) uts
      then Some (PyFloat (fl (fl (inject_Z user_count) * q)))
      else None
  end.

Definition _get_test_users (eng : Engine) (ent : Entropy)
    (self : UserSplitter.t) (log : Log) : result (list Z) :=
  let all_users := Sql.distinct (map user_id log) in
  let user_count := Z.of_nat (length all_users) in
  match UserSplitter.user_test_size self with
  | Some uts =>
      match test_user_count uts user_count with
      | None => Raise (ValueError user_test_size_param uts)
      | Some n =>
          let s := match UserSplitter.seed self with
                   | Some s => s
                   | None => users_seed ent
                   end in
          let with_rand :=
            map (fun x => (snd x, rand_at eng s (fst x))) (Sql.indexed all_users) in
          let numbered :=
            Sql.row_number eng (fun _ => 0)
              (fun x y => Qle_bool (snd x) (snd y)) with_rand in
          Ok (map (fun x => fst (fst x))
                (filter (fun x => Qle_bool (inject_Z (snd x)) (num_val n))
                        numbered))
      end
  | None => Ok all_users
  end.

Definition with_frac (log : Log) (rs : list UserSplitter.Res)
    : list UserSplitter.ResFrac :=
  map (fun x =>
         let c := option_map snd (snd x) in
         UserSplitter.mkResFrac (fst x) c (div (UserSplitter.row_num (fst x)) c))
      (Sql.left_join (fun r => user_id (UserSplitter.base r)) fst rs
         (Sql.group_count user_id log)).

(** The literal the filter string holds is the printed [item_test_size],
    which reads back as the same number. *)
Definition _split_proportion (eng : Engine) (ent : Entropy)
    (self : UserSplitter.t) (log : Log) : result (Log * Log) :=
  test_users <- _get_test_users eng ent self log ;;
  let res := with_frac log (UserSplitter.ranked eng ent self log test_users) in
  let f := num_val (UserSplitter.item_test_size self) in
  let train := map (fun r => UserSplitter.base (UserSplitter.res r))
                   (Sql.where_ (UserSplitter.proportion_train f) res) in
  let test := map (fun r => UserSplitter.base (UserSplitter.res r))
                  (Sql.where_ (UserSplitter.proportion_test f) res) in
  Ok (train, test).

Definition _split_quantity (eng : Engine) (ent : Entropy)
    (self : UserSplitter.t) (log : Log) : result (Log * Log) :=
  test_users <- _get_test_users eng ent self log ;;
  let res := UserSplitter.ranked eng ent self log test_users in
  let n := num_val (UserSplitter.item_test_size self) in
  let train := map UserSplitter.base
                   (Sql.where_ (UserSplitter.quantity_train n) res) in
  let test := map UserSplitter.base
                  (Sql.where_ (UserSplitter.quantity_test n) res) in
  Ok (train, test).

Definition _core_split (eng : Engine) (ent : Entropy)
    (self : UserSplitter.t) (log : Log) : result (Log * Log) :=
  if Py.le (PyInt 0) (UserSplitter.item_test_size self)
     && Py.lt (UserSplitter.item_test_size self) (PyFloat 1)
  then _split_proportion eng ent self log
  else if Py.le (PyInt 1) (UserSplitter.item_test_size self)
          && isinstance_int (UserSplitter.item_test_size self)
  then _split_quantity eng ent self log
  else Raise (ValueError item_test_size_param (UserSplitter.item_test_size self)).

End Arithmetic.

End Rounded.

(** ** [sponge_bob_magic.validation_schemes.user_log_splitter] *)

Module UserLogSplitter.

(** [test_size] is a Python [float]: a number, or [float('nan')].  The
    infinities order like numbers and are left out. *)
Inductive Float : Type :=
| Num (x : PyNum)
| NaN.

(** [a <= b] and [a < b] in Python: false as soon as an operand is [nan]. *)
Definition le (a b : Float) : bool :=
  match a, b with
  | Num x, Num y => Py.le x y
  | _, _ => false
  end.

Definition lt (a b : Float) : bool :=
  match a, b with
  | Num x, Num y => Py.lt x y
  | _, _ => false
  end.

(** [column > literal] and [column <= literal] in Spark, which orders NaN
    above every number. *)
Definition gt_lit (x : option Q) (y : Float) : Sql.cond :=
  match y with
  | Num n => Sql.gt x (num_val n)
  | NaN => option_map (fun _ => false) x
  end.

Definition le_lit (x : option Q) (y : Float) : Sql.cond :=
  match y with
  | Num n => Sql.le x (num_val n)
  | NaN => option_map (fun _ => true) x
  end.

Record t : Type := mk {
  test_size : Float;
  seed : Z
}.

(** [train, predict_input, test] *)
Definition Triple : Type := (Log * Log * Log)%type.

(** The two abstract methods of [UserLogSplitter]. *)
Class Methods : Type := {
  _split_proportion : t -> Log -> result Triple;
  _split_quantity : t -> Log -> result Triple
}.

(** What the right-hand side of a tuple assignment can evaluate to here:
    a bound method that was not called, or a tuple of dataframes. *)
Inductive PyObj : Type :=
| BoundMethod (f : Log -> result Triple)
| Tuple (items : list Log).

(** [a, b, c = o] *)
Definition unpack3 (o : PyObj) : result Triple :=
  match o with
  | BoundMethod _ => Raise TypeError_unpack_method
  | Tuple [a; b; c] => Ok (a, b, c)
  | Tuple _ => Raise ValueError_unpack_arity
  end.

(** How a call of [_core_split] ends: it returns, an error of the tuple
    assignment comes out of it, or it raises its own [ValueError], whose
    message shows [test_size]. *)
Inductive Outcome : Type :=
| Returns (r : Triple)
| Raises (e : Exn)
| Raises_ValueError (test_size : Float).

(** [train, train, test = o; return train, train, test]: [train] is bound
    twice, so the second component wins. *)
Definition assign_and_return (o : PyObj) : Outcome :=
  match unpack3 o with
  | Ok x => Returns (snd (fst x), snd (fst x), snd x)
  | Raise e => Raises e
  end.

Definition _core_split `{Methods} (self : t) (log : Log) : Outcome :=
  if le (Num (PyInt 0)) (test_size self) && le (test_size self) (Num (PyInt 1))
  then assign_and_return (BoundMethod (_split_proportion self))
  else if le (Num (PyInt 1)) (test_size self)
  then assign_and_return (BoundMethod (_split_quantity self))
  else Raises_ValueError (test_size self).

(** Rows with [rand] (absent in the time split) and [row_num]. *)
Record Res : Type := mkRes {
  base : Row;
  rand : option Q;
  row_num : Z
}.

Definition _add_random_partition (eng : Engine) (log : Log) (seed : Z)
    : list Res :=
  let with_rand :=
    map (fun x => (snd x, rand_at eng seed (fst x))) (Sql.indexed log) in
  map (fun x => mkRes (fst (fst x)) (Some (snd (fst x))) (snd x))
      (Sql.row_number eng (fun x => user_id (fst x))
         (fun x y => Qle_bool (snd x) (snd y)) with_rand).

Definition _add_time_partition (eng : Engine) (log : Log) : list Res :=
  map (fun x => mkRes (fst x) None (snd x))
      (Sql.row_number eng user_id
         (fun x y => timestamp y <=? timestamp x) log).

Definition by_quantity (self : t) (rs : list Res) : result Triple :=
  let n := test_size self in
  let train :=
    map base (Sql.where_ (fun r => gt_lit (Some (inject_Z (row_num r))) n) rs) in
  let test :=
    map base (Sql.where_ (fun r => le_lit (Some (inject_Z (row_num r))) n) rs) in
  Ok (train, train, test).

Definition by_proportion (self : t) (log : Log) (rs : list Res)
    : result Triple :=
  let f := test_size self in
  let res :=
    map (fun x => (fst x, Sql.div (row_num (fst x)) (option_map snd (snd x))))
        (Sql.left_join (fun r => user_id (base r)) fst rs
           (Sql.group_count user_id log)) in
  let train := map (fun x => base (fst x))
                   (Sql.where_ (fun x => gt_lit (snd x) f) res) in
  let test := map (fun x => base (fst x))
                  (Sql.where_ (fun x => le_lit (snd x) f) res) in
  Ok (train, train, test).

(** class [RandomUserLogSplitter] *)
Definition RandomUserLogSplitter (eng : Engine) : Methods := {|
  _split_proportion := fun self log =>
    by_proportion self log (_add_random_partition eng log (seed self));
  _split_quantity := fun self log =>
    by_quantity self (_add_random_partition eng log (seed self))
|}.

(** class [ByTimeUserLogSplitter] *)
Definition ByTimeUserLogSplitter (eng : Engine) : Methods := {|
  _split_proportion := fun self log =>
    by_proportion self log (_add_time_partition eng log);
  _split_quantity := fun self log =>
    by_quantity self (_add_time_partition eng log)
|}.

End UserLogSplitter.

(** ** [replay.splitters.user_log_splitter.k_folds] *)

Module KFolds.

(** [k_folds] is a generator.  [n_folds] is taken as an integer, and
    [convert2spark], which is defined outside this file, as keeping the
    rows of the log.

    What the generator does when it is run: it yields its folds, or
    raises the [ValueError] about [splitter] before the first one. *)
Inductive Outcome : Type :=
| Yields (folds : list (Log * Log))
| Raises_ValueError (splitter : option String.string).

(** [splitter not in {"user"}] *)
Definition not_in_user (splitter : option String.string) : bool :=
  match splitter with
  | Some s => negb (String.eqb s "user"%string)
  | None => true
  end.

(** [row_number % n_folds]: the remainder has the sign of the row number,
    and is NULL for a zero divisor. *)
Definition fold_of (n_folds : Z) (row_num : Z) : option Z :=
  if n_folds =? 0 then None else Some (Z.rem row_num n_folds).

(** The log with its column [fold]; [fresh] is the seed [rand(None)]
    picks. *)
Definition with_fold (eng : Engine) (fresh : Z) (log : Log) (n_folds : Z)
    (seed : option Z) : list (Row * option Z) :=
  let s := match seed with Some s => s | None => fresh end in
  let with_rand :=
    map (fun x => (snd x, rand_at eng s (fst x))) (Sql.indexed log) in
  map (fun x => (fst (fst x), fold_of n_folds (snd x)))
      (Sql.row_number eng (fun x => user_id (fst x))
         (fun x y => Qle_bool (snd x) (snd y)) with_rand).

(** [range(n)] *)
Definition range (n : Z) : list Z := map Z.of_nat (seq 0 (Z.to_nat n)).

Definition fold_ne (i : Z) (r : Row * option Z) : Sql.cond :=
  option_map (fun f => negb (f =? i)) (snd r).

Definition fold_eq (i : Z) (r : Row * option Z) : Sql.cond :=
  option_map (fun f => f =? i) (snd r).

Definition k_folds (eng : Engine) (fresh : Z) (log : Log) (n_folds : Z)
    (seed : option Z) (splitter : option String.string) : Outcome :=
  if not_in_user splitter then Raises_ValueError splitter
  else
    let dataframe := with_fold eng fresh log n_folds seed in
    Yields (map (fun i => (map fst (Sql.where_ (fold_ne i) dataframe),
                           map fst (Sql.where_ (fold_eq i) dataframe)))
                (range n_folds)).

End KFolds.

(** ** Notions the statements use *)

(** The number of rows of user [u] in the log. *)
Definition cnt (log : Log) (u : Z) : Z :=
  Z.of_nat (length (filter (fun r => user_id r =? u) log)).

(** The column [test_user] of a row of user [u]. *)
Definition test_user_of (tu : list Z) (u : Z) : option Z :=
  if in_dec Z.eq_dec u tu then Some 1 else None.

(** What the spec calls a valid [item_test_size]. *)
Definition item_test_size_valid (x : PyNum) : Prop :=
  (0 <= num_val x /\ num_val x < 1)%Q \/ (exists n, x = PyInt n /\ 1 <= n).

Definition user_count (log : Log) : Z :=
  Z.of_nat (length (Sql.distinct (map user_id log))).

(** What the spec calls an invalid [user_test_size]: a count below 1 or not
    below the number of users, or a fraction outside (0, 1). *)
Definition user_test_size_invalid (x : PyNum) (users : Z) : Prop :=
  match x with
  | PyInt n => n < 1 \/ users <= n
  | PyFloat q => ~ (0 < q /\ q < 1)%Q
  end.

(** ** Sample data: the log of the class docstring *)

Definition eng0 : Engine := mkEngine (fun _ i => inject_Z (Z.of_nat i)) (fun _ => 0).
Definition ent0 : Entropy := mkEntropy 0 0.

Definition doc_log : Log :=
  [ mkRow 1 1 1 1; mkRow 1 2 2 2; mkRow 1 3 3 3;
    mkRow 2 1 4 3; mkRow 2 2 5 2; mkRow 2 3 6 1 ].

Definition default_splitter : UserSplitter.t :=
  UserSplitter.mk (PyInt 1) None false false false None.

Definition doc_train : Log :=
  [ mkRow 1 2 2 2; mkRow 1 1 1 1; mkRow 2 2 5 2; mkRow 2 3 6 1 ].

Definition doc_test : Log := [ mkRow 1 3 3 3; mkRow 2 1 4 3 ].


Definition one_test_user : UserSplitter.t :=
  UserSplitter.mk (PyInt 2) (Some (PyInt 1)) true false false None.

Definition two_thirds : UserSplitter.t :=
  UserSplitter.mk (PyFloat (67 # 100)) None true false false None.

Definition seeded_shuffle : UserSplitter.t :=
  UserSplitter.mk (PyInt 1) (Some (PyInt 1)) true false false (Some 80083).


Definition bad_user_size : UserSplitter.t :=
  UserSplitter.mk (PyInt 1) (Some (PyFloat (12 # 10))) false false false None.

Definition two_items : UserSplitter.t :=
  UserSplitter.mk (PyInt 2) None false false false None.

Definition two_thirds_by_time : UserSplitter.t :=
  UserSplitter.mk (PyFloat (67 # 100)) None false false false None.

(** The frames a split returns on the docstring's log. *)
Definition doc_split (self : UserSplitter.t) : Log * Log :=
  match UserSplitter._core_split eng0 ent0 self doc_log with
  | Ok p => p
  | Raise _ => ([], [])
  end.

Definition seeded_one_item : UserSplitter.t :=
  UserSplitter.mk (PyInt 1) None true false false (Some 80083).

Definition seeded_two_items : UserSplitter.t :=
  UserSplitter.mk (PyInt 2) None true false false (Some 80083).

Definition doc_split_with (ent : Entropy) (self : UserSplitter.t) : Log * Log :=
  match UserSplitter._core_split eng0 ent self doc_log with
  | Ok p => p
  | Raise _ => ([], [])
  end.

(** The double nearest to one third, which Python prints as
    [0.3333333333333333]. *)
Definition third : Q := Double.round (1 # 3).

Definition third_by_time : UserSplitter.t :=
  UserSplitter.mk (PyFloat third) None false false false None.

Definition third_of_users : UserSplitter.t :=
  UserSplitter.mk (PyInt 1) (Some (PyFloat third)) false false false (Some 0).

Definition three_users : Log :=
  [ mkRow 1 1 1 1; mkRow 2 1 1 2; mkRow 3 1 1 3 ].

(** The frames a split returns on the docstring's log when it rounds as
    doubles do. *)
Definition doc_split_double (self : UserSplitter.t) : Log * Log :=
  match Rounded._core_split Double.round eng0 ent0 self doc_log with
  | Ok p => p
  | Raise _ => ([], [])
  end.

(** The two folds of the docstring's log. *)
Definition doc_folds : list (Log * Log) :=
  match KFolds.k_folds eng0 0 doc_log 2 None (Some "user"%string) with
  | KFolds.Yields folds => folds
  | KFolds.Raises_ValueError _ => []
  end.

Definition old_one_item : UserLogSplitter.t :=
  UserLogSplitter.mk (UserLogSplitter.Num (PyInt 1)) 0.

Definition old_nan : UserLogSplitter.t := UserLogSplitter.mk UserLogSplitter.NaN 0.

(** What [ByTimeUserLogSplitter._split_quantity] returns on the docstring's
    log. *)
Definition doc_old_by_time : UserLogSplitter.Triple :=
  match UserLogSplitter._split_quantity
          (Methods := UserLogSplitter.ByTimeUserLogSplitter eng0)
          old_one_item doc_log with
  | Ok p => p
  | Raise _ => ([], [], [])
  end.

(** * Properties *)

(** ** Lists, filters and permutations *)

Section ListFacts.

Context {A B : Type}.

Lemma filter_map_comm (f : A -> B) (p : B -> bool) (l : list A) :
  filter p (map f l) = map f (filter (fun a => p (f a)) l).
Proof.
  induction l as [|a l IH]; simpl; [reflexivity|].
  destruct (p (f a)); simpl; now rewrite IH.
Qed.

Lemma filter_filter_comm (p q : A -> bool) (l : list A) :
  filter p (filter q l) = filter q (filter p l).
Proof.
  induction l as [|a l IH]; simpl; [reflexivity|].
  destruct (p a) eqn:Hp, (q a) eqn:Hq; simpl;
    rewrite ?Hp, ?Hq, IH; reflexivity.
Qed.

Lemma filter_all (p : A -> bool) (l : list A) :
  (forall a, In a l -> p a = true) -> filter p l = l.
Proof.
  induction l as [|a l IH]; simpl; intros H; [reflexivity|].
  rewrite (H a (or_introl eq_refl)), IH; auto.
Qed.

Lemma filter_none (p : A -> bool) (l : list A) :
  (forall a, In a l -> p a = false) -> filter p l = [].
Proof.
  induction l as [|a l IH]; simpl; intros H; [reflexivity|].
  rewrite (H a (or_introl eq_refl)), IH; auto.
Qed.

Lemma filter_complement_perm (p q : A -> bool) (l : list A) :
  (forall a, In a l -> q a = negb (p a)) ->
  Permutation (filter p l ++ filter q l) l.
Proof.
  induction l as [|a l IH]; simpl; intros H; [constructor|].
  rewrite (H a (or_introl eq_refl)).
  destruct (p a); simpl.
  - constructor. apply IH. auto.
  - symmetry. apply Permutation_cons_app. symmetry. apply IH. auto.
Qed.

Lemma NoDup_map_filter (keep : A -> bool) (key : A -> B) (rows : list A) :
  NoDup (map key rows) -> NoDup (map key (filter keep rows)).
Proof.
  intros Hnd. induction rows as [|r rows IH]; [constructor|].
  cbn [map] in Hnd. apply NoDup_cons_iff in Hnd. destruct Hnd as [Hnin Hnd].
  cbn [filter]. destruct (keep r); [|now apply IH].
  cbn [map]. apply NoDup_cons_iff. split; [|now apply IH].
  intros Hin. apply Hnin.
  apply in_map_iff in Hin. destruct Hin as [y [Hy Hin]].
  apply filter_In in Hin. apply in_map_iff. exists y. tauto.
Qed.

Lemma flat_map_eq_in (f g : A -> list B) (l : list A) :
  (forall a, In a l -> f a = g a) -> flat_map f l = flat_map g l.
Proof.
  induction l as [|a l IH]; simpl; intros H; [reflexivity|].
  rewrite (H a (or_introl eq_refl)), IH; auto.
Qed.

Lemma map_flat_map {C} (f : B -> C) (g : A -> list B) (l : list A) :
  map f (flat_map g l) = flat_map (fun a => map f (g a)) l.
Proof.
  induction l as [|a l IH]; simpl; [reflexivity|].
  now rewrite map_app, IH.
Qed.

Lemma flat_map_perm (f g : A -> list B) (l : list A) :
  (forall a, In a l -> Permutation (f a) (g a)) ->
  Permutation (flat_map f l) (flat_map g l).
Proof.
  induction l as [|a l IH]; simpl; intros H; [constructor|].
  apply Permutation_app; auto.
Qed.

End ListFacts.

(** A list splits into its groups: one block per distinct key. *)
Lemma group_blocks_perm {A} (key : A -> Z) (ks : list Z) :
  NoDup ks ->
  forall df : list A,
    (forall a, In a df -> In (key a) ks) ->
    Permutation (flat_map (fun u => filter (fun a => key a =? u) df) ks) df.
Proof.
  induction 1 as [|u ks Hnin Hnd IH]; intros df Hall.
  - destruct df as [|a df]; [constructor|].
    destruct (Hall a (or_introl eq_refl)).
  - simpl.
    assert (Hrest :
      flat_map (fun v => filter (fun a => key a =? v) df) ks =
      flat_map (fun v => filter (fun a => key a =? v)
                           (filter (fun a => negb (key a =? u)) df)) ks).
    { apply flat_map_eq_in. intros v Hv.
      rewrite filter_filter_comm.
      symmetry. apply filter_all.
      intros a Ha. apply filter_In in Ha. destruct Ha as [_ Ha].
      apply Z.eqb_eq in Ha. apply negb_true_iff, Z.eqb_neq.
      intros E. apply Hnin. rewrite <- E, Ha. exact Hv. }
    rewrite Hrest.
    transitivity (filter (fun a => key a =? u) df
                  ++ filter (fun a => negb (key a =? u)) df).
    + apply Permutation_app_head. apply IH.
      intros a Ha. apply filter_In in Ha. destruct Ha as [Ha Hne].
      apply negb_true_iff, Z.eqb_neq in Hne.
      destruct (Hall a Ha) as [E|]; [congruence | assumption].
    + apply filter_complement_perm. reflexivity.
Qed.

Lemma distinct_NoDup (l : list Z) : NoDup (Sql.distinct l).
Proof. apply NoDup_nodup. Qed.

Lemma distinct_In (l : list Z) (x : Z) : In x (Sql.distinct l) <-> In x l.
Proof. apply nodup_In. Qed.

(** ** Sorting *)

Section Sorting.

Context {A : Type} (leb : A -> A -> bool).

Lemma insert_perm (a : A) (l : list A) :
  Permutation (Sql.insert leb a l) (a :: l).
Proof.
  induction l as [|b l IH]; simpl; [reflexivity|].
  destruct (leb a b); [reflexivity|].
  rewrite IH. apply perm_swap.
Qed.

Lemma sort_perm (l : list A) : Permutation (Sql.sort leb l) l.
Proof.
  induction l as [|a l IH]; simpl; [constructor|].
  rewrite insert_perm. now constructor.
Qed.

Hypothesis leb_total : forall a b, leb a b = true \/ leb b a = true.
Hypothesis leb_trans :
  forall a b c, leb a b = true -> leb b c = true -> leb a c = true.

Lemma insert_sorted (a : A) (l : list A) :
  StronglySorted (fun x y => leb x y = true) l ->
  StronglySorted (fun x y => leb x y = true) (Sql.insert leb a l).
Proof.
  induction 1 as [|b l Hs IH Hb]; simpl.
  - repeat constructor.
  - destruct (leb a b) eqn:Hab.
    + constructor; [constructor; assumption|].
      constructor; [assumption|].
      eapply Forall_impl; [|exact Hb].
      intros c Hc. eapply leb_trans; eassumption.
    + constructor; [assumption|].
      eapply Permutation_Forall; [symmetry; apply insert_perm|].
      constructor; [|assumption].
      destruct (leb_total a b); congruence.
Qed.

Lemma sort_sorted (l : list A) :
  StronglySorted (fun x y => leb x y = true) (Sql.sort leb l).
Proof.
  induction l as [|a l IH]; simpl; [constructor|].
  now apply insert_sorted.
Qed.

End Sorting.

(** ** Numbering, indexing and windows *)

Lemma number_from_fst {A} (l : list A) (n : Z) :
  map fst (Sql.number_from n l) = l.
Proof.
  revert n. induction l as [|a l IH]; intros n; simpl; [reflexivity|].
  now rewrite IH.
Qed.

Lemma number_from_length {A} (l : list A) (n : Z) :
  length (Sql.number_from n l) = length l.
Proof. rewrite <- (number_from_fst l n) at 2. now rewrite length_map. Qed.

Lemma number_from_map {A B} (f : A -> B) (l : list A) (n : Z) :
  Sql.number_from n (map f l) =
  map (fun x => (f (fst x), snd x)) (Sql.number_from n l).
Proof.
  revert n. induction l as [|a l IH]; intros n; simpl; [reflexivity|].
  now rewrite IH.
Qed.

Lemma number_from_lower {A} (l : list A) (n : Z) (x : A * Z) :
  In x (Sql.number_from n l) -> n <= snd x.
Proof.
  revert n. induction l as [|a l IH]; intros n; simpl; [tauto|].
  intros [<-|H]; simpl; [lia|]. apply IH in H. lia.
Qed.

(** Keeping the rows numbered at most [m] keeps a prefix. *)
Lemma number_from_filter_le {A} (p : A * Z -> bool) (m : Z) (l : list A) :
  forall n,
    (forall x, In x (Sql.number_from n l) -> p x = (snd x <=? m)) ->
    filter p (Sql.number_from n l) =
    firstn (Z.to_nat (m - n + 1)) (Sql.number_from n l).
Proof.
  induction l as [|a l IH]; intros n Hp; simpl.
  - now rewrite firstn_nil.
  - rewrite (Hp (a, n) (or_introl eq_refl)). simpl.
    destruct (n <=? m) eqn:Hnm.
    + apply Z.leb_le in Hnm.
      replace (Z.to_nat (m - n + 1)) with (S (Z.to_nat (m - (n + 1) + 1))) by lia.
      simpl. f_equal. apply IH. intros x Hx. apply Hp. now right.
    + apply Z.leb_gt in Hnm.
      replace (Z.to_nat (m - n + 1)) with 0%nat by lia.
      simpl. apply filter_none. intros x Hx.
      rewrite (Hp x (or_intror Hx)).
      apply number_from_lower in Hx. apply Z.leb_gt. lia.
Qed.

(** ... and the others are the matching suffix. *)
Lemma number_from_filter_gt {A} (p : A * Z -> bool) (m : Z) (l : list A) :
  forall n,
    (forall x, In x (Sql.number_from n l) -> p x = negb (snd x <=? m)) ->
    filter p (Sql.number_from n l) =
    skipn (Z.to_nat (m - n + 1)) (Sql.number_from n l).
Proof.
  induction l as [|a l IH]; intros n Hp; simpl.
  - now rewrite skipn_nil.
  - rewrite (Hp (a, n) (or_introl eq_refl)). simpl.
    destruct (n <=? m) eqn:Hnm; simpl.
    + apply Z.leb_le in Hnm.
      replace (Z.to_nat (m - n + 1)) with (S (Z.to_nat (m - (n + 1) + 1))) by lia.
      simpl. apply IH. intros x Hx. apply Hp. now right.
    + apply Z.leb_gt in Hnm.
      replace (Z.to_nat (m - n + 1)) with 0%nat by lia.
      simpl. f_equal. apply filter_all. intros x Hx.
      rewrite (Hp x (or_intror Hx)).
      apply number_from_lower in Hx. apply negb_true_iff, Z.leb_gt. lia.
Qed.

Lemma combine_seq_snd {A} (l : list A) (s : nat) :
  map snd (combine (seq s (length l)) l) = l.
Proof.
  revert s. induction l as [|a l IH]; intros s; simpl; [reflexivity|].
  now rewrite IH.
Qed.

Lemma indexed_snd {A} (l : list A) : map snd (Sql.indexed l) = l.
Proof. apply combine_seq_snd. Qed.

Lemma indexed_filter {A} (p : A -> bool) (l : list A) :
  map snd (filter (fun x => p (snd x)) (Sql.indexed l)) = filter p l.
Proof.
  rewrite <- (indexed_snd l) at 2. now rewrite filter_map_comm.
Qed.

Section Windows.

Context {A : Type} (eng : Engine) (part : A -> Z) (leb : A -> A -> bool).

Lemma partition_rows_perm (df : list A) (u : Z) :
  Permutation (Sql.partition_rows eng part leb df u)
              (filter (fun a => part a =? u) df).
Proof.
  unfold Sql.partition_rows.
  rewrite <- (indexed_filter (fun a => part a =? u) df).
  apply Permutation_map, sort_perm.
Qed.

Lemma partition_rows_part (df : list A) (u : Z) (a : A) :
  In a (Sql.partition_rows eng part leb df u) -> part a = u /\ In a df.
Proof.
  intros H.
  apply (Permutation_in _ (partition_rows_perm df u)) in H.
  apply filter_In in H. destruct H as [H E].
  apply Z.eqb_eq in E. tauto.
Qed.

(** The rows of one partition, as the window numbers them. *)
Lemma row_number_partition (df : list A) (u : Z) :
  filter (fun x => part (fst x) =? u) (Sql.row_number eng part leb df) =
  Sql.number_from 1 (Sql.partition_rows eng part leb df u).
Proof.
  unfold Sql.row_number.
  assert (Hblock : forall v p,
    In p (Sql.number_from 1 (Sql.partition_rows eng part leb df v)) ->
    part (fst p) = v).
  { intros v p Hp.
    apply (in_map fst) in Hp. rewrite number_from_fst in Hp.
    now apply partition_rows_part in Hp. }
  set (block := fun v =>
    Sql.number_from 1 (Sql.partition_rows eng part leb df v)) in *.
  assert (Hout : forall ks, ~ In u ks ->
    filter (fun x => part (fst x) =? u) (flat_map block ks) = []).
  { intros ks Hn. apply filter_none. intros p Hp.
    apply in_flat_map in Hp. destruct Hp as [v [Hv Hp]].
    apply Z.eqb_neq. rewrite (Hblock v p Hp). intros ->. contradiction. }
  assert (Hin : forall ks, NoDup ks -> In u ks ->
    filter (fun x => part (fst x) =? u) (flat_map block ks) = block u).
  { induction 1 as [|v ks Hnin Hnd IH]; intros Hu; [destruct Hu|].
    simpl flat_map. rewrite filter_app.
    destruct (Z.eq_dec v u) as [->|Hne].
    - rewrite (Hout ks Hnin), app_nil_r.
      apply filter_all. intros p Hp. apply Z.eqb_eq. eauto.
    - destruct Hu as [E|Hu]; [contradiction|].
      rewrite (IH Hu), filter_none; [reflexivity|].
      intros p Hp. apply Z.eqb_neq. rewrite (Hblock v p Hp). exact Hne. }
  destruct (in_dec Z.eq_dec u (Sql.distinct (map part df))) as [Hu|Hn];
    [apply Hin; [apply distinct_NoDup | exact Hu]|].
  rewrite (Hout _ Hn). unfold block.
  assert (E : Sql.partition_rows eng part leb df u = []).
  { destruct (Sql.partition_rows eng part leb df u) as [|a l] eqn:E;
      [reflexivity|].
    exfalso. apply Hn. apply distinct_In.
    assert (Ha : In a (Sql.partition_rows eng part leb df u))
      by (rewrite E; now left).
    apply partition_rows_part in Ha. destruct Ha as [<- Ha].
    now apply in_map. }
  now rewrite E.
Qed.

(** A window keeps every row, once. *)
Lemma row_number_perm (df : list A) :
  Permutation (map fst (Sql.row_number eng part leb df)) df.
Proof.
  unfold Sql.row_number.
  rewrite map_flat_map.
  rewrite (flat_map_eq_in _ (fun u => Sql.partition_rows eng part leb df u)).
  2:{ intros u _. apply number_from_fst. }
  rewrite (flat_map_perm _ (fun u => filter (fun a => part a =? u) df)).
  2:{ intros u _. apply partition_rows_perm. }
  apply group_blocks_perm; [apply distinct_NoDup|].
  intros a Ha. apply distinct_In. now apply in_map.
Qed.

End Windows.

(** A left join on a key that is unique on the right neither drops nor
    repeats a row of the left. *)
Lemma left_join_unique {A B} (ka : A -> Z) (kb : B -> Z)
    (l : list A) (r : list B) :
  NoDup (map kb r) ->
  Sql.left_join ka kb l r =
  map (fun a => (a, find (fun b => kb b =? ka a) r)) l.
Proof.
  intros Hnd. unfold Sql.left_join.
  assert (Hone : forall k,
    filter (fun b => kb b =? k) r =
    match find (fun b => kb b =? k) r with Some b => [b] | None => [] end).
  { intros k. induction r as [|b r IH]; simpl; [reflexivity|].
    inversion Hnd as [|x xs Hnin Hnd']; subst.
    destruct (kb b =? k) eqn:E.
    - f_equal. apply filter_none. intros c Hc.
      apply Z.eqb_neq. intros Ec. apply Z.eqb_eq in E.
      apply Hnin. rewrite E, <- Ec. now apply in_map.
    - now apply IH. }
  induction l as [|a l IH]; [reflexivity|].
  cbn [flat_map]. rewrite IH, Hone, map_cons.
  destruct (find (fun b => kb b =? ka a) r); reflexivity.
Qed.

(** ** Comparing a rank with a size *)

Lemma Qle_bool_floor (z : Z) (q : Q) :
  Qle_bool (inject_Z z) q = (z <=? Qfloor q).
Proof.
  apply eq_true_iff_eq. rewrite Qle_bool_iff, Z.leb_le. split; intros H.
  - rewrite <- (Qfloor_Z z). now apply Qfloor_resp_le.
  - eapply Qle_trans; [|apply Qfloor_le].
    now rewrite <- Zle_Qle.
Qed.

Lemma Qle_bool_div (z k : Z) (f : Q) :
  0 < k ->
  Qle_bool (inject_Z z / inject_Z k) f = Qle_bool (inject_Z z) (inject_Z k * f).
Proof.
  intros Hk.
  assert (Hq : (inject_Z 0 < inject_Z k)%Q) by (now rewrite <- Zlt_Qlt).
  change (inject_Z 0) with 0%Q in Hq.
  apply eq_true_iff_eq. rewrite !Qle_bool_iff.
  rewrite <- (Qmult_le_r _ _ _ Hq).
  assert (E : (inject_Z z / inject_Z k * inject_Z k == inject_Z z)%Q).
  { field. intros E. rewrite E in Hq. discriminate. }
  rewrite E, (Qmult_comm f). reflexivity.
Qed.

(** ** Rounding to a double *)

Lemma pow2_pos e : (0 < Double.pow2 e)%Q.
Proof. apply Qpower_0_lt. reflexivity. Qed.

Lemma pow2_le e e' : e <= e' -> (Double.pow2 e <= Double.pow2 e')%Q.
Proof. intros H. apply Qpower_le_compat_l; [exact H | discriminate]. Qed.

Lemma pow2_lt_inv e e' : (Double.pow2 e < Double.pow2 e')%Q -> e < e'.
Proof. intros H. apply (Qpower_lt_compat_l_inv 2); [exact H | reflexivity]. Qed.

Lemma pow2_add a b : (Double.pow2 (a + b) == Double.pow2 a * Double.pow2 b)%Q.
Proof. apply Qpower_plus. discriminate. Qed.

Lemma pow2_Z n : 0 <= n -> (Double.pow2 n == inject_Z (2 ^ n))%Q.
Proof. intros H. unfold Double.pow2. now rewrite Zpower_Qpower. Qed.

(** [2^(m - n)] as a quotient of integers *)
Lemma pow2_sub m n :
  0 <= m -> 0 <= n ->
  (Double.pow2 (m - n) == inject_Z (2 ^ m) / inject_Z (2 ^ n))%Q.
Proof.
  intros Hm Hn. unfold Z.sub. rewrite pow2_add.
  unfold Double.pow2 at 2. rewrite Qpower_opp.
  fold (Double.pow2 n). rewrite !pow2_Z by assumption. reflexivity.
Qed.

Lemma quotient_lt (a b c d : Z) :
  0 < b -> 0 < d -> a * d < c * b ->
  (inject_Z a / inject_Z b < inject_Z c / inject_Z d)%Q.
Proof.
  intros Hb Hd H.
  assert (Hb' : (0 < inject_Z b)%Q)
    by (change 0%Q with (inject_Z 0); now rewrite <- Zlt_Qlt).
  assert (Hd' : (0 < inject_Z d)%Q)
    by (change 0%Q with (inject_Z 0); now rewrite <- Zlt_Qlt).
  apply Qlt_shift_div_l; [exact Hd'|].
  assert (E : (inject_Z a / inject_Z b * inject_Z d ==
               inject_Z (a * d) / inject_Z b)%Q).
  { rewrite inject_Z_mult. field. intros E. rewrite E in Hb'. discriminate. }
  rewrite E. apply Qlt_shift_div_r; [exact Hb'|].
  rewrite <- inject_Z_mult, <- Zlt_Qlt. exact H.
Qed.

Lemma exponent_spec x :
  (0 < x)%Q ->
  (Double.pow2 (Double.exponent x) <= x)%Q
  /\ (x < Double.pow2 (Double.exponent x + 1))%Q.
Proof.
  intros Hx. destruct x as [a b].
  assert (Ha : 0 < a).
  { unfold Qlt in Hx. cbn in Hx. lia. }
  unfold Double.exponent. cbn [Qnum Qden].
  set (la := Z.log2 a). set (lb := Z.log2 (Z.pos b)).
  pose proof (Z.log2_nonneg a) as Hla. fold la in Hla.
  pose proof (Z.log2_nonneg (Z.pos b)) as Hlb. fold lb in Hlb.
  destruct (Z.log2_spec a Ha) as [La Ua]. fold la in La, Ua.
  destruct (Z.log2_spec (Z.pos b) ltac:(lia)) as [Lb Ub]. fold lb in Lb, Ub.
  assert (Pa : 0 < 2 ^ la) by (apply Z.pow_pos_nonneg; lia).
  assert (Pb : 0 < 2 ^ lb) by (apply Z.pow_pos_nonneg; lia).
  assert (Ex : (a # b == inject_Z a / inject_Z (Z.pos b))%Q) by apply Qmake_Qdiv.
  assert (Hup : (a # b < Double.pow2 (la - lb + 1))%Q).
  { replace (la - lb + 1) with (Z.succ la - lb) by lia.
    rewrite pow2_sub by lia. rewrite Ex.
    apply quotient_lt; [lia | lia | nia]. }
  assert (Hlo : (Double.pow2 (la - lb - 1) < a # b)%Q).
  { replace (la - lb - 1) with (la - Z.succ lb) by lia.
    rewrite pow2_sub by lia. rewrite Ex.
    apply quotient_lt; [apply Z.pow_pos_nonneg; lia | lia | nia]. }
  destruct (Qle_bool (Double.pow2 (la - lb)) (a # b)) eqn:E.
  - split; [now apply Qle_bool_iff | exact Hup].
  - split; [now apply Qlt_le_weak|].
    replace (la - lb - 1 + 1) with (la - lb) by lia.
    apply Qnot_le_lt. intros H. apply Qle_bool_iff in H. congruence.
Qed.

Lemma exponent_unique x e :
  (0 < x)%Q -> (Double.pow2 e <= x)%Q -> (x < Double.pow2 (e + 1))%Q ->
  Double.exponent x = e.
Proof.
  intros Hx Hlo Hup. destruct (exponent_spec x Hx) as [Slo Sup].
  assert (H1 : Double.exponent x < e + 1).
  { apply pow2_lt_inv. eapply Qle_lt_trans; eassumption. }
  assert (H2 : e < Double.exponent x + 1).
  { apply pow2_lt_inv. eapply Qle_lt_trans; eassumption. }
  lia.
Qed.

Lemma exponent_mono x y :
  (0 < x)%Q -> (x <= y)%Q -> Double.exponent x <= Double.exponent y.
Proof.
  intros Hx Hxy.
  destruct (exponent_spec x Hx) as [Slo _].
  destruct (exponent_spec y (Qlt_le_trans _ _ _ Hx Hxy)) as [_ Sup].
  assert (H : Double.exponent x < Double.exponent y + 1).
  { apply pow2_lt_inv. eapply Qle_lt_trans; [exact Slo|].
    eapply Qle_lt_trans; eassumption. }
  lia.
Qed.

Lemma exponent_proper x y :
  (0 < x)%Q -> (x == y)%Q -> Double.exponent x = Double.exponent y.
Proof.
  intros Hx E. symmetry.
  destruct (exponent_spec x Hx) as [Slo Sup].
  apply exponent_unique; rewrite <- E; assumption.
Qed.

(** Rounding to the nearest integer. *)

Lemma rne_bounds q : Qfloor q <= Double.rne q <= Qfloor q + 1.
Proof.
  unfold Double.rne.
  destruct (Qcompare _ _); [destruct (Z.even _)| |]; lia.
Qed.

Lemma rne_proper q q' : (q == q')%Q -> Double.rne q = Double.rne q'.
Proof.
  intros E. unfold Double.rne. rewrite (Qfloor_comp _ _ E).
  assert (Ec : (q - inject_Z (Qfloor q') == q' - inject_Z (Qfloor q'))%Q)
    by (now rewrite E).
  now rewrite (Qcompare_comp _ _ Ec _ _ (Qeq_refl (1 # 2))).
Qed.

Lemma rne_Z n : Double.rne (inject_Z n) = n.
Proof.
  unfold Double.rne. rewrite Qfloor_Z.
  assert (E : (inject_Z n - inject_Z n ?= 1 # 2)%Q = Lt).
  { apply (proj1 (Qlt_alt _ _)). generalize (inject_Z n). intros z. lra. }
  now rewrite E.
Qed.

Lemma rne_mono q q' : (q <= q')%Q -> Double.rne q <= Double.rne q'.
Proof.
  intros H. pose proof (Qfloor_resp_le _ _ H) as Hf.
  pose proof (rne_bounds q) as Bq. pose proof (rne_bounds q') as Bq'.
  destruct (Z.eq_dec (Qfloor q) (Qfloor q')) as [E|E]; [|lia].
  unfold Double.rne. rewrite <- E.
  set (n := Qfloor q).
  destruct (Qcompare (q - inject_Z n) (1 # 2)) eqn:C;
    destruct (Qcompare (q' - inject_Z n) (1 # 2)) eqn:C';
    try (destruct (Z.even n)); try lia;
    try apply (proj2 (Qeq_alt _ _)) in C; try apply (proj2 (Qlt_alt _ _)) in C;
    try apply (proj2 (Qgt_alt _ _)) in C;
    try apply (proj2 (Qeq_alt _ _)) in C'; try apply (proj2 (Qlt_alt _ _)) in C';
    try apply (proj2 (Qgt_alt _ _)) in C';
    exfalso; clear - H C C'; generalize dependent (inject_Z n); intros; lra.
Qed.

Lemma rne_ge (m : Z) q : (inject_Z m <= q)%Q -> m <= Double.rne q.
Proof. intros H. rewrite <- (rne_Z m). now apply rne_mono. Qed.

Lemma rne_le (m : Z) q : (q <= inject_Z m)%Q -> Double.rne q <= m.
Proof. intros H. rewrite <- (rne_Z m). now apply rne_mono. Qed.

(** Rounding a positive number *)

Lemma ulp_pos x : (0 < Double.ulp x)%Q.
Proof. apply pow2_pos. Qed.

Lemma Z_Q_pos n : 0 < n -> (0 < inject_Z n)%Q.
Proof. intros H. change 0%Q with (inject_Z 0). now rewrite <- Zlt_Qlt. Qed.

Lemma Z_Q_nonneg n : 0 <= n -> (0 <= inject_Z n)%Q.
Proof. intros H. change 0%Q with (inject_Z 0). now rewrite <- Zle_Qle. Qed.

Lemma round_pos_upper x :
  (0 < x)%Q ->
  (Double.round_pos x <= Double.pow2 (Z.max (Double.exponent x) (-1022) + 1))%Q.
Proof.
  intros Hx. unfold Double.round_pos, Double.ulp.
  set (E := Z.max (Double.exponent x) (-1022)).
  assert (Hp : (Double.pow2 (E + 1) == inject_Z (2 ^ 53) * Double.pow2 (E - 52))%Q).
  { rewrite <- (pow2_Z 53) by lia. rewrite <- pow2_add.
    now replace (53 + (E - 52)) with (E + 1) by lia. }
  rewrite Hp. apply Qmult_le_compat_r; [|apply Qlt_le_weak, pow2_pos].
  rewrite <- Zle_Qle. apply rne_le.
  apply Qle_shift_div_r; [apply pow2_pos|]. rewrite <- Hp.
  destruct (exponent_spec x Hx) as [_ Hup].
  apply Qlt_le_weak. eapply Qlt_le_trans; [exact Hup|].
  apply pow2_le. lia.
Qed.

Lemma round_pos_lower x :
  (0 < x)%Q -> -1022 <= Double.exponent x ->
  (Double.pow2 (Double.exponent x) <= Double.round_pos x)%Q.
Proof.
  intros Hx He. unfold Double.round_pos, Double.ulp.
  rewrite Z.max_l by lia.
  set (e := Double.exponent x).
  assert (Hp : (Double.pow2 e == inject_Z (2 ^ 52) * Double.pow2 (e - 52))%Q).
  { rewrite <- (pow2_Z 52) by lia. rewrite <- pow2_add.
    now replace (52 + (e - 52)) with e by lia. }
  rewrite Hp at 1. apply Qmult_le_compat_r; [|apply Qlt_le_weak, pow2_pos].
  rewrite <- Zle_Qle. apply rne_ge.
  apply Qle_shift_div_l; [apply pow2_pos|]. rewrite <- Hp.
  exact (proj1 (exponent_spec x Hx)).
Qed.

Lemma round_pos_nonneg x : (0 < x)%Q -> (0 <= Double.round_pos x)%Q.
Proof.
  intros Hx. unfold Double.round_pos.
  apply Qmult_le_0_compat; [|apply Qlt_le_weak, ulp_pos].
  apply Z_Q_nonneg. apply rne_ge.
  apply Qle_shift_div_l; [apply ulp_pos|].
  rewrite Qmult_0_l. now apply Qlt_le_weak.
Qed.

Lemma round_pos_mono x y :
  (0 < x)%Q -> (x <= y)%Q -> (Double.round_pos x <= Double.round_pos y)%Q.
Proof.
  intros Hx Hxy.
  assert (Hy : (0 < y)%Q) by (eapply Qlt_le_trans; eassumption).
  pose proof (exponent_mono x y Hx Hxy) as He.
  destruct (Z.eq_dec (Z.max (Double.exponent x) (-1022))
                     (Z.max (Double.exponent y) (-1022))) as [E|E].
  - unfold Double.round_pos, Double.ulp. rewrite <- E.
    set (u := Double.pow2 _).
    assert (Hu : (0 < u)%Q) by apply pow2_pos.
    apply Qmult_le_compat_r; [|now apply Qlt_le_weak].
    rewrite <- Zle_Qle. apply rne_mono.
    apply Qmult_le_compat_r; [exact Hxy|].
    apply Qinv_le_0_compat. now apply Qlt_le_weak.
  - eapply Qle_trans; [apply round_pos_upper; exact Hx|].
    eapply Qle_trans; [|apply round_pos_lower; [exact Hy | lia]].
    apply pow2_le. lia.
Qed.

Lemma round_pos_proper x y :
  (0 < x)%Q -> (x == y)%Q -> (Double.round_pos x == Double.round_pos y)%Q.
Proof.
  intros Hx E. unfold Double.round_pos, Double.ulp.
  rewrite <- (exponent_proper x y Hx E).
  set (u := Double.pow2 _).
  assert (Eq : (x / u == y / u)%Q) by (now rewrite E).
  now rewrite (rne_proper _ _ Eq).
Qed.

(** Rounding *)

Lemma round_proper x y : (x == y)%Q -> Double.round x = Double.round y.
Proof.
  intros E. unfold Double.round.
  rewrite (Qcompare_comp _ _ E _ _ (Qeq_refl 0)).
  destruct (Qcompare y 0) eqn:C; [reflexivity| |].
  - apply Qred_complete.
    apply (proj2 (Qlt_alt _ _)) in C.
    assert (Hx : (0 < - x)%Q) by (rewrite E; lra).
    assert (En : (- x == - y)%Q) by (now rewrite E).
    now rewrite (round_pos_proper _ _ Hx En).
  - apply Qred_complete.
    apply (proj2 (Qgt_alt _ _)) in C.
    apply round_pos_proper; [rewrite E; exact C | exact E].
Qed.

Lemma round_sign x :
  ((x < 0)%Q /\ (Double.round x == - Double.round_pos (- x))%Q)
  \/ ((x == 0)%Q /\ (Double.round x == 0)%Q)
  \/ ((0 < x)%Q /\ (Double.round x == Double.round_pos x)%Q).
Proof.
  unfold Double.round. rewrite Qred_correct.
  destruct (Qcompare x 0) eqn:C.
  - right. left. split; [now apply Qeq_alt | reflexivity].
  - left. split; [now apply Qlt_alt | reflexivity].
  - right. right. split; [now apply (proj2 (Qgt_alt _ _)) | reflexivity].
Qed.

Lemma round_mono x y : (x <= y)%Q -> (Double.round x <= Double.round y)%Q.
Proof.
  intros H.
  destruct (round_sign x) as [[Sx Ex]|[[Sx Ex]|[Sx Ex]]];
    destruct (round_sign y) as [[Sy Ey]|[[Sy Ey]|[Sy Ey]]];
    rewrite Ex, Ey; try (exfalso; lra); try apply Qle_refl.
  - apply Qopp_le_compat. apply round_pos_mono; lra.
  - assert (Hn := round_pos_nonneg (- x) ltac:(lra)). lra.
  - assert (Hn := round_pos_nonneg (- x) ltac:(lra)).
    assert (Hp := round_pos_nonneg y Sy). lra.
  - now apply round_pos_nonneg.
  - now apply round_pos_mono.
Qed.

(** Integers below [2^53] are doubles. *)
Lemma round_int n :
  0 < n < 2 ^ 53 -> (Double.round (inject_Z n) == inject_Z n)%Q.
Proof.
  intros [Hlo Hhi].
  assert (Hn : (0 < inject_Z n)%Q) by now apply Z_Q_pos.
  destruct (round_sign (inject_Z n)) as [[S _]|[[S _]|[_ E]]];
    [exfalso; lra | exfalso; lra |].
  rewrite E. clear E.
  destruct (exponent_spec _ Hn) as [Slo Sup].
  set (e := Double.exponent (inject_Z n)) in *.
  assert (He : 0 <= e <= 52).
  { split.
    - assert (H : 0 < e + 1); [|lia].
      apply pow2_lt_inv. eapply Qle_lt_trans; [|exact Sup].
      change (Double.pow2 0) with 1%Q. change 1%Q with (inject_Z 1).
      rewrite <- Zle_Qle. lia.
    - assert (H : e < 53); [|lia].
      apply pow2_lt_inv. eapply Qle_lt_trans; [exact Slo|].
      rewrite pow2_Z by lia. now rewrite <- Zlt_Qlt. }
  unfold Double.round_pos, Double.ulp. fold e. rewrite Z.max_l by lia.
  assert (Hu : (Double.pow2 (52 - e) * Double.pow2 (e - 52) == 1)%Q).
  { rewrite <- pow2_add. now replace (52 - e + (e - 52)) with 0 by lia. }
  assert (Hup : (0 < Double.pow2 (e - 52))%Q) by apply pow2_pos.
  assert (Eq : (inject_Z n / Double.pow2 (e - 52) ==
                inject_Z (n * 2 ^ (52 - e)))%Q).
  { rewrite inject_Z_mult, <- pow2_Z by lia.
    apply Qmult_inj_r with (z := Double.pow2 (e - 52)); [lra|].
    rewrite <- Qmult_assoc, Hu. field. lra. }
  rewrite (rne_proper _ _ Eq), rne_Z.
  rewrite inject_Z_mult, <- pow2_Z by lia.
  rewrite <- Qmult_assoc, Hu. ring.
Qed.

Lemma round_1 : (Double.round 1 == 1)%Q.
Proof. apply (round_int 1). split; [lia | reflexivity]. Qed.

(** ** The test users *)

Lemma find_keyed {B} (c : Z -> B) (ks : list Z) (u : Z) :
  find (fun b => fst b =? u) (map (fun v => (v, c v)) ks) =
  if in_dec Z.eq_dec u ks then Some (u, c u) else None.
Proof.
  induction ks as [|v ks IH]; [reflexivity|].
  cbn [map find fst]. destruct (Z.eqb_spec v u) as [->|Hne].
  - destruct (in_dec Z.eq_dec u (u :: ks)) as [_|Hn]; [reflexivity|].
    exfalso. apply Hn. now left.
  - rewrite IH.
    destruct (in_dec Z.eq_dec u ks) as [Hin|Hn];
      destruct (in_dec Z.eq_dec u (v :: ks)) as [Hin'|Hn']; try reflexivity.
    + exfalso. apply Hn'. now right.
    + destruct Hin' as [E|Hin']; [congruence | contradiction].
Qed.

Lemma keyed_NoDup {B} (c : Z -> B) (ks : list Z) :
  NoDup ks -> NoDup (map fst (map (fun v => (v, c v)) ks)).
Proof. intros H. rewrite map_map. cbn [fst]. now rewrite map_id. Qed.

Lemma cnt_pos (log : Log) (u : Z) : In u (map user_id log) -> 0 < cnt log u.
Proof.
  intros H. apply in_map_iff in H. destruct H as [r [E Hr]].
  unfold cnt.
  assert (Hin : In r (filter (fun r => user_id r =? u) log)).
  { apply filter_In. split; [exact Hr | now apply Z.eqb_eq]. }
  destruct (filter (fun r => user_id r =? u) log); [destruct Hin|].
  simpl length. lia.
Qed.

Lemma get_test_users_sound eng ent self log tu :
  UserSplitter._get_test_users eng ent self log = Ok tu ->
  NoDup tu /\ forall u, In u tu -> In u (map user_id log).
Proof.
  unfold UserSplitter._get_test_users.
  destruct (UserSplitter.user_test_size self) as [uts|].
  2:{ intros E. injection E as <-. split; [apply distinct_NoDup|].
      intros u. apply distinct_In. }
  destruct (UserSplitter.test_user_count _ _) as [n|]; [|discriminate].
  intros E. injection E as <-.
  set (s := match UserSplitter.seed self with
            | Some s => s | None => users_seed ent end).
  set (all_users := Sql.distinct (map user_id log)).
  set (with_rand := map (fun x => (snd x, rand_at eng s (fst x)))
                        (Sql.indexed all_users)).
  set (numbered := Sql.row_number eng _ _ with_rand).
  assert (Hperm : Permutation (map (fun x => fst (fst x)) numbered) all_users).
  { rewrite <- (map_map fst fst).
    unfold numbered. rewrite row_number_perm.
    unfold with_rand. rewrite map_map. cbn [fst].
    now rewrite indexed_snd. }
  assert (Hnd : NoDup (map (fun x => fst (fst x)) numbered)).
  { eapply Permutation_NoDup; [symmetry; exact Hperm|].
    apply distinct_NoDup. }
  split.
  - now apply (NoDup_map_filter _ (fun x => fst (fst x))).
  - intros u Hu. apply in_map_iff in Hu. destruct Hu as [x [<- Hx]].
    apply filter_In in Hx. destruct Hx as [Hx _].
    apply (distinct_In (map user_id log)).
    apply (Permutation_in _ Hperm).
    apply in_map_iff. now exists x.
Qed.

Lemma join_test_users_eq (log : Log) (tu : list Z) :
  NoDup tu ->
  UserSplitter.join_test_users log tu =
  map (fun r => UserSplitter.mkJoined r (test_user_of tu (user_id r))) log.
Proof.
  intros Hnd. unfold UserSplitter.join_test_users.
  rewrite left_join_unique by now apply keyed_NoDup.
  rewrite map_map. apply map_ext. intros r. cbn [fst snd].
  rewrite find_keyed. unfold test_user_of.
  destruct (in_dec Z.eq_dec (user_id r) tu); reflexivity.
Qed.

Lemma with_frac_eq (log : Log) (rs : list UserSplitter.Res) :
  (forall r, In r rs -> In (user_id (UserSplitter.base r)) (map user_id log)) ->
  UserSplitter.with_frac log rs =
  map (fun r =>
         let k := cnt log (user_id (UserSplitter.base r)) in
         UserSplitter.mkResFrac r (Some k)
           (Some (inject_Z (UserSplitter.row_num r) / inject_Z k)%Q)) rs.
Proof.
  intros Hin. unfold UserSplitter.with_frac, Sql.group_count.
  rewrite left_join_unique by (apply keyed_NoDup, distinct_NoDup).
  rewrite map_map. apply map_ext_in. intros r Hr. cbn [fst snd].
  rewrite find_keyed.
  destruct (in_dec Z.eq_dec _ _) as [_|Hn].
  - cbn [option_map snd]. fold (cnt log (user_id (UserSplitter.base r))).
    unfold Sql.div.
    pose proof (cnt_pos log _ (Hin r Hr)) as Hpos.
    destruct (Z.eqb_spec (cnt log (user_id (UserSplitter.base r))) 0);
      [lia | reflexivity].
  - exfalso. apply Hn. apply distinct_In. auto.
Qed.

(** ** The window order *)

Section WindowOrder.

Context {A : Type} (eng : Engine) (leb : A -> A -> bool).
Hypothesis leb_total : forall a b, leb a b = true \/ leb b a = true.
Hypothesis leb_trans :
  forall a b c, leb a b = true -> leb b c = true -> leb a c = true.

Lemma window_leb_total (x y : nat * A) :
  Sql.window_leb eng leb x y = true \/ Sql.window_leb eng leb y x = true.
Proof.
  unfold Sql.window_leb.
  destruct (leb (snd x) (snd y)) eqn:Hxy, (leb (snd y) (snd x)) eqn:Hyx;
    simpl; auto.
  - rewrite !Z.leb_le. lia.
  - destruct (leb_total (snd x) (snd y)); congruence.
Qed.

Lemma window_leb_trans (x y z : nat * A) :
  Sql.window_leb eng leb x y = true ->
  Sql.window_leb eng leb y z = true ->
  Sql.window_leb eng leb x z = true.
Proof.
  unfold Sql.window_leb. rewrite !andb_true_iff, !orb_true_iff.
  rewrite !negb_true_iff, !Z.leb_le.
  intros [Hxy Txy] [Hyz Tyz].
  split; [eapply leb_trans; eassumption|].
  destruct (leb (snd z) (snd x)) eqn:Hzx; [right | now left].
  assert (Hyx : leb (snd y) (snd x) = true)
    by (eapply leb_trans; eassumption).
  assert (Hzy : leb (snd z) (snd y) = true)
    by (eapply leb_trans; eassumption).
  destruct Txy as [Txy|Txy]; [congruence|].
  destruct Tyz as [Tyz|Tyz]; [congruence|]. lia.
Qed.

(** Each partition comes out in the [orderBy] order. *)
Lemma partition_rows_sorted (part : A -> Z) (df : list A) (u : Z) :
  StronglySorted (fun a b => leb a b = true)
                 (Sql.partition_rows eng part leb df u).
Proof.
  unfold Sql.partition_rows.
  pose proof (sort_sorted (Sql.window_leb eng leb)
                window_leb_total window_leb_trans
                (filter (fun x => part (snd x) =? u) (Sql.indexed df))) as Hs.
  induction Hs as [|x l Hs IH Hx]; simpl; constructor; [assumption|].
  apply Forall_map. eapply Forall_impl; [|exact Hx].
  intros y Hy. unfold Sql.window_leb in Hy.
  now apply andb_true_iff in Hy.
Qed.

End WindowOrder.

Lemma StronglySorted_map {A B} (R : B -> B -> Prop) (f : A -> B) (l : list A) :
  StronglySorted (fun a b => R (f a) (f b)) l -> StronglySorted R (map f l).
Proof.
  induction 1 as [|a l Hs IH Ha]; simpl; constructor; [assumption|].
  now apply Forall_map.
Qed.

Lemma StronglySorted_weaken {A} (R R' : A -> A -> Prop) (l : list A) :
  (forall a b, R a b -> R' a b) -> StronglySorted R l -> StronglySorted R' l.
Proof.
  intros Himp. induction 1 as [|a l Hs IH Ha]; constructor; [assumption|].
  eapply Forall_impl; [|exact Ha]. intros b. apply Himp.
Qed.

(** ** The ranked frame, user by user *)

Lemma ranked_user eng ent self log tu u :
  NoDup tu ->
  exists blk : list (Row * option Q),
    Permutation (map fst blk) (filter (fun r => user_id r =? u) log)
    /\ (UserSplitter.shuffle self = false ->
        StronglySorted (fun a b => timestamp b <= timestamp a) (map fst blk))
    /\ filter (fun r => user_id (UserSplitter.base r) =? u)
              (UserSplitter.ranked eng ent self log tu) =
       map (fun x => UserSplitter.mkRes (fst (fst x)) (test_user_of tu u)
                       (snd (fst x)) (snd x))
           (Sql.number_from 1 blk).
Proof.
  intros Hnd. unfold UserSplitter.ranked.
  rewrite join_test_users_eq by assumption.
  set (joined := map (fun r => UserSplitter.mkJoined r
                                 (test_user_of tu (user_id r))) log).
  assert (Hbase : map UserSplitter.j_base joined = log).
  { unfold joined. rewrite map_map. cbn. apply map_id. }
  assert (Htag : forall j, In j joined ->
            user_id (UserSplitter.j_base j) = u ->
            UserSplitter.j_test_user j = test_user_of tu u).
  { intros j Hj. apply in_map_iff in Hj. destruct Hj as [r [<- _]].
    cbn. intros <-. reflexivity. }
  clearbody joined.
  destruct (UserSplitter.shuffle self).
  - unfold UserSplitter._add_random_partition.
    set (s := match UserSplitter.seed self with
              | Some s => s | None => rows_seed ent end).
    set (with_rand := map (fun x => (snd x, rand_at eng s (fst x)))
                          (Sql.indexed joined)).
    assert (Hfst : map fst with_rand = joined).
    { unfold with_rand. rewrite map_map. cbn [fst]. apply indexed_snd. }
    clearbody with_rand.
    set (part := fun x : UserSplitter.Joined * Q =>
                   user_id (UserSplitter.j_base (fst x))).
    set (leb := fun x y : UserSplitter.Joined * Q => Qle_bool (snd x) (snd y)).
    set (P := Sql.partition_rows eng part leb with_rand u).
    exists (map (fun p => (UserSplitter.j_base (fst p), Some (snd p))) P).
    split; [|split].
    + rewrite map_map. cbn [fst].
      unfold P. rewrite partition_rows_perm.
      rewrite <- Hbase, <- Hfst, map_map, filter_map_comm.
      reflexivity.
    + discriminate.
    + rewrite filter_map_comm.
      match goal with
      | |- map _ (filter ?p ?l) = _ =>
          change (filter p l) with (filter (fun x => part (fst x) =? u) l)
      end.
      rewrite row_number_partition.
      fold P. rewrite number_from_map, map_map. cbn [fst snd].
      apply map_ext_in. intros x Hx. f_equal.
      apply (in_map fst) in Hx. rewrite number_from_fst in Hx.
      apply partition_rows_part in Hx. destruct Hx as [Hu Hx].
      apply Htag; [|exact Hu].
      rewrite <- Hfst. now apply in_map.
  - unfold UserSplitter._add_time_partition.
    set (part := fun x : UserSplitter.Joined =>
                   user_id (UserSplitter.j_base x)).
    set (P := Sql.partition_rows eng part UserSplitter.time_desc joined u).
    exists (map (fun j => (UserSplitter.j_base j, None)) P).
    split; [|split].
    + rewrite map_map. cbn [fst].
      unfold P. rewrite partition_rows_perm.
      rewrite <- Hbase, filter_map_comm. reflexivity.
    + intros _. rewrite map_map. cbn [fst].
      apply StronglySorted_map.
      eapply StronglySorted_weaken; [|apply partition_rows_sorted].
      * intros a b Hab. unfold UserSplitter.time_desc in Hab.
        now apply Z.leb_le in Hab.
      * intros a b. unfold UserSplitter.time_desc. rewrite !Z.leb_le. lia.
      * intros a b c. unfold UserSplitter.time_desc. rewrite !Z.leb_le. lia.
    + rewrite filter_map_comm.
      match goal with
      | |- map _ (filter ?p ?l) = _ =>
          change (filter p l) with (filter (fun x => part (fst x) =? u) l)
      end.
      rewrite row_number_partition.
      fold P. rewrite number_from_map, map_map. cbn [fst snd].
      apply map_ext_in. intros x Hx. f_equal.
      apply (in_map fst) in Hx. rewrite number_from_fst in Hx.
      apply partition_rows_part in Hx. destruct Hx as [Hu Hx].
      now apply Htag.
Qed.

(** The ranked frame holds the rows of the log, each once. *)
Lemma ranked_perm eng ent self log tu :
  NoDup tu ->
  Permutation (map UserSplitter.base (UserSplitter.ranked eng ent self log tu))
              log.
Proof.
  intros Hnd. unfold UserSplitter.ranked.
  rewrite join_test_users_eq by assumption.
  set (joined := map (fun r => UserSplitter.mkJoined r
                                 (test_user_of tu (user_id r))) log).
  assert (Hbase : map UserSplitter.j_base joined = log).
  { unfold joined. rewrite map_map. cbn. apply map_id. }
  clearbody joined. rewrite <- Hbase.
  destruct (UserSplitter.shuffle self).
  - unfold UserSplitter._add_random_partition.
    rewrite map_map. cbn [UserSplitter.base].
    rewrite <- (map_map fst (fun x => UserSplitter.j_base (fst x))).
    rewrite row_number_perm, map_map. cbn [fst].
    rewrite <- (map_map snd UserSplitter.j_base).
    now rewrite indexed_snd.
  - unfold UserSplitter._add_time_partition.
    rewrite map_map. cbn [UserSplitter.base].
    rewrite <- (map_map fst UserSplitter.j_base).
    now rewrite row_number_perm.
Qed.

(** ** What each user gets *)

Lemma cut_test {X R} (proj : X -> R) (blk : list X) (p : X * Z -> bool) (m : Z) :
  (forall x, In x (Sql.number_from 1 blk) -> p x = (snd x <=? m)) ->
  map (fun x => proj (fst x)) (filter p (Sql.number_from 1 blk)) =
  firstn (Z.to_nat m) (map proj blk).
Proof.
  intros Hp. rewrite (number_from_filter_le p m blk 1 Hp).
  replace (m - 1 + 1) with m by lia.
  rewrite <- firstn_map, <- (map_map fst proj), number_from_fst.
  reflexivity.
Qed.

Lemma cut_train {X R} (proj : X -> R) (blk : list X) (p : X * Z -> bool) (m : Z) :
  (forall x, In x (Sql.number_from 1 blk) -> p x = negb (snd x <=? m)) ->
  map (fun x => proj (fst x)) (filter p (Sql.number_from 1 blk)) =
  skipn (Z.to_nat m) (map proj blk).
Proof.
  intros Hp. rewrite (number_from_filter_gt p m blk 1 Hp).
  replace (m - 1 + 1) with m by lia.
  rewrite <- skipn_map, <- (map_map fst proj), number_from_fst.
  reflexivity.
Qed.

Lemma keep_all {X R} (proj : X -> R) (blk : list X) (p : X * Z -> bool) :
  (forall x, In x (Sql.number_from 1 blk) -> p x = true) ->
  map (fun x => proj (fst x)) (filter p (Sql.number_from 1 blk)) = map proj blk.
Proof.
  intros Hp. rewrite filter_all by assumption.
  now rewrite <- (map_map fst proj), number_from_fst.
Qed.

Lemma split_quantity_user eng ent self log train test tu u :
  UserSplitter._split_quantity eng ent self log = Ok (train, test) ->
  UserSplitter._get_test_users eng ent self log = Ok tu ->
  exists blk : list Row,
    Permutation blk (filter (fun r => user_id r =? u) log)
    /\ (UserSplitter.shuffle self = false ->
        StronglySorted (fun a b => timestamp b <= timestamp a) blk)
    /\ filter (fun r => user_id r =? u) test =
       (if in_dec Z.eq_dec u tu
        then firstn (Z.to_nat (Qfloor (num_val (UserSplitter.item_test_size self)))) blk
        else [])
    /\ filter (fun r => user_id r =? u) train =
       (if in_dec Z.eq_dec u tu
        then skipn (Z.to_nat (Qfloor (num_val (UserSplitter.item_test_size self)))) blk
        else blk).
Proof.
  intros H Htu. unfold UserSplitter._split_quantity in H.
  rewrite Htu in H. cbn [Py.bind] in H. injection H as <- <-.
  destruct (get_test_users_sound _ _ _ _ _ Htu) as [Hnd _].
  destruct (ranked_user eng ent self log tu u Hnd) as [blk [Hperm [Hsort Hrows]]].
  exists (map fst blk). split; [exact Hperm|]. split; [exact Hsort|].
  unfold Sql.where_.
  split; rewrite filter_map_comm, filter_filter_comm; cbn beta;
    rewrite Hrows, filter_map_comm, map_map; cbn [UserSplitter.base];
    unfold test_user_of; destruct (in_dec Z.eq_dec u tu).
  - apply cut_test. intros x _.
    unfold UserSplitter.quantity_test. cbn.
    rewrite Qle_bool_floor. now destruct (snd x <=? _).
  - rewrite filter_none; [reflexivity|]. intros x _.
    unfold UserSplitter.quantity_test. cbn. now destruct (Qle_bool _ _).
  - apply cut_train. intros x _.
    unfold UserSplitter.quantity_train. cbn.
    rewrite Qle_bool_floor. now destruct (snd x <=? _).
  - apply keep_all. intros x _.
    unfold UserSplitter.quantity_train. cbn. now destruct (Qle_bool _ _).
Qed.

Lemma split_proportion_user eng ent self log train test tu u :
  UserSplitter._split_proportion eng ent self log = Ok (train, test) ->
  UserSplitter._get_test_users eng ent self log = Ok tu ->
  exists blk : list Row,
    Permutation blk (filter (fun r => user_id r =? u) log)
    /\ (UserSplitter.shuffle self = false ->
        StronglySorted (fun a b => timestamp b <= timestamp a) blk)
    /\ filter (fun r => user_id r =? u) test =
       (if in_dec Z.eq_dec u tu
        then firstn (Z.to_nat (Qfloor (inject_Z (Z.of_nat (length blk))
                                       * num_val (UserSplitter.item_test_size self))))
                    blk
        else [])
    /\ filter (fun r => user_id r =? u) train =
       (if in_dec Z.eq_dec u tu
        then skipn (Z.to_nat (Qfloor (inject_Z (Z.of_nat (length blk))
                                      * num_val (UserSplitter.item_test_size self))))
                   blk
        else blk).
Proof.
  intros H Htu. unfold UserSplitter._split_proportion in H.
  rewrite Htu in H. cbn [Py.bind] in H. injection H as <- <-.
  destruct (get_test_users_sound _ _ _ _ _ Htu) as [Hnd _].
  destruct (ranked_user eng ent self log tu u Hnd) as [blk [Hperm [Hsort Hrows]]].
  exists (map fst blk). split; [exact Hperm|]. split; [exact Hsort|].
  rewrite with_frac_eq.
  2:{ intros r Hr. apply in_map.
      apply (Permutation_in _ (ranked_perm eng ent self log tu Hnd)).
      now apply in_map. }
  assert (Hk : forall x, In x (Sql.number_from 1 blk) ->
            cnt log (user_id (fst (fst x))) = Z.of_nat (length (map fst blk))
            /\ 0 < Z.of_nat (length (map fst blk))).
  { intros x Hx. apply (in_map fst) in Hx. rewrite number_from_fst in Hx.
    apply (in_map fst) in Hx.
    pose proof (Permutation_in _ Hperm Hx) as Hin.
    apply filter_In in Hin. destruct Hin as [_ Hu]. apply Z.eqb_eq in Hu.
    rewrite Hu. unfold cnt. rewrite <- (Permutation_length Hperm).
    split; [reflexivity|].
    destruct (map fst blk); [destruct Hx | simpl length; lia]. }
  set (f := num_val (UserSplitter.item_test_size self)) in *.
  unfold Sql.where_.
  split; rewrite filter_map_comm, filter_filter_comm; cbn beta;
    rewrite filter_map_comm; cbn [UserSplitter.res UserSplitter.base];
    rewrite Hrows, map_map, filter_map_comm, map_map;
    cbn [UserSplitter.res UserSplitter.base UserSplitter.row_num];
    unfold test_user_of; destruct (in_dec Z.eq_dec u tu).
  - apply cut_test. intros x Hx. destruct (Hk x Hx) as [-> Hpos].
    unfold UserSplitter.proportion_test. cbn.
    rewrite Qle_bool_div, Qle_bool_floor by assumption.
    now destruct (snd x <=? _).
  - rewrite filter_none; [reflexivity|]. intros x _.
    unfold UserSplitter.proportion_test. cbn. now destruct (Qle_bool _ _).
  - apply cut_train. intros x Hx. destruct (Hk x Hx) as [-> Hpos].
    unfold UserSplitter.proportion_train. cbn.
    rewrite Qle_bool_div, Qle_bool_floor by assumption.
    now destruct (snd x <=? _).
  - apply keep_all. intros x _.
    unfold UserSplitter.proportion_train. cbn. now destruct (Qle_bool _ _).
Qed.

(** ** Parameter checks *)

Lemma py_lt_iff (a b : PyNum) : Py.lt a b = true <-> (num_val a < num_val b)%Q.
Proof.
  unfold Py.lt. rewrite negb_true_iff, <- not_true_iff_false, Qle_bool_iff.
  split; [apply Qnot_le_lt | apply Qlt_not_le].
Qed.

Lemma py_le_iff (a b : PyNum) : Py.le a b = true <-> (num_val a <= num_val b)%Q.
Proof. apply Qle_bool_iff. Qed.

Lemma fraction_mode_iff (x : PyNum) :
  Py.le (PyInt 0) x && Py.lt x (PyFloat 1) = true <->
  (0 <= num_val x /\ num_val x < 1)%Q.
Proof. rewrite andb_true_iff, py_le_iff, py_lt_iff. reflexivity. Qed.

Lemma count_mode_iff (x : PyNum) :
  Py.le (PyInt 1) x && isinstance_int x = true <->
  exists n, x = PyInt n /\ 1 <= n.
Proof.
  rewrite andb_true_iff, py_le_iff. destruct x as [n|q]; cbn.
  - change 1%Q with (inject_Z 1). rewrite <- Zle_Qle. split.
    + intros [H _]. now exists n.
    + intros [m [E H]]. injection E as ->. now split.
  - split; [intros [_ H]; discriminate | intros [m [E _]]; discriminate].
Qed.

Lemma item_test_size_valid_iff (x : PyNum) :
  item_test_size_valid x <->
  Py.le (PyInt 0) x && Py.lt x (PyFloat 1) = true
  \/ Py.le (PyInt 1) x && isinstance_int x = true.
Proof.
  unfold item_test_size_valid. now rewrite fraction_mode_iff, count_mode_iff.
Qed.

Lemma test_user_count_none (uts : PyNum) (users : Z) :
  UserSplitter.test_user_count uts users = None <->
  user_test_size_invalid uts users.
Proof.
  destruct uts as [n|q]; cbn [UserSplitter.test_user_count user_test_size_invalid].
  - destruct (Z.leb_spec 1 n), (Z.ltb_spec n users); cbn;
      split; try discriminate; try lia; auto.
  - destruct (Py.lt (PyFloat q) (PyInt 1) && Py.lt (PyInt 0) (PyFloat q)) eqn:E.
    + apply andb_true_iff in E. rewrite !py_lt_iff in E. cbn in E.
      split; [discriminate|]. intros H. exfalso. apply H. tauto.
    + split; [|reflexivity]. intros _ [H0 H1].
      rewrite <- not_true_iff_false, andb_true_iff, !py_lt_iff in E.
      apply E. cbn. tauto.
Qed.

Lemma get_test_users_raises eng ent self log :
  (exists e, UserSplitter._get_test_users eng ent self log = Raise e) <->
  (exists uts, UserSplitter.user_test_size self = Some uts
               /\ user_test_size_invalid uts (user_count log)).
Proof.
  unfold UserSplitter._get_test_users. fold (user_count log).
  destruct (UserSplitter.user_test_size self) as [uts|].
  - destruct (UserSplitter.test_user_count uts (user_count log)) eqn:E.
    + split; [intros [e H]; discriminate|].
      intros [x [Hx Hinv]]. injection Hx as <-.
      apply test_user_count_none in Hinv. congruence.
    + split; [|intros _; eexists; reflexivity].
      intros _. exists uts. split; [reflexivity|].
      now apply test_user_count_none.
  - split; [intros [e H]; discriminate | intros [x [Hx _]]; discriminate].
Qed.

(** Either error of [_get_test_users] is its own [ValueError]. *)
Lemma get_test_users_error eng ent self log e :
  UserSplitter._get_test_users eng ent self log = Raise e ->
  exists uts, UserSplitter.user_test_size self = Some uts
              /\ e = ValueError user_test_size_param uts.
Proof.
  unfold UserSplitter._get_test_users.
  destruct (UserSplitter.user_test_size self) as [uts|]; [|discriminate].
  destruct (UserSplitter.test_user_count _ _); [discriminate|].
  intros E. injection E as <-. now exists uts.
Qed.

(** With valid sizes the split returns a pair of frames. *)
Lemma split_of_test_users eng ent self log :
  item_test_size_valid (UserSplitter.item_test_size self) ->
  match UserSplitter._get_test_users eng ent self log with
  | Ok _ => exists train test,
      UserSplitter._core_split eng ent self log = Ok (train, test)
  | Raise e => UserSplitter._core_split eng ent self log = Raise e
  end.
Proof.
  intros Hv. apply item_test_size_valid_iff in Hv.
  unfold UserSplitter._core_split, UserSplitter._split_proportion,
    UserSplitter._split_quantity.
  destruct (UserSplitter._get_test_users eng ent self log) as [tu|e];
    cbn [Py.bind].
  - destruct (Py.le (PyInt 0) _ && Py.lt _ (PyFloat 1)); [eauto|].
    destruct (Py.le (PyInt 1) _ && isinstance_int _); [eauto|].
    destruct Hv; discriminate.
  - destruct (Py.le (PyInt 0) _ && Py.lt _ (PyFloat 1)); [reflexivity|].
    destruct (Py.le (PyInt 1) _ && isinstance_int _); [reflexivity|].
    destruct Hv; discriminate.
Qed.

Lemma core_split_cases eng ent self log train test :
  UserSplitter._core_split eng ent self log = Ok (train, test) ->
  exists tu,
    UserSplitter._get_test_users eng ent self log = Ok tu
    /\ ((Py.le (PyInt 0) (UserSplitter.item_test_size self)
         && Py.lt (UserSplitter.item_test_size self) (PyFloat 1) = true
         /\ UserSplitter._split_proportion eng ent self log = Ok (train, test))
        \/ (Py.le (PyInt 0) (UserSplitter.item_test_size self)
            && Py.lt (UserSplitter.item_test_size self) (PyFloat 1) = false
            /\ Py.le (PyInt 1) (UserSplitter.item_test_size self)
               && isinstance_int (UserSplitter.item_test_size self) = true
            /\ UserSplitter._split_quantity eng ent self log = Ok (train, test))).
Proof.
  unfold UserSplitter._core_split.
  destruct (Py.le (PyInt 0) _ && Py.lt _ (PyFloat 1)) eqn:Ef.
  - intros H. unfold UserSplitter._split_proportion in H |- *.
    destruct (UserSplitter._get_test_users eng ent self log) as [tu|e];
      [|discriminate].
    exists tu. split; [reflexivity|]. left. now split.
  - destruct (Py.le (PyInt 1) _ && isinstance_int _) eqn:Ec; [|discriminate].
    intros H. unfold UserSplitter._split_quantity in H |- *.
    destruct (UserSplitter._get_test_users eng ent self log) as [tu|e];
      [|discriminate].
    exists tu. split; [reflexivity|]. right. now repeat split.
Qed.

(** ** Train and test partition the log *)

Lemma quantity_complement (n : Q) (r : UserSplitter.Res) :
  Sql.holds (UserSplitter.quantity_test n r) =
  negb (Sql.holds (UserSplitter.quantity_train n r)).
Proof.
  unfold UserSplitter.quantity_test, UserSplitter.quantity_train. cbn.
  destruct (Qle_bool _ _), (UserSplitter.test_user r); reflexivity.
Qed.

(** In SQL the two conditions of [_split_proportion] are complements only
    where [frac] is not NULL. *)
Lemma proportion_complement (f : Q) (r : UserSplitter.ResFrac) :
  UserSplitter.frac r <> None ->
  Sql.holds (UserSplitter.proportion_test f r) =
  negb (Sql.holds (UserSplitter.proportion_train f r)).
Proof.
  unfold UserSplitter.proportion_test, UserSplitter.proportion_train.
  destruct (UserSplitter.frac r) as [q|]; [intros _ | congruence]. cbn.
  destruct (Qle_bool _ _), (UserSplitter.test_user _); reflexivity.
Qed.

Lemma with_frac_not_null eng ent self log tu r :
  NoDup tu ->
  In r (UserSplitter.with_frac log (UserSplitter.ranked eng ent self log tu)) ->
  UserSplitter.frac r <> None.
Proof.
  intros Hnd. rewrite with_frac_eq.
  - intros Hr. apply in_map_iff in Hr. destruct Hr as [x [<- _]].
    cbn. discriminate.
  - intros x Hx. apply in_map.
    apply (Permutation_in _ (ranked_perm eng ent self log tu Hnd)).
    now apply in_map.
Qed.

Lemma with_frac_res (log : Log) (rs : list UserSplitter.Res) :
  (forall r, In r rs -> In (user_id (UserSplitter.base r)) (map user_id log)) ->
  map UserSplitter.res (UserSplitter.with_frac log rs) = rs.
Proof.
  intros H. rewrite (with_frac_eq log rs H), map_map. cbn. apply map_id.
Qed.

Lemma core_split_perm eng ent self log train test :
  UserSplitter._core_split eng ent self log = Ok (train, test) ->
  Permutation (train ++ test) log.
Proof.
  intros H. destruct (core_split_cases _ _ _ _ _ _ H) as [tu [Htu Hmode]].
  destruct (get_test_users_sound _ _ _ _ _ Htu) as [Hnd _].
  assert (Hin : forall r, In r (UserSplitter.ranked eng ent self log tu) ->
                  In (user_id (UserSplitter.base r)) (map user_id log)).
  { intros x Hx. apply in_map.
    apply (Permutation_in _ (ranked_perm eng ent self log tu Hnd)).
    now apply in_map. }
  destruct Hmode as [[_ Hs]|[_ [_ Hs]]].
  - unfold UserSplitter._split_proportion in Hs. rewrite Htu in Hs.
    cbn [Py.bind] in Hs. injection Hs as <- <-.
    rewrite <- map_app. unfold Sql.where_.
    rewrite (filter_complement_perm
               (fun r => Sql.holds (UserSplitter.proportion_train _ r))
               (fun r => Sql.holds (UserSplitter.proportion_test _ r))).
    + rewrite <- (map_map UserSplitter.res UserSplitter.base).
      rewrite (with_frac_res log _ Hin). now apply ranked_perm.
    + intros r Hr. apply proportion_complement.
      eapply with_frac_not_null; eassumption.
  - unfold UserSplitter._split_quantity in Hs. rewrite Htu in Hs.
    cbn [Py.bind] in Hs. injection Hs as <- <-.
    rewrite <- map_app. unfold Sql.where_.
    rewrite (filter_complement_perm
               (fun r => Sql.holds (UserSplitter.quantity_train _ r))
               (fun r => Sql.holds (UserSplitter.quantity_test _ r))).
    + now apply ranked_perm.
    + intros r _. apply quantity_complement.
Qed.

Lemma NoDup_app_disjoint {A} (l1 l2 : list A) (x : A) :
  NoDup (l1 ++ l2) -> In x l1 -> In x l2 -> False.
Proof.
  induction l1 as [|a l1 IH]; simpl; intros Hnd H1 H2; [assumption|].
  inversion Hnd as [|y ys Hnin Hnd']; subst.
  destruct H1 as [->|H1]; [|now apply IH].
  apply Hnin, in_or_app. now right.
Qed.

(** C1: whenever [_core_split] returns, train and test together hold the
    rows of the log, each occurrence in exactly one of them; in a log
    without repeated rows no row is in both; and on every row of the frame
    that is filtered the test condition is the negation of the train
    condition, in fractional and in count mode. *)
Theorem C1_train_test_partition eng ent self log train test :
  UserSplitter._core_split eng ent self log = Ok (train, test) ->
  Permutation (train ++ test) log
  /\ (NoDup log -> forall r, In r train -> In r test -> False)
  /\ (forall tu r,
        UserSplitter._get_test_users eng ent self log = Ok tu ->
        In r (UserSplitter.with_frac log
                (UserSplitter.ranked eng ent self log tu)) ->
        Sql.holds (UserSplitter.proportion_test
                     (num_val (UserSplitter.item_test_size self)) r) =
        negb (Sql.holds (UserSplitter.proportion_train
                           (num_val (UserSplitter.item_test_size self)) r)))
  /\ (forall r : UserSplitter.Res,
        Sql.holds (UserSplitter.quantity_test
                     (num_val (UserSplitter.item_test_size self)) r) =
        negb (Sql.holds (UserSplitter.quantity_train
                           (num_val (UserSplitter.item_test_size self)) r))).
Proof.
  intros H. pose proof (core_split_perm _ _ _ _ _ _ H) as Hperm.
  split; [exact Hperm|]. split; [|split].
  - intros Hnd r. apply NoDup_app_disjoint.
    eapply Permutation_NoDup; [symmetry; exact Hperm | exact Hnd].
  - intros tu r Htu Hr. apply proportion_complement.
    destruct (get_test_users_sound _ _ _ _ _ Htu) as [Hnd _].
    eapply with_frac_not_null; eassumption.
  - intros r. apply quantity_complement.
Qed.

(** ** The two sizing modes, user by user *)

Lemma count_mode_user eng ent self log train test tu u n :
  UserSplitter.item_test_size self = PyInt n ->
  1 <= n ->
  UserSplitter._core_split eng ent self log = Ok (train, test) ->
  UserSplitter._get_test_users eng ent self log = Ok tu ->
  exists blk : list Row,
    Permutation blk (filter (fun r => user_id r =? u) log)
    /\ (UserSplitter.shuffle self = false ->
        StronglySorted (fun a b => timestamp b <= timestamp a) blk)
    /\ filter (fun r => user_id r =? u) test =
       (if in_dec Z.eq_dec u tu then firstn (Z.to_nat n) blk else [])
    /\ filter (fun r => user_id r =? u) train =
       (if in_dec Z.eq_dec u tu then skipn (Z.to_nat n) blk else blk).
Proof.
  intros Hn Hge H Htu.
  destruct (core_split_cases _ _ _ _ _ _ H) as [tu' [Htu' Hmode]].
  rewrite Htu in Htu'. injection Htu' as <-.
  destruct Hmode as [[Hf _]|[_ [_ Hs]]].
  - exfalso. apply fraction_mode_iff in Hf. rewrite Hn in Hf. cbn in Hf.
    destruct Hf as [_ Hf]. change 1%Q with (inject_Z 1) in Hf.
    rewrite <- Zlt_Qlt in Hf. lia.
  - pose proof (split_quantity_user _ _ _ _ _ _ _ u Hs Htu) as Hu.
    rewrite Hn in Hu. cbn [num_val] in Hu. rewrite Qfloor_Z in Hu.
    exact Hu.
Qed.

Lemma fraction_mode_user eng ent self log train test tu u :
  (0 <= num_val (UserSplitter.item_test_size self)
   /\ num_val (UserSplitter.item_test_size self) < 1)%Q ->
  UserSplitter._core_split eng ent self log = Ok (train, test) ->
  UserSplitter._get_test_users eng ent self log = Ok tu ->
  exists blk : list Row,
    Permutation blk (filter (fun r => user_id r =? u) log)
    /\ (UserSplitter.shuffle self = false ->
        StronglySorted (fun a b => timestamp b <= timestamp a) blk)
    /\ filter (fun r => user_id r =? u) test =
       (if in_dec Z.eq_dec u tu
        then firstn (Z.to_nat (Qfloor (inject_Z (Z.of_nat (length blk))
                                       * num_val (UserSplitter.item_test_size self))))
                    blk
        else [])
    /\ filter (fun r => user_id r =? u) train =
       (if in_dec Z.eq_dec u tu
        then skipn (Z.to_nat (Qfloor (inject_Z (Z.of_nat (length blk))
                                      * num_val (UserSplitter.item_test_size self))))
                   blk
        else blk).
Proof.
  intros Hf H Htu.
  destruct (core_split_cases _ _ _ _ _ _ H) as [tu' [Htu' Hmode]].
  rewrite Htu in Htu'. injection Htu' as <-.
  destruct Hmode as [[_ Hs]|[Hnf _]].
  - exact (split_proportion_user _ _ _ _ _ _ _ u Hs Htu).
  - apply fraction_mode_iff in Hf. congruence.
Qed.

(** The share of [k] rows a fraction in [0, 1) selects. *)
Lemma floor_share (k : nat) (f : Q) :
  (0 <= f /\ f < 1)%Q ->
  0 <= Qfloor (inject_Z (Z.of_nat k) * f) <= Z.of_nat k
  /\ (k = 1%nat -> Qfloor (inject_Z (Z.of_nat k) * f) = 0).
Proof.
  intros [H0 H1].
  assert (Hk : (0 <= inject_Z (Z.of_nat k))%Q).
  { change 0%Q with (inject_Z 0). rewrite <- Zle_Qle. lia. }
  split; [split|].
  - change 0 with (Qfloor 0). apply Qfloor_resp_le.
    now apply Qmult_le_0_compat.
  - rewrite <- (Qfloor_Z (Z.of_nat k)) at 2. apply Qfloor_resp_le.
    rewrite <- (Qmult_1_r (inject_Z (Z.of_nat k))) at 2.
    rewrite !(Qmult_comm (inject_Z (Z.of_nat k))).
    apply Qmult_le_compat_r; [now apply Qlt_le_weak | exact Hk].
  - intros ->. cbn [Z.of_nat Pos.of_succ_nat].
    assert (E : (inject_Z 1 * f == f)%Q) by apply Qmult_1_l.
    rewrite E.
    assert (Hlo : 0 <= Qfloor f).
    { change 0 with (Qfloor 0). now apply Qfloor_resp_le. }
    assert (Hhi : Qfloor f < 1).
    { rewrite Zlt_Qlt. eapply Qle_lt_trans; [apply Qfloor_le | exact H1]. }
    lia.
Qed.

Lemma sorted_prefix_suffix {A} (R : A -> A -> Prop) (l : list A) (c : nat)
    (a b : A) :
  StronglySorted R l -> In a (firstn c l) -> In b (skipn c l) -> R a b.
Proof.
  intros Hs. revert c. induction Hs as [|x l Hs IH Hx]; intros c Ha Hb.
  - rewrite firstn_nil in Ha. destruct Ha.
  - destruct c as [|c]; [destruct Ha|]. simpl in Ha, Hb.
    destruct Ha as [<-|Ha]; [|eauto].
    rewrite Forall_forall in Hx. apply Hx.
    rewrite <- (firstn_skipn c l). apply in_or_app. now right.
Qed.

Lemma no_group_nil (l : Log) :
  (forall u, filter (fun r => user_id r =? u) l = []) -> l = [].
Proof.
  destruct l as [|r l]; [reflexivity|]. intros H.
  specialize (H (user_id r)). simpl in H. rewrite Z.eqb_refl in H.
  discriminate.
Qed.

(** ** The splitter in rounded arithmetic *)

Lemma number_from_upper {A} (l : list A) (n : Z) (x : A * Z) :
  In x (Sql.number_from n l) -> snd x < n + Z.of_nat (length l).
Proof.
  revert n. induction l as [|a l IH]; intros n; cbn [Sql.number_from length];
    [intros []|].
  intros [<-|H]; cbn [snd]; [lia|]. apply IH in H. lia.
Qed.

(** A test on ranks that a smaller rank passes whenever a larger one does
    is a bound on the rank. *)
Lemma prefix_cut (p : Z -> bool) (k : nat) :
  (forall r r', 1 <= r -> r <= r' -> r' <= Z.of_nat k ->
                p r' = true -> p r = true) ->
  exists m : nat,
    (m <= k)%nat
    /\ forall r, 1 <= r <= Z.of_nat k -> p r = (r <=? Z.of_nat m).
Proof.
  induction k as [|k IH]; intros Hdown.
  - exists 0%nat. split; [lia|]. intros r Hr. lia.
  - destruct IH as [m [Hm Hp]].
    { intros r r' H1 H2 H3. apply Hdown; lia. }
    destruct (p (Z.of_nat (S k))) eqn:E.
    + exists (S k). split; [lia|]. intros r Hr.
      rewrite (Hdown r (Z.of_nat (S k))) by (lia || exact E).
      symmetry. apply Z.leb_le. lia.
    + exists m. split; [lia|]. intros r Hr.
      destruct (Z.eq_dec r (Z.of_nat (S k))) as [->|Hne].
      * rewrite E. symmetry. apply Z.leb_gt. lia.
      * apply Hp. lia.
Qed.

Lemma rounded_get_test_users_sound fl eng ent self log tu :
  Rounded._get_test_users fl eng ent self log = Ok tu ->
  NoDup tu /\ forall u, In u tu -> In u (map user_id log).
Proof.
  unfold Rounded._get_test_users.
  destruct (UserSplitter.user_test_size self) as [uts|].
  2:{ intros E. injection E as <-. split; [apply distinct_NoDup|].
      intros u. apply distinct_In. }
  destruct (Rounded.test_user_count _ _ _) as [n|]; [|discriminate].
  intros E. injection E as <-.
  match goal with
  | |- context [Sql.row_number eng ?part ?leb ?df] =>
      set (numbered := Sql.row_number eng part leb df);
      assert (Hperm : Permutation (map (fun x => fst (fst x)) numbered)
                                  (Sql.distinct (map user_id log)))
  end.
  { rewrite <- (map_map fst fst). unfold numbered.
    rewrite row_number_perm, map_map. cbn [fst]. apply Permutation_refl'.
    apply indexed_snd. }
  assert (Hnd : NoDup (map (fun x => fst (fst x)) numbered)).
  { eapply Permutation_NoDup; [symmetry; exact Hperm | apply distinct_NoDup]. }
  split.
  - now apply (NoDup_map_filter _ (fun x => fst (fst x))).
  - intros u Hu. apply in_map_iff in Hu. destruct Hu as [x [<- Hx]].
    apply filter_In in Hx. destruct Hx as [Hx _].
    apply (distinct_In (map user_id log)), (Permutation_in _ Hperm).
    apply in_map_iff. now exists x.
Qed.

Lemma rounded_core_split_cases fl eng ent self log train test :
  Rounded._core_split fl eng ent self log = Ok (train, test) ->
  exists tu,
    Rounded._get_test_users fl eng ent self log = Ok tu
    /\ ((Py.le (PyInt 0) (UserSplitter.item_test_size self)
         && Py.lt (UserSplitter.item_test_size self) (PyFloat 1) = true
         /\ Rounded._split_proportion fl eng ent self log = Ok (train, test))
        \/ (Py.le (PyInt 0) (UserSplitter.item_test_size self)
            && Py.lt (UserSplitter.item_test_size self) (PyFloat 1) = false
            /\ Rounded._split_quantity fl eng ent self log = Ok (train, test))).
Proof.
  unfold Rounded._core_split.
  destruct (Py.le (PyInt 0) _ && Py.lt _ (PyFloat 1)) eqn:Ef.
  - intros H. unfold Rounded._split_proportion in H |- *.
    destruct (Rounded._get_test_users fl eng ent self log) as [tu|e];
      [|discriminate].
    exists tu. split; [reflexivity|]. left. now split.
  - destruct (Py.le (PyInt 1) _ && isinstance_int _) eqn:Ec; [|discriminate].
    intros H. unfold Rounded._split_quantity in H |- *.
    destruct (Rounded._get_test_users fl eng ent self log) as [tu|e];
      [|discriminate].
    exists tu. split; [reflexivity|]. right. now split.
Qed.

Section RoundedFacts.

Variable fl : Q -> Q.
Hypothesis fl_mono : forall x y, (x <= y)%Q -> (fl x <= fl y)%Q.
Hypothesis fl_one : (fl 1 == 1)%Q.

Lemma fl_eq (x y : Q) : (x == y)%Q -> (fl x == fl y)%Q.
Proof.
  intros E. apply Qle_antisym; apply fl_mono; rewrite E; apply Qle_refl.
Qed.

Lemma fl_count (z : Z) : 1 <= z -> (1 <= fl (inject_Z z))%Q.
Proof.
  intros H. rewrite <- fl_one. apply fl_mono.
  change 1%Q with (inject_Z 1). now rewrite <- Zle_Qle.
Qed.

(** The column [frac] of a row of rank [r] of a user with [k] rows. *)
Lemma rounded_div (r k : Z) :
  1 <= k ->
  Rounded.div fl r (Some k) =
  Some (fl (fl (inject_Z r) / fl (inject_Z k))).
Proof.
  intros Hk. unfold Rounded.div.
  destruct (Qeq_bool (fl (inject_Z k)) 0) eqn:E; [|reflexivity].
  apply Qeq_bool_iff in E. pose proof (fl_count k Hk) as H.
  rewrite E in H. exfalso. revert H. apply Qlt_not_le. reflexivity.
Qed.

Lemma share_mono (k r r' : Z) :
  1 <= k -> r <= r' ->
  (fl (fl (inject_Z r) / fl (inject_Z k))
   <= fl (fl (inject_Z r') / fl (inject_Z k)))%Q.
Proof.
  intros Hk Hr. apply fl_mono.
  apply Qmult_le_compat_r.
  - apply fl_mono. now rewrite <- Zle_Qle.
  - apply Qinv_le_0_compat. pose proof (fl_count k Hk). lra.
Qed.

(** The last rank has share 1. *)
Lemma share_full (k : Z) :
  1 <= k -> (fl (fl (inject_Z k) / fl (inject_Z k)) == 1)%Q.
Proof.
  intros Hk. eapply Qeq_trans; [|exact fl_one]. apply fl_eq.
  pose proof (fl_count k Hk). field. lra.
Qed.

(** Ranks whose exact share is at most [f] pass, when the counts and [f]
    are unchanged by rounding. *)
Lemma share_lower (k r : Z) (f : Q) :
  1 <= r <= k ->
  (forall z, 1 <= z <= k -> (fl (inject_Z z) == inject_Z z)%Q) ->
  (fl f == f)%Q ->
  r <= Qfloor (inject_Z k * f) ->
  (fl (fl (inject_Z r) / fl (inject_Z k)) <= f)%Q.
Proof.
  intros Hr Hex Hf Hle.
  eapply Qle_trans; [|apply Qle_lteq; right; exact Hf]. apply fl_mono.
  rewrite (Hex r) by lia. rewrite (Hex k) by lia.
  assert (Hk : (0 < inject_Z k)%Q) by (apply Z_Q_pos; lia).
  apply Qle_shift_div_r; [exact Hk|].
  rewrite Qmult_comm.
  eapply Qle_trans; [|apply Qfloor_le]. now rewrite <- Zle_Qle.
Qed.

Lemma rounded_with_frac_eq (log : Log) (rs : list UserSplitter.Res) :
  (forall r, In r rs -> In (user_id (UserSplitter.base r)) (map user_id log)) ->
  Rounded.with_frac fl log rs =
  map (fun r =>
         let k := cnt log (user_id (UserSplitter.base r)) in
         UserSplitter.mkResFrac r (Some k)
           (Some (fl (fl (inject_Z (UserSplitter.row_num r))
                      / fl (inject_Z k))))) rs.
Proof.
  intros Hin. unfold Rounded.with_frac, Sql.group_count.
  rewrite left_join_unique by (apply keyed_NoDup, distinct_NoDup).
  rewrite map_map. apply map_ext_in. intros r Hr. cbn [fst snd].
  rewrite find_keyed.
  destruct (in_dec Z.eq_dec _ _) as [_|Hn].
  - cbn [option_map snd]. fold (cnt log (user_id (UserSplitter.base r))).
    pose proof (cnt_pos log _ (Hin r Hr)) as Hpos.
    rewrite rounded_div by lia. reflexivity.
  - exfalso. apply Hn. apply distinct_In. auto.
Qed.

(** A row of the frame: its count, its share and its tag. *)
Lemma rounded_frame_row eng ent self log tu x :
  NoDup tu ->
  In x (Rounded.with_frac fl log (UserSplitter.ranked eng ent self log tu)) ->
  let u := user_id (UserSplitter.base (UserSplitter.res x)) in
  1 <= UserSplitter.row_num (UserSplitter.res x) <= cnt log u
  /\ UserSplitter.frac x =
     Some (fl (fl (inject_Z (UserSplitter.row_num (UserSplitter.res x)))
               / fl (inject_Z (cnt log u))))
  /\ UserSplitter.test_user (UserSplitter.res x) = test_user_of tu u.
Proof.
  intros Hnd.
  assert (Hin : forall r, In r (UserSplitter.ranked eng ent self log tu) ->
                  In (user_id (UserSplitter.base r)) (map user_id log)).
  { intros r Hr. apply in_map.
    apply (Permutation_in _ (ranked_perm eng ent self log tu Hnd)).
    now apply in_map. }
  rewrite (rounded_with_frac_eq log _ Hin).
  intros Hx. apply in_map_iff in Hx. destruct Hx as [r [<- Hr]].
  cbn [UserSplitter.res UserSplitter.frac]. cbv zeta.
  destruct (ranked_user eng ent self log tu
              (user_id (UserSplitter.base r)) Hnd) as [blk [Hperm [_ Hrows]]].
  assert (Hr' : In r (filter (fun r0 => user_id (UserSplitter.base r0)
                                       =? user_id (UserSplitter.base r))
                        (UserSplitter.ranked eng ent self log tu))).
  { apply filter_In. split; [exact Hr | apply Z.eqb_refl]. }
  rewrite Hrows in Hr'. apply in_map_iff in Hr'.
  destruct Hr' as [y [Ey Hy]].
  assert (Hlen : cnt log (user_id (UserSplitter.base r)) =
                 Z.of_nat (length blk)).
  { unfold cnt. rewrite <- (Permutation_length Hperm). now rewrite length_map. }
  split; [|split].
  - rewrite Hlen, <- Ey. cbn [UserSplitter.row_num].
    pose proof (number_from_lower _ _ _ Hy).
    pose proof (number_from_upper _ _ _ Hy). lia.
  - reflexivity.
  - apply (f_equal UserSplitter.test_user) in Ey. cbn in Ey.
    symmetry. exact Ey.
Qed.

Lemma rounded_split_proportion_user eng ent self log train test tu u :
  (num_val (UserSplitter.item_test_size self) < 1)%Q ->
  Rounded._split_proportion fl eng ent self log = Ok (train, test) ->
  Rounded._get_test_users fl eng ent self log = Ok tu ->
  exists (blk : list Row) (c : nat),
    Permutation blk (filter (fun r => user_id r =? u) log)
    /\ (UserSplitter.shuffle self = false ->
        StronglySorted (fun a b => timestamp b <= timestamp a) blk)
    /\ (c <= length blk)%nat
    /\ (blk <> [] -> c < length blk)%nat
    /\ (forall r, 1 <= r <= Z.of_nat (length blk) ->
          Qle_bool (fl (fl (inject_Z r)
                        / fl (inject_Z (Z.of_nat (length blk)))))
                   (num_val (UserSplitter.item_test_size self))
          = (r <=? Z.of_nat c))
    /\ filter (fun r => user_id r =? u) test =
       (if in_dec Z.eq_dec u tu then firstn c blk else [])
    /\ filter (fun r => user_id r =? u) train =
       (if in_dec Z.eq_dec u tu then skipn c blk else blk).
Proof.
  intros Hf H Htu. unfold Rounded._split_proportion in H.
  rewrite Htu in H. cbn [Py.bind] in H. injection H as <- <-.
  destruct (rounded_get_test_users_sound _ _ _ _ _ _ Htu) as [Hnd _].
  destruct (ranked_user eng ent self log tu u Hnd) as [blk [Hperm [Hsort Hrows]]].
  set (f := num_val (UserSplitter.item_test_size self)) in *.
  set (k := length (map fst blk)).
  set (p := fun r : Z =>
              Qle_bool (fl (fl (inject_Z r) / fl (inject_Z (Z.of_nat k)))) f).
  destruct (prefix_cut p k) as [c [Hc Hp]].
  { intros r r' H1 H2 H3. unfold p. rewrite !Qle_bool_iff. intros Hr'.
    eapply Qle_trans; [|exact Hr']. apply share_mono; lia. }
  assert (Hlast : (1 <= k)%nat -> (c < k)%nat).
  { intros Hk. destruct (Nat.eq_dec c k) as [E|E]; [|lia]. exfalso.
    assert (Hpk : p (Z.of_nat k) = true).
    { rewrite Hp by lia. apply Z.leb_le. lia. }
    unfold p in Hpk. apply Qle_bool_iff in Hpk.
    rewrite share_full in Hpk by lia. lra. }
  exists (map fst blk), c.
  split; [exact Hperm|]. split; [exact Hsort|]. split; [exact Hc|].
  split.
  { intros Hne. apply Hlast. fold k.
    destruct (map fst blk); [congruence | unfold k; simpl; lia]. }
  split; [exact Hp|].
  rewrite rounded_with_frac_eq.
  2:{ intros r Hr. apply in_map.
      apply (Permutation_in _ (ranked_perm eng ent self log tu Hnd)).
      now apply in_map. }
  assert (Hk : forall x, In x (Sql.number_from 1 blk) ->
            cnt log (user_id (fst (fst x))) = Z.of_nat k
            /\ 1 <= snd x <= Z.of_nat k).
  { intros x Hx.
    pose proof (number_from_lower _ _ _ Hx) as Hlo.
    pose proof (number_from_upper _ _ _ Hx) as Hhi.
    apply (in_map fst) in Hx. rewrite number_from_fst in Hx.
    apply (in_map fst) in Hx.
    pose proof (Permutation_in _ Hperm Hx) as Hin.
    apply filter_In in Hin. destruct Hin as [_ Hu]. apply Z.eqb_eq in Hu.
    rewrite Hu. unfold cnt. rewrite <- (Permutation_length Hperm).
    unfold k. rewrite length_map. split; [reflexivity | lia]. }
  unfold Sql.where_.
  split; rewrite filter_map_comm, filter_filter_comm; cbn beta;
    rewrite filter_map_comm; cbn [UserSplitter.res UserSplitter.base];
    rewrite Hrows, map_map, filter_map_comm, map_map;
    cbn [UserSplitter.res UserSplitter.base UserSplitter.row_num];
    unfold test_user_of; destruct (in_dec Z.eq_dec u tu).
  - rewrite <- (Nat2Z.id c). apply cut_test. intros x Hx.
    destruct (Hk x Hx) as [-> Hr].
    unfold UserSplitter.proportion_test. cbn.
    fold (p (snd x)). rewrite (Hp _ Hr). now destruct (snd x <=? _).
  - rewrite filter_none; [reflexivity|]. intros x _.
    unfold UserSplitter.proportion_test. cbn. now destruct (Qle_bool _ _).
  - rewrite <- (Nat2Z.id c). apply cut_train. intros x Hx.
    destruct (Hk x Hx) as [-> Hr].
    unfold UserSplitter.proportion_train. cbn.
    fold (p (snd x)). rewrite (Hp _ Hr). now destruct (snd x <=? _).
  - apply keep_all. intros x _.
    unfold UserSplitter.proportion_train. cbn. now destruct (Qle_bool _ _).
Qed.

End RoundedFacts.

(** ** The claims on what goes to test *)

(** C2: with [shuffle=False] and an integer [item_test_size = n >= 1], the
    test rows of a candidate test user are [min n k] of its [k] rows, the
    user's other rows are in train, and no row of the user left in train is
    more recent than one of its test rows: the test rows are the [n] most
    recent.  On the log where user 1 has items 1, 2, 3 at times 1, 2, 3 and
    [item_test_size = 1], test is item 3 and train is items 2 and 1. *)
Theorem C2_most_recent_to_test :
  (forall eng ent self log train test tu u n,
      UserSplitter.shuffle self = false ->
      UserSplitter.item_test_size self = PyInt n ->
      1 <= n ->
      UserSplitter._core_split eng ent self log = Ok (train, test) ->
      UserSplitter._get_test_users eng ent self log = Ok tu ->
      In u tu ->
      length (filter (fun r => user_id r =? u) test) =
        Nat.min (Z.to_nat n) (length (filter (fun r => user_id r =? u) log))
      /\ Permutation (filter (fun r => user_id r =? u) test
                      ++ filter (fun r => user_id r =? u) train)
                     (filter (fun r => user_id r =? u) log)
      /\ (forall t r,
            In t (filter (fun r => user_id r =? u) test) ->
            In r (filter (fun r => user_id r =? u) train) ->
            timestamp r <= timestamp t))
  /\ (forall eng ent dci dcu sd rel1 rel2 rel3,
        UserSplitter._core_split eng ent
          (UserSplitter.mk (PyInt 1) None false dci dcu sd)
          [mkRow 1 1 rel1 1; mkRow 1 2 rel2 2; mkRow 1 3 rel3 3] =
        Ok ([mkRow 1 2 rel2 2; mkRow 1 1 rel1 1], [mkRow 1 3 rel3 3])).
Proof.
  split.
  - intros eng ent self log train test tu u n Hsh Hn Hge H Htu Hu.
    destruct (count_mode_user _ _ _ _ _ _ _ u _ Hn Hge H Htu)
      as [blk [Hperm [Hsort [Htest Htrain]]]].
    destruct (in_dec Z.eq_dec u tu) as [_|Hno]; [|contradiction].
    rewrite Htest, Htrain. split; [|split].
    + rewrite length_firstn. now rewrite (Permutation_length Hperm).
    + now rewrite firstn_skipn.
    + intros t r Ht Hr.
      exact (sorted_prefix_suffix _ _ _ _ _ (Hsort Hsh) Ht Hr).
  - intros. reflexivity.
Qed.

(** The doubles nearest to 0.1, 0.29 and one third, as Python's
    [float.as_integer_ratio] gives them; ties go to the even neighbour;
    [3 * 0.3333333333333333] is [1.0]. *)
Example round_samples :
  Double.round (1 # 10) = 3602879701896397 # 36028797018963968
  /\ Double.round (29 # 100) = 5224175567749775 # 18014398509481984
  /\ third = 6004799503160661 # 18014398509481984
  /\ Double.round (inject_Z (2 ^ 53 + 1)) = inject_Z (2 ^ 53)
  /\ Double.round (inject_Z (2 ^ 53 + 3)) = inject_Z (2 ^ 53 + 4)
  /\ Double.round (3 * third) = 1%Q.
Proof. repeat split; vm_compute; reflexivity. Qed.

(** A user with 100 rows and [item_test_size=0.29]: rank 29 has the share
    [fl (29 / 100)], which is the size, and passes; rank 30 does not; and
    100 times the size is below 29. *)
Example share_of_hundred :
  let f := Double.round (29 # 100) in
  let share (r : Z) :=
    Double.round (Double.round (inject_Z r) / Double.round (inject_Z 100)) in
  Qle_bool (share 29) f = true
  /\ Qle_bool (share 30) f = false
  /\ Qfloor (inject_Z 100 * f) = 28.
Proof. repeat split; vm_compute; reflexivity. Qed.

(** Without rounding [Rounded] is [UserSplitter]. *)
Lemma rounded_exact eng ent self log :
  Rounded._core_split (fun x => x) eng ent self log =
  UserSplitter._core_split eng ent self log.
Proof.
  assert (Ed : forall a b, Rounded.div (fun x => x) a b = Sql.div a b).
  { intros a [d|]; [|reflexivity]. unfold Rounded.div, Sql.div.
    destruct (Z.eqb_spec d 0) as [->|Hne]; [reflexivity|].
    destruct (Qeq_bool (inject_Z d) 0) eqn:E; [|reflexivity].
    apply Qeq_bool_iff in E. exfalso. apply Hne.
    apply (proj1 (inject_Z_injective d 0)). exact E. }
  assert (Ef : forall rs, Rounded.with_frac (fun x => x) log rs =
                          UserSplitter.with_frac log rs).
  { intros rs. unfold Rounded.with_frac, UserSplitter.with_frac.
    apply map_ext. intros x. now rewrite Ed. }
  unfold Rounded._core_split, UserSplitter._core_split,
    Rounded._split_proportion, UserSplitter._split_proportion.
  change (Rounded._get_test_users (fun x => x) eng ent self log)
    with (UserSplitter._get_test_users eng ent self log).
  destruct (Py.le (PyInt 0) _ && Py.lt _ (PyFloat 1)); [|reflexivity].
  destruct (UserSplitter._get_test_users eng ent self log) as [tu|e];
    [|reflexivity].
  cbn [Py.bind]. now rewrite Ef.
Qed.

(** C3 as the claim states it fails: with a third as a double
    ([0.3333333333333333]) on the docstring's log, the most recent row of
    user 1 has rank 1 of 3 and is in test, its share [1/3] rounding to the
    size itself, although [1/3 <= f] is false and [floor (3 * f)] is 0. *)
Lemma C3_counterexample :
  (0 <= third /\ third < 1)%Q
  /\ Rounded._get_test_users Double.round eng0 ent0 third_by_time doc_log =
     Ok [1; 2]
  /\ Rounded._core_split Double.round eng0 ent0 third_by_time doc_log =
     Ok (doc_train, doc_test)
  /\ In (mkRow 1 3 3 3) doc_test
  /\ ~ (inject_Z 1 / inject_Z (cnt doc_log 1) <= third)%Q
  /\ Z.of_nat (length (filter (fun r => user_id r =? 1) doc_test)) <>
     Qfloor (inject_Z (cnt doc_log 1) * third).
Proof.
  split; [split|].
  - apply Qle_bool_iff. vm_compute. reflexivity.
  - apply (proj1 (Qlt_alt _ _)). vm_compute. reflexivity.
  - split; [vm_compute; reflexivity|].
    split; [vm_compute; reflexivity|].
    split; [now left|].
    split.
    + apply Qlt_not_le. apply (proj1 (Qlt_alt _ _)). vm_compute. reflexivity.
    + vm_compute. discriminate.
Qed.

(** C3, amended: in fractional mode ([0 <= f < 1]) the test frame is the
    filter of [_split_proportion] on the frame with [frac]; a row of a
    candidate test user with [k] rows passes exactly when its rank [r] has
    [fl (fl r / fl k) <= f], with [fl] the rounding to a double, and the
    ranks that pass are those up to the number [c] of test rows of the
    user.  [c] is less than [k], so a user with a single row has no row in
    test; and [c] is at least [floor (k * f)] when [f] is a double and
    [k < 2^53], but need not equal it. *)
Theorem C3_fraction_mode eng ent self log train test tu u :
  (0 <= num_val (UserSplitter.item_test_size self)
   /\ num_val (UserSplitter.item_test_size self) < 1)%Q ->
  Rounded._core_split Double.round eng ent self log = Ok (train, test) ->
  Rounded._get_test_users Double.round eng ent self log = Ok tu ->
  In u tu ->
  let f := num_val (UserSplitter.item_test_size self) in
  let k := cnt log u in
  let frame :=
    Rounded.with_frac Double.round log
      (UserSplitter.ranked eng ent self log tu) in
  let c := Z.of_nat (length (filter (fun r => user_id r =? u) test)) in
  test = map (fun x => UserSplitter.base (UserSplitter.res x))
             (Sql.where_ (UserSplitter.proportion_test f) frame)
  /\ (forall x,
        In x frame ->
        user_id (UserSplitter.base (UserSplitter.res x)) = u ->
        (Sql.holds (UserSplitter.proportion_test f x) = true <->
         (Double.round
            (Double.round (inject_Z (UserSplitter.row_num (UserSplitter.res x)))
             / Double.round (inject_Z k)) <= f)%Q)
        /\ (Sql.holds (UserSplitter.proportion_test f x) = true <->
            UserSplitter.row_num (UserSplitter.res x) <= c))
  /\ c < k
  /\ (k < 2 ^ 53 -> (Double.round f == f)%Q -> Qfloor (inject_Z k * f) <= c)
  /\ (k = 1 -> filter (fun r => user_id r =? u) test = []).
Proof.
  intros Hf H Htu Hu f k frame c.
  destruct (rounded_get_test_users_sound _ _ _ _ _ _ Htu) as [Hnd Hsub].
  destruct (rounded_core_split_cases _ _ _ _ _ _ _ H) as [tu' [Htu' Hmode]].
  rewrite Htu in Htu'. injection Htu' as <-.
  destruct Hmode as [[_ Hs]|[Hnf _]];
    [|apply fraction_mode_iff in Hf; congruence].
  destruct (rounded_split_proportion_user Double.round round_mono round_1
              _ _ _ _ _ _ _ u (proj2 Hf) Hs Htu)
    as [blk [c0 [Hperm [_ [Hc0 [Hlast [Hp [Htest _]]]]]]]].
  destruct (in_dec Z.eq_dec u tu) as [_|Hno]; [|contradiction].
  assert (Hlen : Z.of_nat (length blk) = k).
  { unfold k, cnt. now rewrite (Permutation_length Hperm). }
  assert (Hk : 1 <= k) by (pose proof (cnt_pos log u (Hsub u Hu)); lia).
  assert (Ec : c = Z.of_nat c0).
  { unfold c. rewrite Htest, length_firstn. lia. }
  assert (Hlt : (c0 < length blk)%nat).
  { apply Hlast. intros E. rewrite E in Hlen. cbn in Hlen. lia. }
  rewrite Hlen in Hp. fold f in Hp.
  split; [|split; [|split; [|split]]].
  - unfold Rounded._split_proportion in Hs. rewrite Htu in Hs.
    cbn [Py.bind] in Hs. now injection Hs as _ <-.
  - intros x Hx Hxu.
    destruct (rounded_frame_row Double.round round_mono round_1
                _ _ _ _ _ _ Hnd Hx) as [Hr [Hfrac Htag]].
    rewrite Hxu in Hr, Hfrac, Htag. fold k in Hr, Hfrac.
    assert (Eh : Sql.holds (UserSplitter.proportion_test f x) =
                 Qle_bool
                   (Double.round
                      (Double.round
                         (inject_Z (UserSplitter.row_num (UserSplitter.res x)))
                       / Double.round (inject_Z k))) f).
    { unfold UserSplitter.proportion_test. rewrite Hfrac, Htag.
      unfold test_user_of. destruct (in_dec Z.eq_dec u tu); [|contradiction].
      cbn. now destruct (Qle_bool _ _). }
    rewrite Eh. split; [apply Qle_bool_iff|].
    rewrite (Hp _ Hr), Ec. apply Z.leb_le.
  - lia.
  - intros Hsmall Hdbl.
    destruct (Z.le_gt_cases (Qfloor (inject_Z k * f)) 0) as [Hz|Hpos]; [lia|].
    assert (Hm : Qfloor (inject_Z k * f) <= k).
    { rewrite <- Hlen. apply (floor_share (length blk) f Hf). }
    assert (Hpass : (Double.round
                       (Double.round (inject_Z (Qfloor (inject_Z k * f)))
                        / Double.round (inject_Z k)) <= f)%Q).
    { apply (share_lower Double.round round_mono); [lia | | exact Hdbl | lia].
      intros z Hz. apply round_int. lia. }
    apply Qle_bool_iff in Hpass. rewrite Hp in Hpass by lia.
    apply Z.leb_le in Hpass. lia.
  - intros E. rewrite Htest.
    replace c0 with 0%nat by lia. reflexivity.
Qed.

(** C4: in count mode (an integer [item_test_size = n >= 1]) a candidate
    test user with [k] rows has [min n k] rows in test: exactly [n] when
    [n <= k], and all of its rows, none left in train, when [n > k]. *)
Theorem C4_count_mode eng ent self log train test tu u n :
  UserSplitter.item_test_size self = PyInt n ->
  1 <= n ->
  UserSplitter._core_split eng ent self log = Ok (train, test) ->
  UserSplitter._get_test_users eng ent self log = Ok tu ->
  In u tu ->
  (n <= cnt log u ->
   Z.of_nat (length (filter (fun r => user_id r =? u) test)) = n)
  /\ (cnt log u < n ->
      Permutation (filter (fun r => user_id r =? u) test)
                  (filter (fun r => user_id r =? u) log)
      /\ filter (fun r => user_id r =? u) train = []).
Proof.
  intros Hn Hge H Htu Hu.
  destruct (count_mode_user _ _ _ _ _ _ _ u _ Hn Hge H Htu)
    as [blk [Hperm [_ [Htest Htrain]]]].
  destruct (in_dec Z.eq_dec u tu) as [_|Hno]; [|contradiction].
  assert (Hlen : Z.of_nat (length blk) = cnt log u).
  { unfold cnt. now rewrite (Permutation_length Hperm). }
  rewrite Htest, Htrain. split.
  - intros Hle. rewrite length_firstn. lia.
  - intros Hlt. split.
    + rewrite firstn_all2 by lia. exact Hperm.
    + apply skipn_all2. lia.
Qed.

(** C7: a user outside the candidate test users has no row in test and all
    of its rows in train, in [_split_proportion] and in [_split_quantity];
    with [user_test_size] unset the candidates are the distinct users of the
    log. *)
Theorem C7_other_users_to_train :
  (forall eng ent self log train test tu u,
      UserSplitter._split_proportion eng ent self log = Ok (train, test) ->
      UserSplitter._get_test_users eng ent self log = Ok tu ->
      ~ In u tu ->
      filter (fun r => user_id r =? u) test = []
      /\ Permutation (filter (fun r => user_id r =? u) train)
                     (filter (fun r => user_id r =? u) log))
  /\ (forall eng ent self log train test tu u,
        UserSplitter._split_quantity eng ent self log = Ok (train, test) ->
        UserSplitter._get_test_users eng ent self log = Ok tu ->
        ~ In u tu ->
        filter (fun r => user_id r =? u) test = []
        /\ Permutation (filter (fun r => user_id r =? u) train)
                       (filter (fun r => user_id r =? u) log))
  /\ (forall eng ent self log,
        UserSplitter.user_test_size self = None ->
        UserSplitter._get_test_users eng ent self log =
        Ok (Sql.distinct (map user_id log))).
Proof.
  split; [|split].
  - intros eng ent self log train test tu u Hs Htu Hno.
    destruct (split_proportion_user _ _ _ _ _ _ _ u Hs Htu)
      as [blk [Hperm [_ [Htest Htrain]]]].
    destruct (in_dec Z.eq_dec u tu) as [Hin|_]; [contradiction|].
    rewrite Htest, Htrain. now split.
  - intros eng ent self log train test tu u Hs Htu Hno.
    destruct (split_quantity_user _ _ _ _ _ _ _ u Hs Htu)
      as [blk [Hperm [_ [Htest Htrain]]]].
    destruct (in_dec Z.eq_dec u tu) as [Hin|_]; [contradiction|].
    rewrite Htest, Htrain. now split.
  - intros eng ent self log Hnone. unfold UserSplitter._get_test_users.
    now rewrite Hnone.
Qed.


(** ** Errors *)

Lemma core_split_invalid_item eng ent self log :
  ~ item_test_size_valid (UserSplitter.item_test_size self) <->
  UserSplitter._core_split eng ent self log =
  Raise (ValueError item_test_size_param (UserSplitter.item_test_size self)).
Proof.
  rewrite item_test_size_valid_iff. unfold UserSplitter._core_split.
  destruct (Py.le (PyInt 0) _ && Py.lt _ (PyFloat 1)) eqn:Ef.
  - split; [intros Hn; exfalso; apply Hn; now left|].
    intros H. exfalso. unfold UserSplitter._split_proportion in H.
    destruct (UserSplitter._get_test_users eng ent self log) as [tu|e] eqn:E;
      [discriminate|].
    cbn [Py.bind] in H. apply get_test_users_error in E.
    destruct E as [uts [_ ->]]. discriminate.
  - destruct (Py.le (PyInt 1) _ && isinstance_int _) eqn:Ec.
    + split; [intros Hn; exfalso; apply Hn; now right|].
      intros H. exfalso. unfold UserSplitter._split_quantity in H.
      destruct (UserSplitter._get_test_users eng ent self log) as [tu|e] eqn:E;
        [discriminate|].
      cbn [Py.bind] in H. apply get_test_users_error in E.
      destruct E as [uts [_ ->]]. discriminate.
    + split; [reflexivity|]. intros _ [H|H]; discriminate.
Qed.

Lemma item_test_size_valid_dec (x : PyNum) :
  item_test_size_valid x \/ ~ item_test_size_valid x.
Proof.
  rewrite item_test_size_valid_iff.
  destruct (Py.le (PyInt 0) x && Py.lt x (PyFloat 1)); [now left; left|].
  destruct (Py.le (PyInt 1) x && isinstance_int x); [now left; right|].
  right. intros [H|H]; discriminate.
Qed.

(** C5 as the claim states it fails: with a valid [item_test_size] the
    [ValueError] of [_get_test_users] still comes out of [_core_split]. *)
Lemma C5_counterexample :
  ~ ((exists p v, UserSplitter._core_split eng0 ent0 bad_user_size doc_log =
                  Raise (ValueError p v))
     <-> ~ item_test_size_valid (UserSplitter.item_test_size bad_user_size)).
Proof.
  intros [H _]. apply H.
  - exists user_test_size_param, (PyFloat (12 # 10)). reflexivity.
  - right. exists 1. split; [reflexivity | lia].
Qed.

(** C5, amended: [_core_split] raises exactly when [item_test_size] is
    neither in [0, 1) nor an integer at least 1, or [user_test_size] is set
    and invalid; the error is a [ValueError]; the one about
    [item_test_size] is raised exactly when that size is invalid, which
    covers negative values and floats at least 1; and a call that raises
    returns no frames. *)
Theorem C5_core_split_errors eng ent self log :
  ((exists e, UserSplitter._core_split eng ent self log = Raise e) <->
   (~ item_test_size_valid (UserSplitter.item_test_size self)
    \/ exists uts, UserSplitter.user_test_size self = Some uts
                   /\ user_test_size_invalid uts (user_count log)))
  /\ (forall e, UserSplitter._core_split eng ent self log = Raise e ->
                exists p v, e = ValueError p v)
  /\ (~ item_test_size_valid (UserSplitter.item_test_size self) <->
      UserSplitter._core_split eng ent self log =
      Raise (ValueError item_test_size_param (UserSplitter.item_test_size self)))
  /\ ((num_val (UserSplitter.item_test_size self) < 0)%Q ->
      ~ item_test_size_valid (UserSplitter.item_test_size self))
  /\ (forall q, UserSplitter.item_test_size self = PyFloat q -> (1 <= q)%Q ->
                ~ item_test_size_valid (UserSplitter.item_test_size self))
  /\ ((exists e, UserSplitter._core_split eng ent self log = Raise e) ->
      forall r, UserSplitter._core_split eng ent self log <> Ok r).
Proof.
  split; [|split; [|split; [|split; [|split]]]].
  - split.
    + intros [e He].
      destruct (item_test_size_valid_dec (UserSplitter.item_test_size self))
        as [Hv|Hn]; [|now left].
      right. apply (get_test_users_raises eng ent).
      pose proof (split_of_test_users eng ent self log Hv) as Hs.
      destruct (UserSplitter._get_test_users eng ent self log) as [tu|e'].
      * destruct Hs as [tr [te Hs]]. congruence.
      * now exists e'.
    + intros [Hn|Hu].
      * eexists. apply core_split_invalid_item. exact Hn.
      * destruct (item_test_size_valid_dec (UserSplitter.item_test_size self))
          as [Hv|Hn].
        -- apply (get_test_users_raises eng ent) in Hu. destruct Hu as [e He].
           pose proof (split_of_test_users eng ent self log Hv) as Hs.
           rewrite He in Hs. now exists e.
        -- eexists. apply core_split_invalid_item. exact Hn.
  - intros e He.
    destruct (item_test_size_valid_dec (UserSplitter.item_test_size self))
      as [Hv|Hn].
    + pose proof (split_of_test_users eng ent self log Hv) as Hs.
      destruct (UserSplitter._get_test_users eng ent self log) as [tu|e'] eqn:E.
      * destruct Hs as [tr [te Hs]]. congruence.
      * apply get_test_users_error in E. destruct E as [uts [_ ->]].
        exists user_test_size_param, uts. congruence.
    + apply (core_split_invalid_item eng ent self log) in Hn.
      rewrite Hn in He. injection He as <-. eauto.
  - apply core_split_invalid_item.
  - intros Hneg [[H0 _]|[n [E Hn]]].
    + exact (Qlt_not_le _ _ Hneg H0).
    + rewrite E in Hneg. cbn in Hneg. change 0%Q with (inject_Z 0) in Hneg.
      rewrite <- Zlt_Qlt in Hneg. lia.
  - intros q E Hq [[_ H1]|[n [En _]]].
    + rewrite E in H1. cbn in H1. exact (Qlt_not_le _ _ H1 Hq).
    + congruence.
  - intros [e He] r Hr. congruence.
Qed.

(** C6: with [user_test_size] set, [_get_test_users] raises exactly when
    the size is an integer below 1 or not below the number of distinct
    users, or a float outside (0, 1); the error is the [ValueError] about
    [user_test_size]; [_core_split] then returns no frames; and 1.2 is
    refused on a log with a single user. *)
Theorem C6_get_test_users_errors eng ent its uts sh dci dcu sd log :
  let self := UserSplitter.mk its (Some uts) sh dci dcu sd in
  ((exists e, UserSplitter._get_test_users eng ent self log = Raise e) <->
   user_test_size_invalid uts (user_count log))
  /\ (user_test_size_invalid uts (user_count log) <->
      UserSplitter._get_test_users eng ent self log =
      Raise (ValueError user_test_size_param uts))
  /\ (user_test_size_invalid uts (user_count log) ->
      forall r, UserSplitter._core_split eng ent self log <> Ok r)
  /\ (user_count log = 1 ->
      UserSplitter._get_test_users eng ent
        (UserSplitter.mk its (Some (PyFloat (12 # 10))) sh dci dcu sd) log =
      Raise (ValueError user_test_size_param (PyFloat (12 # 10)))).
Proof.
  intros self.
  assert (Hiff : user_test_size_invalid uts (user_count log) <->
                 UserSplitter._get_test_users eng ent self log =
                 Raise (ValueError user_test_size_param uts)).
  { rewrite <- test_user_count_none.
    unfold UserSplitter._get_test_users, self.
    cbn [UserSplitter.user_test_size]. fold (user_count log).
    destruct (UserSplitter.test_user_count uts (user_count log));
      split; congruence. }
  split; [|split; [exact Hiff|split]].
  - rewrite get_test_users_raises. unfold self. cbn. split.
    + intros [x [E H]]. now injection E as <-.
    + intros H. now exists uts.
  - intros Hinv r Hr. apply Hiff in Hinv.
    destruct r as [train test].
    destruct (core_split_cases _ _ _ _ _ _ Hr) as [tu [Htu _]]. congruence.
  - intros _. reflexivity.
Qed.

(** With a seed given, neither the sampling of the test users nor the
    ranking of the rows reads what a call draws anew. *)
Lemma seeded_test_users eng ent1 ent2 self log s :
  UserSplitter.seed self = Some s ->
  UserSplitter._get_test_users eng ent1 self log =
  UserSplitter._get_test_users eng ent2 self log.
Proof.
  intros Hs. unfold UserSplitter._get_test_users. now rewrite Hs.
Qed.

Lemma seeded_ranked eng ent1 ent2 self log tu s :
  UserSplitter.seed self = Some s ->
  UserSplitter.ranked eng ent1 self log tu =
  UserSplitter.ranked eng ent2 self log tu.
Proof.
  intros Hs. unfold UserSplitter.ranked, UserSplitter._add_random_partition.
  now rewrite Hs.
Qed.

(** C8: with a seed given and [shuffle=True], two calls of [_core_split] on
    the same log with the same parameters sample the same test users and
    return the same train and test frames, whatever each call draws anew. *)
Theorem C8_same_seed_same_split eng ent1 ent2 self log s :
  UserSplitter.seed self = Some s ->
  UserSplitter.shuffle self = true ->
  UserSplitter._get_test_users eng ent1 self log =
    UserSplitter._get_test_users eng ent2 self log
  /\ UserSplitter._core_split eng ent1 self log =
     UserSplitter._core_split eng ent2 self log.
Proof.
  intros Hs _.
  pose proof (seeded_test_users eng ent1 ent2 self log s Hs) as Hu.
  split; [exact Hu|].
  unfold UserSplitter._core_split, UserSplitter._split_proportion,
    UserSplitter._split_quantity.
  rewrite Hu.
  destruct (UserSplitter._get_test_users eng ent2 self log) as [tu|e];
    cbn [Py.bind]; [|reflexivity].
  now rewrite (seeded_ranked eng ent1 ent2 self log tu s Hs).
Qed.

(** Without a seed the two calls may differ. *)
Lemma unseeded_split_may_differ :
  let eng := mkEngine (fun s i => inject_Z (s * Z.of_nat i)) (fun _ => 0) in
  let self := UserSplitter.mk (PyInt 1) None true false false None in
  UserSplitter._core_split eng (mkEntropy 0 1) self doc_log <>
  UserSplitter._core_split eng (mkEntropy 0 (-1)) self doc_log.
Proof. intros eng self. vm_compute. discriminate. Qed.

(** C10 as the claim states it fails: a [test_size] that is [nan] is not
    below 0 and reaches the [ValueError]. *)
Lemma C10_counterexample :
  @UserLogSplitter._core_split
    (UserLogSplitter.ByTimeUserLogSplitter eng0) old_nan doc_log =
  UserLogSplitter.Raises_ValueError UserLogSplitter.NaN
  /\ UserLogSplitter.lt UserLogSplitter.NaN
       (UserLogSplitter.Num (PyInt 0)) = false.
Proof. split; reflexivity. Qed.

(** C10, amended: [UserLogSplitter._core_split] returns for no
    [test_size]: for [test_size >= 0], and only then, it fails unpacking a
    method that was not called, and it raises its [ValueError] exactly when
    [test_size >= 0] is false, that is for [test_size < 0] and for a
    [test_size] that is [nan]. *)
Theorem C10_old_core_split_never_returns
    (M : UserLogSplitter.Methods) (self : UserLogSplitter.t) (log : Log) :
  (forall r, UserLogSplitter._core_split self log <> UserLogSplitter.Returns r)
  /\ ((exists x, UserLogSplitter.test_size self = UserLogSplitter.Num x
                 /\ (0 <= num_val x)%Q) <->
      UserLogSplitter._core_split self log = UserLogSplitter.Raises TypeError_unpack_method)
  /\ ((UserLogSplitter.test_size self = UserLogSplitter.NaN
       \/ exists x, UserLogSplitter.test_size self = UserLogSplitter.Num x
                    /\ (num_val x < 0)%Q) <->
      UserLogSplitter._core_split self log =
      UserLogSplitter.Raises_ValueError (UserLogSplitter.test_size self))
  /\ (UserLogSplitter.le (UserLogSplitter.Num (PyInt 0))
        (UserLogSplitter.test_size self) = false <->
      UserLogSplitter._core_split self log =
      UserLogSplitter.Raises_ValueError (UserLogSplitter.test_size self)).
Proof.
  unfold UserLogSplitter._core_split, UserLogSplitter.assign_and_return.
  cbn [UserLogSplitter.unpack3].
  destruct (UserLogSplitter.test_size self) as [x|]; cbn [UserLogSplitter.le].
  2:{ cbn [andb]. repeat split; try congruence; try discriminate; auto.
      intros [y [E _]]. discriminate. }
  destruct (Py.le (PyInt 0) x) eqn:E0.
  - pose proof E0 as H0. apply py_le_iff in H0. cbn in H0.
    assert (Hn : ~ (num_val x < 0)%Q) by (now apply Qle_not_lt).
    assert (Hty : (if Py.le x (PyInt 1) && true
                   then UserLogSplitter.Raises TypeError_unpack_method
                   else if Py.le (PyInt 1) x
                        then UserLogSplitter.Raises TypeError_unpack_method
                        else UserLogSplitter.Raises_ValueError (UserLogSplitter.Num x)) =
                  UserLogSplitter.Raises TypeError_unpack_method).
    { destruct (Py.le x (PyInt 1)) eqn:E1; cbn [andb]; [reflexivity|].
      assert (E2 : Py.le (PyInt 1) x = true).
      { apply py_le_iff. apply Qlt_le_weak, Qnot_le_lt.
        intros H. apply py_le_iff in H. congruence. }
      now rewrite E2. }
    cbn [andb]. rewrite andb_comm in Hty. cbn [andb] in Hty.
    replace (Py.le x (PyInt 1) && true) with (Py.le x (PyInt 1)) in Hty
      by (now rewrite andb_true_r).
    rewrite Hty. repeat split; try congruence; try discriminate.
    + intros _. now exists x.
    + intros [H|[y [E H]]]; [discriminate|]. injection E as <-. contradiction.
  - cbn [andb].
    assert (Hneg : (num_val x < 0)%Q).
    { apply Qnot_le_lt. intros H. apply (py_le_iff (PyInt 0)) in H.
      congruence. }
    assert (E2 : Py.le (PyInt 1) x = false).
    { apply not_true_iff_false. intros H. apply py_le_iff in H. cbn in H.
      apply (Qlt_not_le _ _ Hneg). eapply Qle_trans; [|exact H].
      discriminate. }
    rewrite E2. repeat split; try congruence; try discriminate; auto.
    + intros [y [E H]]. injection E as <-.
      exfalso. exact (Qlt_not_le _ _ Hneg H).
    + intros _. right. now exists x.
Qed.

(** ** The docstring of [UserSplitter], replayed *)

(** By default one row per user goes to test, the most recent one. *)
Example doctest_default :
  UserSplitter._core_split eng0 ent0 default_splitter doc_log =
  Ok (doc_train, doc_test).
Proof. reflexivity. Qed.

(** [item_test_size=3] with [shuffle=True] sends every row to test. *)
Example doctest_three_items eng ent sd :
  exists test,
    UserSplitter._core_split eng ent
      (UserSplitter.mk (PyInt 3) None true false false sd) doc_log =
    Ok ([], test)
    /\ Permutation test doc_log.
Proof.
  set (self := UserSplitter.mk (PyInt 3) None true false false sd).
  destruct (split_of_test_users eng ent self doc_log) as [train [test H]].
  { right. exists 3. split; [reflexivity | lia]. }
  assert (Ht : train = []).
  { apply no_group_nil. intros u.
    destruct (count_mode_user eng ent self doc_log train test
                (Sql.distinct (map user_id doc_log)) u 3
                eq_refl ltac:(lia) H eq_refl)
      as [blk [Hperm [_ [_ Htrain]]]].
    rewrite Htrain.
    pose proof (Permutation_length Hperm) as Hlen.
    assert (Hk : Nat.le (length (filter (fun r => user_id r =? u) doc_log)) 3).
    { unfold doc_log. cbn [filter user_id].
      destruct (Z.eqb_spec 1 u), (Z.eqb_spec 2 u); cbn [length]; lia. }
    destruct (in_dec Z.eq_dec u _) as [_|Hn].
    - apply skipn_all2. change (Z.to_nat 3) with 3%nat. lia.
    - destruct blk as [|r blk]; [reflexivity|]. exfalso. apply Hn.
      assert (Hr : In r (filter (fun r => user_id r =? u) doc_log))
        by (apply (Permutation_in _ Hperm); now left).
      apply filter_In in Hr. destruct Hr as [Hr E]. apply Z.eqb_eq in E.
      subst u. apply distinct_In. now apply in_map. }
  exists test. subst train. split; [exact H|].
  exact (core_split_perm _ _ _ _ _ _ H).
Qed.

(** [user_test_size=1] and [user_test_size=0.5] keep one of the two users. *)
Example doctest_one_test_user eng ent sd :
  exists u,
    (UserSplitter._get_test_users eng ent
       (UserSplitter.mk (PyInt 2) (Some (PyInt 1)) false false false sd)
       doc_log = Ok [u]
     /\ UserSplitter._get_test_users eng ent
          (UserSplitter.mk (PyInt 2) (Some (PyFloat (5 # 10))) false false false sd)
          doc_log = Ok [u])
    /\ (u = 1 \/ u = 2).
Proof.
  set (s := match sd with Some s => s | None => users_seed ent end).
  unfold UserSplitter._get_test_users. cbn -[Qle_bool]. fold s.
  unfold Sql.window_leb. cbn -[Qle_bool Z.leb].
  destruct (Qle_bool (rand_at eng s 0) (rand_at eng s 1));
    destruct (Qle_bool (rand_at eng s 1) (rand_at eng s 0));
    destruct (tie_break eng 0 <=? tie_break eng 1);
    destruct (tie_break eng 1 <=? tie_break eng 0);
    cbn; eexists; (split; [split; reflexivity|]); auto.
Qed.

(** ** The claims on the log of the docstring *)

(** C1 on the default split of the docstring's log. *)
Lemma C1_witness :
  UserSplitter._core_split eng0 ent0 default_splitter doc_log =
    Ok (doc_train, doc_test)
  /\ Permutation (doc_train ++ doc_test) doc_log.
Proof.
  split; [reflexivity|].
  apply (C1_train_test_partition eng0 ent0 default_splitter doc_log
           doc_train doc_test).
  reflexivity.
Defined.

(** C2 on user 1 of the docstring's log: its latest row alone is in test. *)
Lemma C2_witness :
  length (filter (fun r => user_id r =? 1) doc_test) = 1%nat.
Proof.
  apply (proj1 C2_most_recent_to_test eng0 ent0 default_splitter doc_log
           doc_train doc_test [1; 2] 1 1).
  - reflexivity.
  - reflexivity.
  - lia.
  - reflexivity.
  - reflexivity.
  - simpl. auto.
Defined.

(** C3 on user 2 of the docstring's log with a third as a double: one of
    its three rows is in test, which is above [floor (3 * f) = 0] and below
    3. *)
Lemma C3_witness :
  Z.of_nat (length (filter (fun r => user_id r =? 2) doc_test)) < cnt doc_log 2
  /\ Qfloor (inject_Z (cnt doc_log 2) * third)
     <= Z.of_nat (length (filter (fun r => user_id r =? 2) doc_test)).
Proof.
  pose proof (C3_fraction_mode eng0 ent0 third_by_time doc_log
                doc_train doc_test [1; 2] 2) as H.
  destruct H as [_ [_ [Hlt [Hge _]]]].
  - split.
    + apply Qle_bool_iff. vm_compute. reflexivity.
    + apply (proj1 (Qlt_alt _ _)). vm_compute. reflexivity.
  - vm_compute. reflexivity.
  - vm_compute. reflexivity.
  - simpl. auto.
  - split; [exact Hlt | apply Hge].
    + vm_compute. reflexivity.
    + apply Qeq_bool_iff. vm_compute. reflexivity.
Defined.

(** C4 on user 2 of the docstring's log with [item_test_size=1]. *)
Lemma C4_witness :
  Z.of_nat (length (filter (fun r => user_id r =? 2) doc_test)) = 1.
Proof.
  refine (proj1 (C4_count_mode eng0 ent0 default_splitter doc_log
                   doc_train doc_test [1; 2] 2 1
                   eq_refl _ eq_refl eq_refl _) _).
  - lia.
  - simpl. auto.
  - discriminate.
Defined.

(** C5 on [user_test_size=1.2]: the call raises though [item_test_size=1]
    is valid. *)
Lemma C5_witness :
  exists e, UserSplitter._core_split eng0 ent0 bad_user_size doc_log = Raise e.
Proof.
  apply (proj1 (C5_core_split_errors eng0 ent0 bad_user_size doc_log)).
  right. exists (PyFloat (12 # 10)). split; [reflexivity|].
  intros [_ H]. discriminate H.
Defined.

(** C6 on [user_test_size=1.2]: [_get_test_users] raises its error. *)
Lemma C6_witness :
  UserSplitter._get_test_users eng0 ent0 bad_user_size doc_log =
  Raise (ValueError user_test_size_param (PyFloat (12 # 10))).
Proof.
  apply (proj1 (proj1 (proj2
           (C6_get_test_users_errors eng0 ent0 (PyInt 1) (PyFloat (12 # 10))
              false false false None doc_log)))).
  intros [_ H]. discriminate H.
Defined.

(** C7 on the docstring's log with one test user: user 2 is not a
    candidate and has no row in test. *)
Lemma C7_witness :
  filter (fun r => user_id r =? 2) [mkRow 1 1 1 1; mkRow 1 2 2 2] = [].
Proof.
  apply (proj1 (proj2 C7_other_users_to_train) eng0 ent0 one_test_user doc_log
           [mkRow 1 3 3 3; mkRow 2 1 4 3; mkRow 2 2 5 2; mkRow 2 3 6 1]
           [mkRow 1 1 1 1; mkRow 1 2 2 2] [1] 2).
  - reflexivity.
  - reflexivity.
  - simpl. intros [H|[]]. discriminate H.
Defined.


(** C8 on the docstring's log with seed 80083: a call that would draw
    other seeds returns the same frames. *)
Lemma C8_witness :
  UserSplitter._core_split eng0 ent0 seeded_shuffle doc_log =
  UserSplitter._core_split eng0 (mkEntropy 5 7) seeded_shuffle doc_log.
Proof.
  apply (C8_same_seed_same_split eng0 ent0 (mkEntropy 5 7) seeded_shuffle
           doc_log 80083).
  - reflexivity.
  - reflexivity.
Defined.

(** ** Folds *)

Lemma row_number_pos {A} eng (part : A -> Z) (leb : A -> A -> bool)
    (df : list A) (x : A * Z) :
  In x (Sql.row_number eng part leb df) -> 1 <= snd x.
Proof.
  unfold Sql.row_number. intros H. apply in_flat_map in H.
  destruct H as [u [_ H]]. now apply number_from_lower in H.
Qed.

Lemma range_NoDup (n : Z) : NoDup (KFolds.range n).
Proof.
  unfold KFolds.range. apply Finite.Injective_map_NoDup; [|apply seq_NoDup].
  intros a b. apply Nat2Z.inj.
Qed.

Lemma range_In (n i : Z) : In i (KFolds.range n) <-> 0 <= i < n.
Proof.
  unfold KFolds.range. rewrite in_map_iff. split.
  - intros [k [<- Hk]]. apply in_seq in Hk. lia.
  - intros H. exists (Z.to_nat i). split; [lia|]. apply in_seq. lia.
Qed.

Lemma with_fold_rows eng fresh log n seed :
  Permutation (map fst (KFolds.with_fold eng fresh log n seed)) log.
Proof.
  unfold KFolds.with_fold. rewrite map_map. cbn [fst].
  rewrite <- (map_map fst fst), row_number_perm, map_map. cbn [fst].
  now rewrite indexed_snd.
Qed.

(** Every row has a fold in [0, n_folds). *)
Lemma with_fold_range eng fresh log n seed r :
  0 < n ->
  In r (KFolds.with_fold eng fresh log n seed) ->
  exists f, snd r = Some f /\ 0 <= f < n.
Proof.
  intros Hn Hr. unfold KFolds.with_fold in Hr.
  apply in_map_iff in Hr. destruct Hr as [x [<- Hx]].
  apply row_number_pos in Hx. cbn [snd]. unfold KFolds.fold_of.
  destruct (Z.eqb_spec n 0); [lia|].
  exists (Z.rem (snd x) n). split; [reflexivity|].
  rewrite Z.rem_mod_nonneg by lia. apply Z.mod_pos_bound. lia.
Qed.

(** X1: [k_folds] raises its [ValueError] exactly when [splitter] is not
    ["user"]; otherwise it yields [n_folds] pairs (none when [n_folds] is
    not positive), and in each pair train and test together hold the rows
    of the log, each once. *)
Theorem X1_k_folds_partitions eng fresh log n seed splitter :
  (KFolds.k_folds eng fresh log n seed splitter = KFolds.Raises_ValueError splitter
   <-> splitter <> Some "user"%string)
  /\ (splitter = Some "user"%string ->
      exists folds,
        KFolds.k_folds eng fresh log n seed splitter = KFolds.Yields folds
        /\ Z.of_nat (length folds) = Z.max 0 n
        /\ forall train test,
             In (train, test) folds -> Permutation (train ++ test) log).
Proof.
  unfold KFolds.k_folds. split.
  - destruct splitter as [s|]; cbn [KFolds.not_in_user].
    + destruct (String.eqb_spec s "user"%string) as [->|Hne]; cbn [negb].
      * split; [discriminate | congruence].
      * split; [congruence | reflexivity].
    + split; [discriminate | reflexivity].
  - intros ->. cbn. eexists. split; [reflexivity|]. split.
    + unfold KFolds.range. rewrite !length_map, length_seq. lia.
    + intros train test Hin. apply in_map_iff in Hin.
      destruct Hin as [i [E Hi]]. injection E as <- <-.
      apply range_In in Hi.
      rewrite <- map_app. unfold Sql.where_.
      rewrite filter_complement_perm; [apply with_fold_rows|].
      intros r Hr.
      destruct (with_fold_range eng fresh log n seed r ltac:(lia) Hr)
        as [f [Hf _]].
      unfold KFolds.fold_eq, KFolds.fold_ne. rewrite Hf. cbn.
      now destruct (f =? i).
Qed.

(** X2: for [n_folds >= 1] the test frames of the folds together hold the
    rows of the log, each once: every row is held out in exactly one
    fold. *)
Theorem X2_k_folds_tests_cover eng fresh log n seed folds :
  1 <= n ->
  KFolds.k_folds eng fresh log n seed (Some "user"%string) = KFolds.Yields folds ->
  Permutation (concat (map snd folds)) log.
Proof.
  intros Hn H. unfold KFolds.k_folds in H. cbn in H. injection H as <-.
  rewrite map_map. cbn [snd]. rewrite <- flat_map_concat_map.
  set (df := KFolds.with_fold eng fresh log n seed).
  set (key := fun r : Row * option Z =>
                match snd r with Some f => f | None => -1 end).
  rewrite (flat_map_eq_in _
             (fun i => map fst (filter (fun r => key r =? i) df))).
  2:{ intros i _. f_equal. unfold Sql.where_. apply filter_ext_in.
      intros r Hr.
      destruct (with_fold_range eng fresh log n seed r ltac:(lia) Hr)
        as [f [Hf _]].
      unfold KFolds.fold_eq, key. rewrite Hf. cbn. now destruct (f =? i). }
  rewrite <- (map_flat_map fst (fun i => filter (fun r => key r =? i) df)).
  rewrite (group_blocks_perm key (KFolds.range n) (range_NoDup n) df).
  - apply with_fold_rows.
  - intros r Hr.
    destruct (with_fold_range eng fresh log n seed r ltac:(lia) Hr)
      as [f [Hf Hrange]].
    apply range_In. unfold key. now rewrite Hf.
Qed.

Lemma div_step (n i s : Z) :
  0 < n -> 0 <= i < n ->
  (s - i) / n = (s - 1 - i) / n + (if s mod n =? i then 1 else 0).
Proof.
  intros Hn Hi.
  pose proof (Z.div_mod s n ltac:(lia)) as Hs.
  pose proof (Z.mod_pos_bound s n Hn) as Hm.
  set (q := s / n) in *. set (m := s mod n) in *.
  destruct (Z.eqb_spec m i) as [E|E].
  - rewrite <- (Z.div_unique (s - i) n q 0) by lia.
    rewrite <- (Z.div_unique (s - 1 - i) n (q - 1) (n - 1)) by lia. lia.
  - destruct (Z.lt_ge_cases i m) as [Hlt|Hge].
    + rewrite <- (Z.div_unique (s - i) n q (m - i)) by lia.
      rewrite <- (Z.div_unique (s - 1 - i) n q (m - i - 1)) by lia. lia.
    + rewrite <- (Z.div_unique (s - i) n (q - 1) (n + m - i)) by lia.
      rewrite <- (Z.div_unique (s - 1 - i) n (q - 1) (n + m - i - 1)) by lia.
      lia.
Qed.

(** How many of the numbers [s, s+1, ...] given to a list leave the
    remainder [i]. *)
Lemma number_from_count_mod {A} (n i : Z) (l : list A) :
  0 < n -> 0 <= i < n ->
  forall s,
    Z.of_nat (length (filter (fun x => snd x mod n =? i) (Sql.number_from s l))) =
    (s + Z.of_nat (length l) - 1 - i) / n - (s - 1 - i) / n.
Proof.
  intros Hn Hi. induction l as [|a l IH]; intros s.
  - cbn [Sql.number_from filter length Z.of_nat].
    replace (s + 0 - 1 - i) with (s - 1 - i) by lia. lia.
  - cbn [Sql.number_from filter snd].
    pose proof (div_step n i s Hn Hi) as Hstep.
    specialize (IH (s + 1)).
    replace (s + 1 + Z.of_nat (length l) - 1 - i)
      with (s + Z.of_nat (length (a :: l)) - 1 - i) in IH
      by (cbn [length]; lia).
    replace (s + 1 - 1 - i) with (s - i) in IH by lia.
    destruct (s mod n =? i); cbn [length] in IH |- *; lia.
Qed.

(** X3: in the fold of index [i] (of [n_folds >= 1]) a user with [k] rows
    has [(k - i) / n - (- i) / n] rows in test, with floor division: that
    is [k / n] rows in the first fold and [(k - i) / n + 1] in the others,
    so a user with fewer than [i] rows has none in fold [i >= 1], a user
    with fewer than [n] rows none in the first fold, and no fold holds out
    fewer than [k / n] or more than [k / n + 1] rows of the user. *)
Theorem X3_k_folds_user_share eng fresh log n seed folds i train test u :
  1 <= n ->
  0 <= i < n ->
  KFolds.k_folds eng fresh log n seed (Some "user"%string) = KFolds.Yields folds ->
  nth_error folds (Z.to_nat i) = Some (train, test) ->
  Z.of_nat (length (filter (fun r => user_id r =? u) test)) =
    (cnt log u - i) / n - (- i) / n
  /\ cnt log u / n <= (cnt log u - i) / n - (- i) / n <= cnt log u / n + 1.
Proof.
  intros Hn Hi H Hnth. unfold KFolds.k_folds in H. cbn in H.
  injection H as <-.
  rewrite nth_error_map in Hnth. unfold KFolds.range in Hnth.
  rewrite nth_error_map in Hnth.
  rewrite (nth_error_nth' _ 0%nat) in Hnth by (rewrite length_seq; lia).
  rewrite seq_nth in Hnth by lia. cbn [option_map Nat.add] in Hnth.
  rewrite Z2Nat.id in Hnth by lia. injection Hnth as _ <-.
  split.
  2:{ pose proof (Z.div_mod (cnt log u) n ltac:(lia)) as E1.
      pose proof (Z.mod_pos_bound (cnt log u) n ltac:(lia)) as B1.
      pose proof (Z.div_mod (cnt log u - i) n ltac:(lia)) as E2.
      pose proof (Z.mod_pos_bound (cnt log u - i) n ltac:(lia)) as B2.
      pose proof (Z.div_mod (- i) n ltac:(lia)) as E3.
      pose proof (Z.mod_pos_bound (- i) n ltac:(lia)) as B3.
      set (q1 := cnt log u / n) in *. set (q2 := (cnt log u - i) / n) in *.
      set (q3 := - i / n) in *.
      assert (E : n * (q1 - q2 + q3) =
                  (cnt log u - i) mod n - cnt log u mod n - (- i) mod n)
        by lia.
      assert (-2 < q1 - q2 + q3 < 1) by nia. lia. }
  unfold Sql.where_, KFolds.with_fold.
  set (s := match seed with Some s => s | None => fresh end).
  set (with_rand := map (fun x => (snd x, rand_at eng s (fst x)))
                        (Sql.indexed log)).
  assert (Hfst : map fst with_rand = log).
  { unfold with_rand. rewrite map_map. cbn [fst]. apply indexed_snd. }
  clearbody with_rand.
  set (part := fun x : Row * Q => user_id (fst x)).
  set (leb := fun x y : Row * Q => Qle_bool (snd x) (snd y)).
  rewrite filter_map_comm, filter_filter_comm. cbn beta.
  rewrite filter_map_comm.
  match goal with
  | |- context [filter ?p (Sql.row_number eng part leb with_rand)] =>
      change (filter p (Sql.row_number eng part leb with_rand))
        with (filter (fun x => part (fst x) =? u)
                (Sql.row_number eng part leb with_rand))
  end.
  rewrite row_number_partition, filter_map_comm, !length_map.
  cbn [snd].
  set (P := Sql.partition_rows eng part leb with_rand u).
  assert (Hlen : Z.of_nat (length P) = cnt log u).
  { unfold P, cnt. rewrite (Permutation_length (partition_rows_perm _ _ _ _ _)).
    rewrite <- Hfst, filter_map_comm, length_map. reflexivity. }
  rewrite (filter_ext_in _ (fun x => snd x mod n =? i)).
  - rewrite (number_from_count_mod n i P ltac:(lia) Hi 1), Hlen.
    f_equal; f_equal; lia.
  - intros x Hx. apply number_from_lower in Hx.
    unfold KFolds.fold_eq, KFolds.fold_of. cbn [snd].
    destruct (Z.eqb_spec n 0); [lia|]. cbn.
    rewrite Z.rem_mod_nonneg by lia. now destruct (_ =? i).
Qed.

(** ** More on the test users *)

Lemma floor_share_lt (k : nat) (f : Q) :
  (f < 1)%Q -> (1 <= k)%nat -> Qfloor (inject_Z (Z.of_nat k) * f) < Z.of_nat k.
Proof.
  intros H1 Hk. rewrite Zlt_Qlt.
  eapply Qle_lt_trans; [apply Qfloor_le|].
  rewrite <- (Qmult_1_r (inject_Z (Z.of_nat k))) at 2.
  apply Qmult_lt_l; [|exact H1].
  change 0%Q with (inject_Z 0). rewrite <- Zlt_Qlt. lia.
Qed.

(** A window without [partitionBy] numbers all rows in one sequence. *)
Lemma row_number_single {A} eng (leb : A -> A -> bool) (df : list A) :
  Sql.row_number eng (fun _ => 0) leb df =
  Sql.number_from 1 (Sql.partition_rows eng (fun _ => 0) leb df 0)
  /\ length (Sql.partition_rows eng (fun _ => 0) leb df 0) = length df.
Proof.
  split.
  - rewrite <- row_number_partition. symmetry. apply filter_all.
    intros x _. reflexivity.
  - rewrite (Permutation_length (partition_rows_perm eng _ leb df 0)).
    rewrite filter_all; [reflexivity|]. intros x _. reflexivity.
Qed.


(** The number of test users, whatever the rounding. *)
Lemma rounded_test_users_length fl eng ent self log uts tu :
  UserSplitter.user_test_size self = Some uts ->
  Rounded._get_test_users fl eng ent self log = Ok tu ->
  exists c,
    Rounded.test_user_count fl uts (user_count log) = Some c
    /\ length tu =
       Nat.min (Z.to_nat (Qfloor (num_val c))) (Z.to_nat (user_count log)).
Proof.
  intros Huts H.
  unfold Rounded._get_test_users in H. rewrite Huts in H.
  fold (user_count log) in H.
  destruct (Rounded.test_user_count fl uts (user_count log)) as [c|] eqn:Ec;
    [|discriminate].
  injection H as <-. exists c. split; [reflexivity|].
  match goal with
  | |- context [Sql.row_number eng ?part ?leb ?df] =>
      destruct (row_number_single eng leb df) as [-> Hlen]
  end.
  rewrite length_map.
  rewrite (number_from_filter_le _ (Qfloor (num_val c))).
  2:{ intros x _. apply Qle_bool_floor. }
  rewrite length_firstn, number_from_length, Hlen, length_map.
  unfold Sql.indexed. rewrite length_combine, length_seq, Nat.min_id.
  unfold user_count. rewrite Nat2Z.id.
  now replace (Qfloor (num_val c) - 1 + 1) with (Qfloor (num_val c)) by lia.
Qed.

Lemma round_count (n : Z) :
  0 <= n < 2 ^ 53 -> (Double.round (inject_Z n) == inject_Z n)%Q.
Proof.
  intros [Hlo Hhi]. destruct (Z.eq_dec n 0) as [->|Hne]; [reflexivity|].
  apply round_int. lia.
Qed.

(** The rounded product of a count and a fraction stays within the count. *)
Lemma round_share (n : Z) (f : Q) :
  0 <= n < 2 ^ 53 -> (0 <= f)%Q -> (f <= 1)%Q ->
  0 <= Qfloor (Double.round (Double.round (inject_Z n) * f)) <= n.
Proof.
  intros Hn H0 H1.
  pose proof (round_count n Hn) as En.
  assert (Hq : (0 <= inject_Z n)%Q) by (apply Z_Q_nonneg; lia).
  assert (Ep : (Double.round (inject_Z n) * f == inject_Z n * f)%Q)
    by (now rewrite En).
  rewrite (round_proper _ _ Ep).
  split.
  - change 0 with (Qfloor (Double.round 0)). apply Qfloor_resp_le, round_mono.
    now apply Qmult_le_0_compat.
  - rewrite <- (Qfloor_Z n) at 2. apply Qfloor_resp_le.
    eapply Qle_trans; [|apply Qle_lteq; right; exact En].
    apply round_mono.
    rewrite <- (Qmult_1_r (inject_Z n)) at 2.
    rewrite !(Qmult_comm (inject_Z n)).
    now apply Qmult_le_compat_r.
Qed.

(** Three users and a third as a double: the exact product is below 1 and
    selects nobody, the product Python computes is 1.0 and selects a
    user. *)
Example third_of_three_users :
  Qfloor (inject_Z (user_count three_users) * third) = 0
  /\ UserSplitter._get_test_users eng0 ent0 third_of_users three_users = Ok []
  /\ Rounded._get_test_users Double.round eng0 ent0 third_of_users three_users
     = Ok [1].
Proof. repeat split; vm_compute; reflexivity. Qed.

(** X4: when [user_test_size] is set and accepted, the test users are
    distinct users of the log: [n] of them for an integer size [n], and for
    a fraction [f] the integer part of the product [users * f] as Python
    computes it, rounded to a double (on a log of fewer than [2^53]
    users). *)
Theorem X4_test_users_number eng ent self log uts tu :
  UserSplitter.user_test_size self = Some uts ->
  Rounded._get_test_users Double.round eng ent self log = Ok tu ->
  user_count log < 2 ^ 53 ->
  NoDup tu
  /\ (forall u, In u tu -> In u (map user_id log))
  /\ Z.of_nat (length tu) =
     match uts with
     | PyInt n => n
     | PyFloat f =>
         Qfloor (Double.round (Double.round (inject_Z (user_count log)) * f))
     end.
Proof.
  intros Huts H Hsmall.
  destruct (rounded_get_test_users_sound _ _ _ _ _ _ H) as [Hnd Hsub].
  split; [exact Hnd|]. split; [exact Hsub|].
  destruct (rounded_test_users_length _ _ _ _ _ _ _ Huts H) as [c [Ec Hlen]].
  assert (Hn : 0 <= user_count log) by (unfold user_count; lia).
  destruct uts as [n|f]; cbn [Rounded.test_user_count] in Ec.
  - destruct ((1 <=? n) && (n <? user_count log)) eqn:E; [|discriminate].
    injection Ec as <-. apply andb_true_iff in E. destruct E as [E1 E2].
    apply Z.leb_le in E1. apply Z.ltb_lt in E2.
    cbn [num_val] in Hlen. rewrite Qfloor_Z in Hlen. lia.
  - destruct (Py.lt (PyFloat f) (PyInt 1) && Py.lt (PyInt 0) (PyFloat f)) eqn:E;
      [|discriminate].
    injection Ec as <-. apply andb_true_iff in E. destruct E as [E1 E2].
    apply py_lt_iff in E1, E2. cbn in E1, E2. cbn [num_val] in Hlen.
    pose proof (round_share (user_count log) f (conj Hn Hsmall)
                  (Qlt_le_weak _ _ E2) (Qlt_le_weak _ _ E1)).
    lia.
Qed.


(** ** More on the fractional and the count mode *)

(** X6: in fractional mode every user of the log keeps at least one row in
    train, whether it is a test user or not: a fraction below 1 never
    holds out all rows of a user. *)
Theorem X6_fraction_leaves_train eng ent self log train test u :
  (0 <= num_val (UserSplitter.item_test_size self)
   /\ num_val (UserSplitter.item_test_size self) < 1)%Q ->
  UserSplitter._core_split eng ent self log = Ok (train, test) ->
  In u (map user_id log) ->
  Z.of_nat (length (filter (fun r => user_id r =? u) train)) +
  Z.of_nat (length (filter (fun r => user_id r =? u) test)) = cnt log u
  /\ 1 <= Z.of_nat (length (filter (fun r => user_id r =? u) train)).
Proof.
  intros Hf H Hu.
  destruct (core_split_cases _ _ _ _ _ _ H) as [tu [Htu _]].
  destruct (fraction_mode_user _ _ _ _ _ _ _ u Hf H Htu)
    as [blk [Hperm [_ [Htest Htrain]]]].
  assert (Hlen : Z.of_nat (length blk) = cnt log u).
  { unfold cnt. now rewrite (Permutation_length Hperm). }
  pose proof (cnt_pos log u Hu) as Hpos.
  destruct (floor_share (length blk) _ Hf) as [[Hlo _] _].
  pose proof (floor_share_lt (length blk) _ (proj2 Hf) ltac:(lia)) as Hlt.
  rewrite Htest, Htrain.
  destruct (in_dec Z.eq_dec u tu).
  - rewrite length_skipn, length_firstn. lia.
  - cbn [length]. lia.
Qed.

(** X7: in fractional mode with [shuffle=False] no row of a test user left
    in train is more recent than one of its test rows: the rows held out
    are the user's latest. *)
Theorem X7_fraction_most_recent eng ent self log train test tu u t r :
  (0 <= num_val (UserSplitter.item_test_size self)
   /\ num_val (UserSplitter.item_test_size self) < 1)%Q ->
  UserSplitter.shuffle self = false ->
  UserSplitter._core_split eng ent self log = Ok (train, test) ->
  UserSplitter._get_test_users eng ent self log = Ok tu ->
  In t test -> In r train -> user_id t = u -> user_id r = u ->
  In u tu /\ timestamp r <= timestamp t.
Proof.
  intros Hf Hsh H Htu Ht Hr Etu Eru.
  destruct (fraction_mode_user _ _ _ _ _ _ _ u Hf H Htu)
    as [blk [_ [Hsort [Htest Htrain]]]].
  assert (Ht' : In t (filter (fun r => user_id r =? u) test))
    by (apply filter_In; split; [exact Ht | now apply Z.eqb_eq]).
  assert (Hr' : In r (filter (fun r => user_id r =? u) train))
    by (apply filter_In; split; [exact Hr | now apply Z.eqb_eq]).
  rewrite Htest in Ht'. rewrite Htrain in Hr'.
  destruct (in_dec Z.eq_dec u tu) as [Hin|_]; [|destruct Ht'].
  split; [exact Hin|].
  exact (sorted_prefix_suffix _ _ _ _ _ (Hsort Hsh) Ht' Hr').
Qed.

(** X8: on the empty log a split that is accepted returns two empty
    frames; an integer [user_test_size] is never accepted there, and an
    unset one or a fraction in (0, 1) is, given a valid [item_test_size]. *)
Theorem X8_empty_log eng ent self :
  (forall train test,
      UserSplitter._core_split eng ent self [] = Ok (train, test) ->
      train = [] /\ test = [])
  /\ (forall n r,
        UserSplitter.user_test_size self = Some (PyInt n) ->
        UserSplitter._core_split eng ent self [] <> Ok r)
  /\ (item_test_size_valid (UserSplitter.item_test_size self) ->
      (UserSplitter.user_test_size self = None
       \/ exists f, UserSplitter.user_test_size self = Some (PyFloat f)
                    /\ (0 < f /\ f < 1)%Q) ->
      UserSplitter._core_split eng ent self [] = Ok ([], [])).
Proof.
  assert (Hnil : forall train test,
            UserSplitter._core_split eng ent self [] = Ok (train, test) ->
            train = [] /\ test = []).
  { intros train test H. apply core_split_perm in H.
    apply Permutation_sym, Permutation_nil in H.
    now apply app_eq_nil in H. }
  split; [exact Hnil|]. split.
  - intros n [train test] Hu H.
    destruct (core_split_cases _ _ _ _ _ _ H) as [tu [Htu _]].
    assert (Hr : exists e, UserSplitter._get_test_users eng ent self [] = Raise e).
    { apply get_test_users_raises. exists (PyInt n). split; [exact Hu|].
      cbn. lia. }
    destruct Hr as [e He]. congruence.
  - intros Hv Hu.
    pose proof (split_of_test_users eng ent self [] Hv) as Hs.
    destruct (UserSplitter._get_test_users eng ent self []) as [tu|e] eqn:E.
    + destruct Hs as [train [test Hs]].
      destruct (Hnil _ _ Hs) as [-> ->]. exact Hs.
    + exfalso.
      assert (Hr : exists e, UserSplitter._get_test_users eng ent self [] = Raise e)
        by (now exists e).
      apply get_test_users_raises in Hr. destruct Hr as [uts [Huts Hinv]].
      destruct Hu as [Hu|[f [Hu Hf]]]; [congruence|].
      rewrite Hu in Huts. injection Huts as <-. cbn in Hinv. tauto.
Qed.

(** ** Growing the test size *)

(** The rows of a user in the order in which the window ranks them. *)
Lemma ranked_user_base eng ent self log tu u :
  NoDup tu ->
  exists blk : list (Row * option Q),
    map UserSplitter.base
        (filter (fun r => user_id (UserSplitter.base r) =? u)
                (UserSplitter.ranked eng ent self log tu)) = map fst blk
    /\ Permutation (map fst blk) (filter (fun r => user_id r =? u) log)
    /\ filter (fun r => user_id (UserSplitter.base r) =? u)
              (UserSplitter.ranked eng ent self log tu) =
       map (fun x => UserSplitter.mkRes (fst (fst x)) (test_user_of tu u)
                       (snd (fst x)) (snd x))
           (Sql.number_from 1 blk).
Proof.
  intros Hnd.
  destruct (ranked_user eng ent self log tu u Hnd) as [blk [Hperm [_ Hrows]]].
  exists blk. split; [|split; assumption].
  rewrite Hrows, map_map. cbn [UserSplitter.base].
  now rewrite <- (map_map fst fst), number_from_fst.
Qed.

(** The number of rows of a test user with [k] rows that go to test. *)
Lemma core_split_rows eng ent self log train test tu u :
  UserSplitter._core_split eng ent self log = Ok (train, test) ->
  UserSplitter._get_test_users eng ent self log = Ok tu ->
  let rows := map UserSplitter.base
                (filter (fun r => user_id (UserSplitter.base r) =? u)
                        (UserSplitter.ranked eng ent self log tu)) in
  let f := num_val (UserSplitter.item_test_size self) in
  let c := if Py.le (PyInt 0) (UserSplitter.item_test_size self)
              && Py.lt (UserSplitter.item_test_size self) (PyFloat 1)
           then Qfloor (inject_Z (Z.of_nat (length rows)) * f)
           else Qfloor f in
  filter (fun r => user_id r =? u) test =
    (if in_dec Z.eq_dec u tu then firstn (Z.to_nat c) rows else [])
  /\ filter (fun r => user_id r =? u) train =
     (if in_dec Z.eq_dec u tu then skipn (Z.to_nat c) rows else rows).
Proof.
  intros H Htu rows f c.
  destruct (get_test_users_sound _ _ _ _ _ Htu) as [Hnd _].
  destruct (ranked_user_base eng ent self log tu u Hnd)
    as [blk [HB [Hperm Hrows]]].
  fold rows in HB.
  destruct (core_split_cases _ _ _ _ _ _ H) as [tu' [Htu' Hmode]].
  rewrite Htu in Htu'. injection Htu' as <-.
  destruct Hmode as [[Hf Hs]|[Hnf [_ Hs]]].
  - unfold c. rewrite Hf. clear c. rewrite HB.
    unfold UserSplitter._split_proportion in Hs.
    rewrite Htu in Hs. cbn [Py.bind] in Hs. injection Hs as <- <-.
    rewrite with_frac_eq.
    2:{ intros r Hr. apply in_map.
        apply (Permutation_in _ (ranked_perm eng ent self log tu Hnd)).
        now apply in_map. }
    assert (Hk : forall x, In x (Sql.number_from 1 blk) ->
              cnt log (user_id (fst (fst x))) = Z.of_nat (length (map fst blk))
              /\ 0 < Z.of_nat (length (map fst blk))).
    { intros x Hx. apply (in_map fst) in Hx. rewrite number_from_fst in Hx.
      apply (in_map fst) in Hx.
      pose proof (Permutation_in _ Hperm Hx) as Hin.
      apply filter_In in Hin. destruct Hin as [_ Hu]. apply Z.eqb_eq in Hu.
      rewrite Hu. unfold cnt. rewrite <- (Permutation_length Hperm).
      split; [reflexivity|].
      destruct (map fst blk); [destruct Hx | simpl length; lia]. }
    unfold Sql.where_.
    split; rewrite filter_map_comm, filter_filter_comm; cbn beta;
      rewrite filter_map_comm; cbn [UserSplitter.res UserSplitter.base];
      rewrite Hrows, map_map, filter_map_comm, map_map;
      cbn [UserSplitter.res UserSplitter.base UserSplitter.row_num];
      unfold test_user_of; destruct (in_dec Z.eq_dec u tu).
    + apply cut_test. intros x Hx. destruct (Hk x Hx) as [-> Hpos].
      unfold UserSplitter.proportion_test. cbn.
      rewrite Qle_bool_div, Qle_bool_floor by assumption.
      now destruct (snd x <=? _).
    + rewrite filter_none; [reflexivity|]. intros x _.
      unfold UserSplitter.proportion_test. cbn. now destruct (Qle_bool _ _).
    + apply cut_train. intros x Hx. destruct (Hk x Hx) as [-> Hpos].
      unfold UserSplitter.proportion_train. cbn.
      rewrite Qle_bool_div, Qle_bool_floor by assumption.
      now destruct (snd x <=? _).
    + apply keep_all. intros x _.
      unfold UserSplitter.proportion_train. cbn. now destruct (Qle_bool _ _).
  - unfold c. rewrite Hnf. clear c. rewrite HB.
    unfold UserSplitter._split_quantity in Hs.
    rewrite Htu in Hs. cbn [Py.bind] in Hs. injection Hs as <- <-.
    unfold Sql.where_.
    split; rewrite filter_map_comm, filter_filter_comm; cbn beta;
      rewrite Hrows, filter_map_comm, map_map; cbn [UserSplitter.base];
      unfold test_user_of; destruct (in_dec Z.eq_dec u tu).
    + apply cut_test. intros x _.
      unfold UserSplitter.quantity_test. cbn.
      rewrite Qle_bool_floor. now destruct (snd x <=? _).
    + rewrite filter_none; [reflexivity|]. intros x _.
      unfold UserSplitter.quantity_test. cbn. now destruct (Qle_bool _ _).
    + apply cut_train. intros x _.
      unfold UserSplitter.quantity_train. cbn.
      rewrite Qle_bool_floor. now destruct (snd x <=? _).
    + apply keep_all. intros x _.
      unfold UserSplitter.quantity_train. cbn. now destruct (Qle_bool _ _).
Qed.

Lemma firstn_skipn_add {A} (c d : nat) (l : list A) :
  firstn (c + d) l = firstn c l ++ firstn d (skipn c l)
  /\ skipn c l = firstn d (skipn c l) ++ skipn (c + d) l.
Proof.
  split.
  - revert l. induction c as [|c IH]; intros l; [reflexivity|].
    destruct l as [|a l]; [cbn; now rewrite firstn_nil|].
    cbn. now rewrite IH.
  - rewrite <- (firstn_skipn d (skipn c l)) at 1.
    now rewrite skipn_skipn, (Nat.add_comm d c).
Qed.

(** X9: take two splitters with the same seed that differ only in
    [item_test_size], both sizes fractions or both counts, the second size
    at least the first.  On the same log the second split holds out, for
    each user, the rows the first holds out and then further ones, which
    are the first rows the first split left in train: growing the size only
    moves rows from train to test.  The two calls may draw anew what they
    like; without a seed they shuffle apart and the nesting need not
    hold. *)
Theorem X9_larger_size_moves_rows eng ent1 ent2 self1 self2 log s
    train1 test1 train2 test2 u :
  UserSplitter.seed self1 = Some s ->
  UserSplitter.seed self2 = Some s ->
  UserSplitter.user_test_size self1 = UserSplitter.user_test_size self2 ->
  UserSplitter.shuffle self1 = UserSplitter.shuffle self2 ->
  (num_val (UserSplitter.item_test_size self1)
   <= num_val (UserSplitter.item_test_size self2))%Q ->
  ((num_val (UserSplitter.item_test_size self2) < 1)%Q
   \/ (1 <= num_val (UserSplitter.item_test_size self1))%Q) ->
  UserSplitter._core_split eng ent1 self1 log = Ok (train1, test1) ->
  UserSplitter._core_split eng ent2 self2 log = Ok (train2, test2) ->
  exists moved,
    filter (fun r => user_id r =? u) test2 =
      filter (fun r => user_id r =? u) test1 ++ moved
    /\ filter (fun r => user_id r =? u) train1 =
       moved ++ filter (fun r => user_id r =? u) train2.
Proof.
  intros Es1 Es2 Eu Esh Hle Hmode H1 H2.
  destruct (core_split_cases _ _ _ _ _ _ H1) as [tu [Htu1 M1]].
  destruct (core_split_cases _ _ _ _ _ _ H2) as [tu2 [Htu2 M2]].
  assert (Etu : tu2 = tu).
  { rewrite (seeded_test_users eng ent2 ent1 self2 log s Es2) in Htu2.
    unfold UserSplitter._get_test_users in Htu1, Htu2.
    rewrite Eu, Es1 in Htu1. rewrite Es2 in Htu2. congruence. }
  subst tu2.
  assert (Erk : UserSplitter.ranked eng ent1 self1 log tu =
                UserSplitter.ranked eng ent2 self2 log tu).
  { rewrite (seeded_ranked eng ent1 ent2 self1 log tu s Es1).
    unfold UserSplitter.ranked, UserSplitter._add_random_partition.
    now rewrite Esh, Es1, Es2. }
  destruct (core_split_rows _ _ _ _ _ _ _ u H1 Htu1) as [Ht1 Hr1].
  destruct (core_split_rows _ _ _ _ _ _ _ u H2 Htu2) as [Ht2 Hr2].
  rewrite Erk in Ht1, Hr1.
  set (rows := map UserSplitter.base
                 (filter (fun r => user_id (UserSplitter.base r) =? u)
                         (UserSplitter.ranked eng ent2 self2 log tu))) in *.
  set (f1 := num_val (UserSplitter.item_test_size self1)) in *.
  set (f2 := num_val (UserSplitter.item_test_size self2)) in *.
  set (c1 := if Py.le (PyInt 0) (UserSplitter.item_test_size self1)
                && Py.lt (UserSplitter.item_test_size self1) (PyFloat 1)
             then Qfloor (inject_Z (Z.of_nat (length rows)) * f1)
             else Qfloor f1) in *.
  set (c2 := if Py.le (PyInt 0) (UserSplitter.item_test_size self2)
                && Py.lt (UserSplitter.item_test_size self2) (PyFloat 1)
             then Qfloor (inject_Z (Z.of_nat (length rows)) * f2)
             else Qfloor f2) in *.
  assert (Hc : c1 <= c2).
  { assert (Hv1 : (0 <= f1)%Q).
    { destruct M1 as [[M _]|[_ [M _]]].
      - apply fraction_mode_iff in M. tauto.
      - apply andb_true_iff in M. destruct M as [M _].
        apply py_le_iff in M. cbn in M.
        eapply Qle_trans; [|exact M]. discriminate. }
    destruct (Py.le (PyInt 0) (UserSplitter.item_test_size self1)
              && Py.lt (UserSplitter.item_test_size self1) (PyFloat 1)) eqn:E1;
      destruct (Py.le (PyInt 0) (UserSplitter.item_test_size self2)
                && Py.lt (UserSplitter.item_test_size self2) (PyFloat 1)) eqn:E2;
      unfold c1, c2.
    - apply Qfloor_resp_le.
      rewrite !(Qmult_comm (inject_Z (Z.of_nat (length rows)))).
      apply Qmult_le_compat_r; [exact Hle|].
      change 0%Q with (inject_Z 0). rewrite <- Zle_Qle. lia.
    - exfalso. apply fraction_mode_iff in E1. fold f1 in E1.
      destruct Hmode as [Hm|Hm].
      + rewrite <- not_true_iff_false, fraction_mode_iff in E2. apply E2.
        split; [|exact Hm]. eapply Qle_trans; [exact Hv1 | exact Hle].
      + destruct E1 as [_ E1]. exact (Qlt_not_le _ _ E1 Hm).
    - exfalso. apply fraction_mode_iff in E2. fold f2 in E2.
      rewrite <- not_true_iff_false, fraction_mode_iff in E1. apply E1.
      split; [exact Hv1|]. eapply Qle_lt_trans; [exact Hle | tauto].
    - now apply Qfloor_resp_le. }
  destruct (in_dec Z.eq_dec u tu).
  - destruct (Z.le_gt_cases 0 c1) as [H0|H0].
    + destruct (firstn_skipn_add (Z.to_nat c1) (Z.to_nat c2 - Z.to_nat c1) rows)
        as [Ea Eb].
      replace (Z.to_nat c1 + (Z.to_nat c2 - Z.to_nat c1))%nat
        with (Z.to_nat c2) in Ea, Eb by lia.
      exists (firstn (Z.to_nat c2 - Z.to_nat c1) (skipn (Z.to_nat c1) rows)).
      rewrite Ht1, Ht2, Hr1, Hr2. split; assumption.
    + exists (firstn (Z.to_nat c2) rows).
      rewrite Ht1, Ht2, Hr1, Hr2.
      replace (Z.to_nat c1) with 0%nat by lia. cbn [firstn skipn app].
      split; [reflexivity|]. symmetry. apply firstn_skipn.
  - exists []. rewrite Ht1, Ht2, Hr1, Hr2. split; reflexivity.
Qed.

(** ** The methods of the two older splitters *)

Lemma old_random_rows eng log seed :
  Permutation (map UserLogSplitter.base
                 (UserLogSplitter._add_random_partition eng log seed)) log.
Proof.
  unfold UserLogSplitter._add_random_partition.
  rewrite map_map. cbn [UserLogSplitter.base].
  rewrite <- (map_map fst fst), row_number_perm, map_map. cbn [fst].
  now rewrite indexed_snd.
Qed.

Lemma old_time_rows eng log :
  Permutation (map UserLogSplitter.base
                 (UserLogSplitter._add_time_partition eng log)) log.
Proof.
  unfold UserLogSplitter._add_time_partition.
  rewrite map_map. cbn [UserLogSplitter.base].
  apply row_number_perm.
Qed.

Lemma old_random_user eng log seed u :
  exists blk : list (Row * option Q),
    Permutation (map fst blk) (filter (fun r => user_id r =? u) log)
    /\ filter (fun r => user_id (UserLogSplitter.base r) =? u)
              (UserLogSplitter._add_random_partition eng log seed) =
       map (fun x => UserLogSplitter.mkRes (fst (fst x)) (snd (fst x)) (snd x))
           (Sql.number_from 1 blk).
Proof.
  unfold UserLogSplitter._add_random_partition.
  set (with_rand := map (fun x => (snd x, rand_at eng seed (fst x)))
                        (Sql.indexed log)).
  assert (Hfst : map fst with_rand = log).
  { unfold with_rand. rewrite map_map. cbn [fst]. apply indexed_snd. }
  clearbody with_rand.
  set (part := fun x : Row * Q => user_id (fst x)).
  set (leb := fun x y : Row * Q => Qle_bool (snd x) (snd y)).
  set (P := Sql.partition_rows eng part leb with_rand u).
  exists (map (fun p => (fst p, Some (snd p))) P). split.
  - rewrite map_map. cbn [fst]. unfold P. rewrite partition_rows_perm.
    rewrite <- Hfst, filter_map_comm. reflexivity.
  - rewrite filter_map_comm.
    match goal with
    | |- map _ (filter ?p ?l) = _ =>
        change (filter p l) with (filter (fun x => part (fst x) =? u) l)
    end.
    rewrite row_number_partition. fold P.
    rewrite number_from_map, map_map. reflexivity.
Qed.

Lemma old_time_user eng log u :
  exists blk : list (Row * option Q),
    Permutation (map fst blk) (filter (fun r => user_id r =? u) log)
    /\ StronglySorted (fun a b => timestamp b <= timestamp a) (map fst blk)
    /\ filter (fun r => user_id (UserLogSplitter.base r) =? u)
              (UserLogSplitter._add_time_partition eng log) =
       map (fun x => UserLogSplitter.mkRes (fst (fst x)) (snd (fst x)) (snd x))
           (Sql.number_from 1 blk).
Proof.
  unfold UserLogSplitter._add_time_partition.
  set (leb := fun x y : Row => timestamp y <=? timestamp x).
  set (P := Sql.partition_rows eng user_id leb log u).
  exists (map (fun r => (r, None)) P). split; [|split].
  - rewrite map_map. cbn [fst]. rewrite map_id. apply partition_rows_perm.
  - rewrite map_map. cbn [fst]. rewrite map_id.
    eapply StronglySorted_weaken; [|apply partition_rows_sorted].
    + intros a b Hab. now apply Z.leb_le in Hab.
    + intros a b. unfold leb. rewrite !Z.leb_le. lia.
    + intros a b c. unfold leb. rewrite !Z.leb_le. lia.
  - rewrite filter_map_comm.
    match goal with
    | |- map _ (filter ?p ?l) = _ =>
        change (filter p l) with (filter (fun x => user_id (fst x) =? u) l)
    end.
    rewrite row_number_partition. fold P.
    rewrite number_from_map, map_map. reflexivity.
Qed.

Lemma old_quantity_perm self log rs train pinput test :
  Permutation (map UserLogSplitter.base rs) log ->
  UserLogSplitter.by_quantity self rs = Ok (train, pinput, test) ->
  pinput = train /\ Permutation (train ++ test) log.
Proof.
  intros Hperm H. unfold UserLogSplitter.by_quantity in H.
  injection H as <- <- <-. split; [reflexivity|].
  rewrite <- map_app. unfold Sql.where_.
  rewrite filter_complement_perm; [exact Hperm|].
  intros r _. destruct (UserLogSplitter.test_size self); cbn;
    [now destruct (Qle_bool _ _) | reflexivity].
Qed.

Lemma old_proportion_frame log (rs : list UserLogSplitter.Res) :
  (forall r, In r rs -> In (user_id (UserLogSplitter.base r)) (map user_id log)) ->
  map (fun x => (fst x, Sql.div (UserLogSplitter.row_num (fst x))
                          (option_map snd (snd x))))
      (Sql.left_join (fun r => user_id (UserLogSplitter.base r)) fst rs
         (Sql.group_count user_id log)) =
  map (fun r => (r, Some (inject_Z (UserLogSplitter.row_num r)
                          / inject_Z (cnt log (user_id (UserLogSplitter.base r))))%Q))
      rs.
Proof.
  intros Hin. unfold Sql.group_count.
  rewrite left_join_unique by (apply keyed_NoDup, distinct_NoDup).
  rewrite map_map. apply map_ext_in. intros r Hr. cbn [fst snd].
  rewrite find_keyed.
  destruct (in_dec Z.eq_dec _ _) as [_|Hn].
  - cbn [option_map snd]. fold (cnt log (user_id (UserLogSplitter.base r))).
    unfold Sql.div.
    pose proof (cnt_pos log _ (Hin r Hr)) as Hpos.
    destruct (Z.eqb_spec (cnt log (user_id (UserLogSplitter.base r))) 0);
      [lia | reflexivity].
  - exfalso. apply Hn. apply distinct_In. auto.
Qed.

Lemma old_rows_users log (rs : list UserLogSplitter.Res) :
  Permutation (map UserLogSplitter.base rs) log ->
  forall r, In r rs -> In (user_id (UserLogSplitter.base r)) (map user_id log).
Proof.
  intros Hperm r Hr. apply in_map. apply (Permutation_in _ Hperm).
  now apply in_map.
Qed.

Lemma old_proportion_perm self log rs train pinput test :
  Permutation (map UserLogSplitter.base rs) log ->
  UserLogSplitter.by_proportion self log rs = Ok (train, pinput, test) ->
  pinput = train /\ Permutation (train ++ test) log.
Proof.
  intros Hperm H. unfold UserLogSplitter.by_proportion in H.
  rewrite (old_proportion_frame log rs (old_rows_users log rs Hperm)) in H.
  injection H as <- <- <-. split; [reflexivity|].
  rewrite <- map_app. unfold Sql.where_.
  rewrite filter_complement_perm.
  - rewrite map_map. cbn [fst]. exact Hperm.
  - intros x Hx. apply in_map_iff in Hx. destruct Hx as [r [<- _]].
    destruct (UserLogSplitter.test_size self); cbn;
      [now destruct (Qle_bool _ _) | reflexivity].
Qed.

(** X10: the four split methods of [RandomUserLogSplitter] and
    [ByTimeUserLogSplitter] return, for every [test_size], a triple whose
    first two frames are the same train frame and whose train and test
    frames together hold the rows of the log, each once. *)
Theorem X10_old_methods_partition eng self log :
  forall M, M = UserLogSplitter.RandomUserLogSplitter eng
            \/ M = UserLogSplitter.ByTimeUserLogSplitter eng ->
  forall method,
    method = @UserLogSplitter._split_quantity M
    \/ method = @UserLogSplitter._split_proportion M ->
  exists train test,
    method self log = Ok (train, train, test)
    /\ Permutation (train ++ test) log.
Proof.
  intros M HM method Hm.
  assert (Hq : forall rs, Permutation (map UserLogSplitter.base rs) log ->
            exists train test,
              UserLogSplitter.by_quantity self rs = Ok (train, train, test)
              /\ Permutation (train ++ test) log).
  { intros rs Hperm.
    destruct (UserLogSplitter.by_quantity self rs) as [[[tr pi] te]|e] eqn:E;
      [|discriminate].
    destruct (old_quantity_perm _ _ _ _ _ _ Hperm E) as [-> Hp]. eauto. }
  assert (Hp : forall rs, Permutation (map UserLogSplitter.base rs) log ->
            exists train test,
              UserLogSplitter.by_proportion self log rs = Ok (train, train, test)
              /\ Permutation (train ++ test) log).
  { intros rs Hperm.
    destruct (UserLogSplitter.by_proportion self log rs)
      as [[[tr pi] te]|e] eqn:E; [|discriminate].
    destruct (old_proportion_perm _ _ _ _ _ _ Hperm E) as [-> Hp]. eauto. }
  destruct HM as [->| ->]; destruct Hm as [->| ->]; cbn.
  - apply Hq, old_random_rows.
  - apply Hp, old_random_rows.
  - apply Hq, old_time_rows.
  - apply Hp, old_time_rows.
Qed.

Lemma old_quantity_cut self rs u (blk : list (Row * option Q))
    train pinput test :
  filter (fun r => user_id (UserLogSplitter.base r) =? u) rs =
    map (fun x => UserLogSplitter.mkRes (fst (fst x)) (snd (fst x)) (snd x))
        (Sql.number_from 1 blk) ->
  UserLogSplitter.by_quantity self rs = Ok (train, pinput, test) ->
  let c := match UserLogSplitter.test_size self with
           | UserLogSplitter.Num x => Z.to_nat (Qfloor (num_val x))
           | UserLogSplitter.NaN => length (map fst blk)
           end in
  filter (fun r => user_id r =? u) test = firstn c (map fst blk)
  /\ filter (fun r => user_id r =? u) train = skipn c (map fst blk).
Proof.
  intros Hrows H c. unfold UserLogSplitter.by_quantity in H.
  injection H as <- _ <-. unfold Sql.where_. subst c.
  split; rewrite filter_map_comm, filter_filter_comm; cbn beta;
    rewrite Hrows, filter_map_comm, map_map; cbn [UserLogSplitter.base];
    destruct (UserLogSplitter.test_size self) as [x|].
  - apply cut_test. intros y _. cbn. rewrite Qle_bool_floor.
    now destruct (snd y <=? _).
  - rewrite firstn_all. apply keep_all. reflexivity.
  - apply cut_train. intros y _. cbn. rewrite Qle_bool_floor.
    now destruct (snd y <=? _).
  - rewrite skipn_all. rewrite filter_none; reflexivity.
Qed.

Lemma old_proportion_cut self log rs u (blk : list (Row * option Q))
    train pinput test :
  Permutation (map UserLogSplitter.base rs) log ->
  Permutation (map fst blk) (filter (fun r => user_id r =? u) log) ->
  filter (fun r => user_id (UserLogSplitter.base r) =? u) rs =
    map (fun x => UserLogSplitter.mkRes (fst (fst x)) (snd (fst x)) (snd x))
        (Sql.number_from 1 blk) ->
  UserLogSplitter.by_proportion self log rs = Ok (train, pinput, test) ->
  let c := match UserLogSplitter.test_size self with
           | UserLogSplitter.Num x =>
               Z.to_nat (Qfloor (inject_Z (cnt log u) * num_val x))
           | UserLogSplitter.NaN => length (map fst blk)
           end in
  filter (fun r => user_id r =? u) test = firstn c (map fst blk)
  /\ filter (fun r => user_id r =? u) train = skipn c (map fst blk).
Proof.
  intros Hall Hperm Hrows H c. unfold UserLogSplitter.by_proportion in H.
  rewrite (old_proportion_frame log rs (old_rows_users log rs Hall)) in H.
  injection H as <- _ <-. unfold Sql.where_. subst c.
  assert (Hk : forall x, In x (Sql.number_from 1 blk) ->
            cnt log (user_id (fst (fst x))) = cnt log u /\ 0 < cnt log u).
  { intros x Hx. apply (in_map fst) in Hx. rewrite number_from_fst in Hx.
    apply (in_map fst) in Hx.
    pose proof (Permutation_in _ Hperm Hx) as Hin.
    apply filter_In in Hin. destruct Hin as [Hin Hu]. apply Z.eqb_eq in Hu.
    rewrite Hu. split; [reflexivity|]. apply cnt_pos.
    rewrite <- Hu. now apply in_map. }
  split; rewrite filter_map_comm, filter_filter_comm; cbn beta;
    rewrite filter_map_comm; cbn [fst UserLogSplitter.base];
    rewrite Hrows, map_map, filter_map_comm, map_map;
    cbn [fst snd UserLogSplitter.base UserLogSplitter.row_num];
    destruct (UserLogSplitter.test_size self) as [x|].
  - apply cut_test. intros y Hy. destruct (Hk y Hy) as [-> Hpos]. cbn.
    rewrite Qle_bool_div, Qle_bool_floor by assumption.
    now destruct (snd y <=? _).
  - rewrite firstn_all. apply keep_all. reflexivity.
  - apply cut_train. intros y Hy. destruct (Hk y Hy) as [-> Hpos]. cbn.
    rewrite Qle_bool_div, Qle_bool_floor by assumption.
    now destruct (snd y <=? _).
  - rewrite skipn_all. rewrite filter_none; reflexivity.
Qed.

(** X11: what [ByTimeUserLogSplitter] holds out of a user's rows are its
    latest, in [_split_quantity] and in [_split_proportion]: no train row
    of a user is more recent than a test row of that user. *)
Theorem X11_old_by_time_most_recent eng self log train pinput test t r :
  UserLogSplitter._split_quantity
    (Methods := UserLogSplitter.ByTimeUserLogSplitter eng) self log =
    Ok (train, pinput, test)
  \/ UserLogSplitter._split_proportion
       (Methods := UserLogSplitter.ByTimeUserLogSplitter eng) self log =
       Ok (train, pinput, test) ->
  In t test -> In r train -> user_id t = user_id r ->
  timestamp r <= timestamp t.
Proof.
  intros H Ht Hr Eu.
  destruct (old_time_user eng log (user_id t)) as [blk [Hperm [Hsort Hrows]]].
  assert (Hcut : exists c,
            filter (fun x => user_id x =? user_id t) test = firstn c (map fst blk)
            /\ filter (fun x => user_id x =? user_id t) train =
               skipn c (map fst blk)).
  { destruct H as [H|H]; cbn in H.
    - eexists. exact (old_quantity_cut _ _ _ _ _ _ _ Hrows H).
    - eexists.
      exact (old_proportion_cut _ _ _ _ _ _ _ _ (old_time_rows eng log)
               Hperm Hrows H). }
  destruct Hcut as [c [Htest Htrain]].
  assert (Ht' : In t (filter (fun x => user_id x =? user_id t) test))
    by (apply filter_In; split; [exact Ht | apply Z.eqb_refl]).
  assert (Hr' : In r (filter (fun x => user_id x =? user_id t) train))
    by (apply filter_In; split; [exact Hr | now apply Z.eqb_eq]).
  rewrite Htest in Ht'. rewrite Htrain in Hr'.
  exact (sorted_prefix_suffix _ _ _ _ _ Hsort Ht' Hr').
Qed.

(** X12: for both older splitters and a [test_size] that is a number,
    [_split_quantity] holds out of a user with [k] rows
    [min (floor test_size) k] rows, counting a negative floor as 0; and
    [_split_proportion] with [test_size >= 1], so with the [test_size = 1]
    that the check of [_core_split] admits, leaves an empty train frame and
    the whole log in test. *)
Theorem X12_old_methods_share eng self log x :
  UserLogSplitter.test_size self = UserLogSplitter.Num x ->
  forall M, M = UserLogSplitter.RandomUserLogSplitter eng
            \/ M = UserLogSplitter.ByTimeUserLogSplitter eng ->
  (forall train pinput test u,
      @UserLogSplitter._split_quantity M self log = Ok (train, pinput, test) ->
      length (filter (fun r => user_id r =? u) test) =
      Nat.min (Z.to_nat (Qfloor (num_val x))) (Z.to_nat (cnt log u)))
  /\ (forall train pinput test,
        (1 <= num_val x)%Q ->
        @UserLogSplitter._split_proportion M self log = Ok (train, pinput, test) ->
        train = [] /\ Permutation test log).
Proof.
  intros Hx M HM.
  assert (Hrs : exists rs,
            Permutation (map UserLogSplitter.base rs) log
            /\ (forall u, exists blk : list (Row * option Q),
                   Permutation (map fst blk) (filter (fun r => user_id r =? u) log)
                   /\ filter (fun r => user_id (UserLogSplitter.base r) =? u) rs =
                      map (fun x => UserLogSplitter.mkRes (fst (fst x))
                                      (snd (fst x)) (snd x))
                          (Sql.number_from 1 blk))
            /\ @UserLogSplitter._split_quantity M self log =
               UserLogSplitter.by_quantity self rs
            /\ @UserLogSplitter._split_proportion M self log =
               UserLogSplitter.by_proportion self log rs).
  { destruct HM as [->| ->].
    - exists (UserLogSplitter._add_random_partition eng log
                (UserLogSplitter.seed self)).
      split; [apply old_random_rows|]. split; [|split; reflexivity].
      intros u. apply old_random_user.
    - exists (UserLogSplitter._add_time_partition eng log).
      split; [apply old_time_rows|]. split; [|split; reflexivity].
      intros u. destruct (old_time_user eng log u) as [blk [Hp [_ Hr]]].
      now exists blk. }
  destruct Hrs as [rs [Hall [Huser [-> ->]]]].
  assert (Hlen : forall u (blk : list (Row * option Q)),
            Permutation (map fst blk) (filter (fun r => user_id r =? u) log) ->
            length (map fst blk) = Z.to_nat (cnt log u)).
  { intros u blk Hp. unfold cnt. rewrite (Permutation_length Hp). lia. }
  split.
  - intros train pinput test u H.
    destruct (Huser u) as [blk [Hp Hr]].
    destruct (old_quantity_cut _ _ _ _ _ _ _ Hr H) as [-> _].
    rewrite Hx, length_firstn. now rewrite (Hlen u blk Hp).
  - intros train pinput test Hone H.
    assert (Ht : train = []).
    { apply no_group_nil. intros u.
      destruct (Huser u) as [blk [Hp Hr]].
      destruct (old_proportion_cut _ _ _ _ _ _ _ _ Hall Hp Hr H) as [_ ->].
      rewrite Hx. apply skipn_all2. rewrite (Hlen u blk Hp).
      assert (Hk : 0 <= cnt log u) by (unfold cnt; lia).
      assert (Hfl : cnt log u <= Qfloor (inject_Z (cnt log u) * num_val x)).
      { rewrite <- (Qfloor_Z (cnt log u)) at 1. apply Qfloor_resp_le.
        rewrite <- (Qmult_1_r (inject_Z (cnt log u))) at 1.
        rewrite !(Qmult_comm (inject_Z (cnt log u))).
        apply Qmult_le_compat_r; [exact Hone|].
        change 0%Q with (inject_Z 0). now rewrite <- Zle_Qle. }
      lia. }
    split; [exact Ht|].
    destruct (old_proportion_perm _ _ _ _ _ _ Hall H) as [_ Hp].
    now rewrite Ht in Hp.
Qed.

(** ** The further properties on the log of the docstring *)

(** X1 on two folds of the docstring's log. *)
Lemma X1_witness :
  exists folds,
    KFolds.k_folds eng0 0 doc_log 2 None (Some "user"%string) = KFolds.Yields folds
    /\ Z.of_nat (length folds) = Z.max 0 2
    /\ forall train test,
         In (train, test) folds -> Permutation (train ++ test) doc_log.
Proof.
  apply (proj2 (X1_k_folds_partitions eng0 0 doc_log 2 None
                  (Some "user"%string))).
  reflexivity.
Defined.

(** X2 on two folds of the docstring's log. *)
Lemma X2_witness : Permutation (concat (map snd doc_folds)) doc_log.
Proof.
  apply (X2_k_folds_tests_cover eng0 0 doc_log 2 None doc_folds).
  - lia.
  - reflexivity.
Defined.

(** X3 on user 1 and the second of two folds: two of its three rows. *)
Lemma X3_witness :
  Z.of_nat (length (filter (fun r => user_id r =? 1)
                      (snd (nth 1 doc_folds ([], []))))) =
  (cnt doc_log 1 - 1) / 2 - (- 1) / 2.
Proof.
  refine (proj1 (X3_k_folds_user_share eng0 0 doc_log 2 None doc_folds 1
                   (fst (nth 1 doc_folds ([], [])))
                   (snd (nth 1 doc_folds ([], []))) 1 _ _ eq_refl eq_refl)).
  - lia.
  - lia.
Defined.

(** X4 on three users and a third as a double: the product rounds to 1,
    and one user is a test user. *)
Lemma X4_witness :
  Z.of_nat (length [1]) =
  Qfloor (Double.round (Double.round (inject_Z (user_count three_users)) * third)).
Proof.
  refine (proj2 (proj2 (X4_test_users_number eng0 ent0 third_of_users
                          three_users (PyFloat third) [1] eq_refl _ _))).
  - vm_compute. reflexivity.
  - vm_compute. reflexivity.
Defined.


(** X6 on user 1 with [item_test_size=0.67]. *)
Lemma X6_witness :
  1 <= Z.of_nat (length (filter (fun r => user_id r =? 1)
                           (fst (doc_split two_thirds)))).
Proof.
  refine (proj2 (X6_fraction_leaves_train eng0 ent0 two_thirds doc_log
                   (fst (doc_split two_thirds)) (snd (doc_split two_thirds))
                   1 _ eq_refl _)).
  - split; [discriminate | reflexivity].
  - simpl. auto.
Defined.

(** X7 on user 1 with [item_test_size=0.67] and [shuffle=False]. *)
Lemma X7_witness :
  In 1 [1; 2] /\ timestamp (mkRow 1 1 1 1) <= timestamp (mkRow 1 3 3 3).
Proof.
  refine (X7_fraction_most_recent eng0 ent0 two_thirds_by_time doc_log
            (fst (doc_split two_thirds_by_time))
            (snd (doc_split two_thirds_by_time))
            [1; 2] 1 (mkRow 1 3 3 3) (mkRow 1 1 1 1)
            _ eq_refl eq_refl eq_refl _ _ eq_refl eq_refl).
  - split; [discriminate | reflexivity].
  - vm_compute. auto.
  - vm_compute. auto.
Defined.

(** X8 on the default splitter: two empty frames. *)
Lemma X8_witness :
  UserSplitter._core_split eng0 ent0 default_splitter [] = Ok ([], []).
Proof.
  refine (proj2 (proj2 (X8_empty_log eng0 ent0 default_splitter)) _ _).
  - right. exists 1. split; [reflexivity | lia].
  - left. reflexivity.
Defined.

(** X9 on [item_test_size] 1 and 2 with seed 80083, the two calls drawing
    differently. *)
Lemma X9_witness :
  exists moved,
    filter (fun r => user_id r =? 1)
           (snd (doc_split_with (mkEntropy 5 7) seeded_two_items)) =
      filter (fun r => user_id r =? 1)
             (snd (doc_split_with ent0 seeded_one_item))
      ++ moved
    /\ filter (fun r => user_id r =? 1)
              (fst (doc_split_with ent0 seeded_one_item)) =
       moved ++ filter (fun r => user_id r =? 1)
                       (fst (doc_split_with (mkEntropy 5 7) seeded_two_items)).
Proof.
  refine (X9_larger_size_moves_rows eng0 ent0 (mkEntropy 5 7)
            seeded_one_item seeded_two_items doc_log 80083
            (fst (doc_split_with ent0 seeded_one_item))
            (snd (doc_split_with ent0 seeded_one_item))
            (fst (doc_split_with (mkEntropy 5 7) seeded_two_items))
            (snd (doc_split_with (mkEntropy 5 7) seeded_two_items)) 1
            eq_refl eq_refl eq_refl eq_refl _ _ eq_refl eq_refl).
  - discriminate.
  - right. discriminate.
Defined.

(** X10 on [RandomUserLogSplitter._split_quantity]. *)
Lemma X10_witness :
  exists train test,
    UserLogSplitter._split_quantity
      (Methods := UserLogSplitter.RandomUserLogSplitter eng0)
      old_one_item doc_log = Ok (train, train, test)
    /\ Permutation (train ++ test) doc_log.
Proof.
  refine (X10_old_methods_partition eng0 old_one_item doc_log
            (UserLogSplitter.RandomUserLogSplitter eng0) _
            (@UserLogSplitter._split_quantity
               (UserLogSplitter.RandomUserLogSplitter eng0)) _).
  - left. reflexivity.
  - left. reflexivity.
Defined.

(** X11 on user 1 and [ByTimeUserLogSplitter._split_quantity]. *)
Lemma X11_witness : timestamp (mkRow 1 1 1 1) <= timestamp (mkRow 1 3 3 3).
Proof.
  refine (X11_old_by_time_most_recent eng0 old_one_item doc_log
            (fst (fst doc_old_by_time)) (snd (fst doc_old_by_time))
            (snd doc_old_by_time) (mkRow 1 3 3 3) (mkRow 1 1 1 1) _ _ _ eq_refl).
  - left. reflexivity.
  - vm_compute. auto.
  - vm_compute. auto.
Defined.

(** X12 on user 1 and [ByTimeUserLogSplitter._split_quantity]. *)
Lemma X12_witness :
  length (filter (fun r => user_id r =? 1) (snd doc_old_by_time)) =
  Nat.min (Z.to_nat (Qfloor (num_val (PyInt 1)))) (Z.to_nat (cnt doc_log 1)).
Proof.
  refine (proj1 (X12_old_methods_share eng0 old_one_item doc_log (PyInt 1)
                   eq_refl (UserLogSplitter.ByTimeUserLogSplitter eng0) _)
            (fst (fst doc_old_by_time)) (snd (fst doc_old_by_time))
            (snd doc_old_by_time) 1 eq_refl).
  right. reflexivity.
Defined.
